(** * DICOM SR TID1500 plugin: a shallow embedding and its properties

    The definitions below follow [DICOMPlugins/DICOMTID1500Plugin.py]
    function by function.  Python exceptions are values of [exn] carried by
    the [result] type, attribute lookups that may fail ([hasattr],
    [AttributeError]) are [option] fields, dictionaries are [gmap]s and
    lists updated by index use stdpp's list lookup and insert.  The numbers
    that [loadAdditionalMeasurements] computes with (image position,
    orientation and pixel spacing, the polyline of a length) are binary64
    floating-point numbers, with the operations of IEEE 754 as numpy applies
    them.  The graphic data of the regions read through highdicom, on which
    the plugin only takes minima, maxima, differences and a midpoint, are
    exact rationals. *)

From Stdlib Require Import ZArith QArith Qminmax String Ascii List Lia Lqa.
From Stdlib Require Import DecimalString DecimalNat Sorted Permutation.
From Stdlib Require Import Floats.
From stdpp Require Import base option list strings gmap.

Local Open Scope string_scope.

(** ** Python results *)

Inductive exn : Type :=
| AttributeError
| IndexError
| KeyError
| ValueError
| TypeError
| UnboundLocalError
| Exception_ (msg : string).

Inductive result (A : Type) : Type :=
| Ok (a : A)
| Raise (e : exn).

Arguments Ok {A} a.
Arguments Raise {A} e.

Definition rbind {A B} (r : result A) (k : A -> result B) : result B :=
  match r with
  | Ok a => k a
  | Raise e => Raise e
  end.

#[global] Instance result_ret : MRet result := fun _ a => Ok a.
#[global] Instance result_bind : MBind result := fun _ _ k r => rbind r k.
#[global] Instance result_fmap : FMap result := fun _ _ f r =>
  match r with
  | Ok a => Ok (f a)
  | Raise e => Raise e
  end.

(** [try: body except (caught): handler] *)
Definition try_except {A} (body : result A) (caught : exn -> bool)
    (handler : result A) : result A :=
  match body with
  | Ok a => Ok a
  | Raise e => if caught e then handler else Raise e
  end.

Definition is_AttributeError_or_IndexError (e : exn) : bool :=
  match e with
  | AttributeError | IndexError => true
  | _ => false
  end.

(** [obj.attr] on an attribute that may be absent *)
Definition getattr {A} (attr : option A) : result A :=
  match attr with
  | Some a => Ok a
  | None => Raise AttributeError
  end.

(** [seq[0]] *)
Definition first_item {A} (l : list A) : result A :=
  match l with
  | a :: _ => Ok a
  | [] => Raise IndexError
  end.

(** [l[i]] *)
Definition index {A} (l : list A) (i : nat) : result A :=
  match l !! i with
  | Some a => Ok a
  | None => Raise IndexError
  end.

(** [l.index(x)] *)
Fixpoint list_index (l : list string) (x : string) : result nat :=
  match l with
  | [] => Raise ValueError
  | y :: l' => if String.eqb y x then Ok 0%nat else S <$> list_index l' x
  end.

(** Reading a local variable that an earlier statement may not have bound. *)
Definition read_local {A} (v : option A) : result A :=
  match v with
  | Some a => Ok a
  | None => Raise UnboundLocalError
  end.

(** [for x in l: body] for a body that prints nothing: the loop-carried
    state, or the first exception. *)
Fixpoint for_result {A S} (l : list A) (body : A -> S -> result S) (s : S)
    : result S :=
  match l with
  | [] => Ok s
  | x :: l' => s' ← body x s; for_result l' body s'
  end.

(** ** Effects: what the plugin prints, logs and adds to the scene *)

Record LineNode := {
  node_name : string;
  control_points : list (list float)
}.

Record World := {
  stdout : list string;
  warnings : list string;
  markups : list LineNode
}.

Definition quiet : World := {| stdout := []; warnings := []; markups := [] |}.

Definition M (A : Type) : Type := World -> World * result A.

#[global] Instance M_ret : MRet M := fun _ a w => (w, Ok a).
#[global] Instance M_bind : MBind M := fun _ _ k m w =>
  match m w with
  | (w', Ok a) => k a w'
  | (w', Raise e) => (w', Raise e)
  end.

Definition lift {A} (r : result A) : M A := fun w => (w, r).

Definition print (line : string) : M unit := fun w =>
  ({| stdout := (stdout w ++ [line])%list; warnings := warnings w;
      markups := markups w |}, Ok tt).

Definition logging_warning (line : string) : M unit := fun w =>
  ({| stdout := stdout w; warnings := (warnings w ++ [line])%list;
      markups := markups w |}, Ok tt).

(** [for x in l: body], with the variables the body assigns as the state
    carried from one turn to the next. *)
Fixpoint for_ {A S} (l : list A) (body : A -> S -> M S) (s : S) : M S :=
  match l with
  | [] => mret s
  | x :: l' => s' ← body x s; for_ l' body s'
  end.

(** ** Class constants *)

Definition UID_EnhancedSRStorage := "1.2.840.10008.5.1.4.1.1.88.22".
Definition UID_ComprehensiveSRStorage := "1.2.840.10008.5.1.4.1.1.88.33".
Definition UID_Comprehensive3DSRStorage := "1.2.840.10008.5.1.4.1.1.88.34".
Definition UID_SegmentationStorage := "1.2.840.10008.5.1.4.1.1.66.4".
Definition UID_RealWorldValueMappingStorage := "1.2.840.10008.5.1.4.1.1.67".

(** ** Parsed datasets (what pydicom hands to the plugin) *)

Record TemplateItem := {
  TemplateIdentifier : option string
}.

(** An item of a Referenced SOP Sequence, in the evidence sequence and under
    a content item alike. *)
Record ReferencedSOP := {
  ReferencedSOPClassUID : option string;
  ReferencedSOPInstanceUID : option string;
  ReferencedFrameNumber : option string
}.

(** The evidence sequence of a report. *)
Module Evidence.
Record ReferencedSeries := {
  SeriesInstanceUID : option string;
  ReferencedSOPSequence : option (list ReferencedSOP)
}.

Record Item := {
  ReferencedSeriesSequence : option (list ReferencedSeries)
}.
End Evidence.

Record Dataset := {
  SOPInstanceUID : option string;
  Modality : option string;
  SOPClassUID : option string;
  ContentTemplateSequence : option (list TemplateItem);
  CurrentRequestedProcedureEvidenceSequence : option (list Evidence.Item);
  SeriesDate : option string;
  SeriesTime : option string;
  StudyDate : option string;
  StudyTime : option string
}.

(** Values that [getDICOMValue] can return for the tags the plugin asks for:
    a string, or a sequence of template items. *)
Inductive pyval : Type :=
| PStr (s : string)
| PSeq (items : list TemplateItem).

Definition dataset_attr (dataset : Dataset) (tagName : string) : option pyval :=
  if String.eqb tagName "SOPInstanceUID" then PStr <$> SOPInstanceUID dataset
  else if String.eqb tagName "Modality" then PStr <$> Modality dataset
  else if String.eqb tagName "SOPClassUID" then PStr <$> SOPClassUID dataset
  else if String.eqb tagName "ContentTemplateSequence"
       then PSeq <$> ContentTemplateSequence dataset
  else None.

(** Modelled from the spec: [getDICOMValue] is inherited from the plugin
    base classes, which are not part of this file.  As its callers here rely
    on ([uid == ""] after a failed read, a third argument as fallback), it
    returns the attribute's value, or the default (the empty string unless
    given) when the dataset has no such attribute. *)
Definition getDICOMValue (dataset : Dataset) (tagName : string)
    (default : pyval) : pyval :=
  match dataset_attr dataset tagName with
  | Some v => v
  | None => default
  end.

(** [v == s] for a string literal [s] *)
Definition pyval_eq_str (v : pyval) (s : string) : bool :=
  match v with
  | PStr t => String.eqb t s
  | PSeq _ => false
  end.

(** [v[0].TemplateIdentifier] *)
Definition first_TemplateIdentifier (v : pyval) : result string :=
  match v with
  | PStr EmptyString => Raise IndexError
  | PStr (String _ _) => Raise AttributeError
  | PSeq items =>
      t ← first_item items;
      getattr (TemplateIdentifier t)
  end.

(** ** [isDICOMTID1500] *)

Definition isDICOMTID1500 (dataset : Dataset) : result bool :=
  try_except
    (if pyval_eq_str (getDICOMValue dataset "Modality" (PStr "")) "SR" then
       if pyval_eq_str (getDICOMValue dataset "SOPClassUID" (PStr "")) UID_EnhancedSRStorage
          || pyval_eq_str (getDICOMValue dataset "SOPClassUID" (PStr "")) UID_ComprehensiveSRStorage
          || pyval_eq_str (getDICOMValue dataset "SOPClassUID" (PStr "")) UID_Comprehensive3DSRStorage
       then
         tid ← first_TemplateIdentifier
                  (getDICOMValue dataset "ContentTemplateSequence" (PStr ""));
         Ok (String.eqb tid "1500")
       else Ok false
     else Ok false)
    is_AttributeError_or_IndexError
    (Ok false).

(** ** The concept registry and [isConcept] *)

Record Code := {
  CodingSchemeDesignator : option string;
  CodeValue : option string;
  CodeMeaning : option string
}.

Record Coding := {
  scheme : string;
  value : string
}.

Definition codings : gmap string Coding :=
  list_to_map [
    ("imagingMeasurementReport", {| scheme := "DCM"; value := "126000" |});
    ("personObserver", {| scheme := "DCM"; value := "121008" |});
    ("imagingMeasurements", {| scheme := "DCM"; value := "126010" |});
    ("measurementGroup", {| scheme := "DCM"; value := "125007" |});
    ("trackingIdentifier", {| scheme := "DCM"; value := "112039" |});
    ("trackingUniqueIdentifier", {| scheme := "DCM"; value := "112040" |});
    ("findingSite", {| scheme := "SRT"; value := "G-C0E3" |});
    ("length", {| scheme := "SRT"; value := "G-D7FE" |})
  ].

(** [d[key]] on a dictionary *)
Definition getitem {V} (d : gmap string V) (key : string) : result V :=
  match d !! key with
  | Some v => Ok v
  | None => Raise KeyError
  end.

(** A node of the content tree.  One type serves every level (report root,
    container, measurement group, measurement item, region, selection): an
    attribute a node does not carry is [None]. *)
#[warnings="-register-all"]
Inductive ContentItem : Type := mkContentItem {
  ConceptNameCodeSequence : option (list Code);
  RelationshipType : option string;
  PersonName : option string;
  TextValue : option string;
  UID : option string;
  ConceptCodeSequence : option (list Code);
  GraphicData : option (list float);
  ReferencedSOPSequence : option (list ReferencedSOP);
  ContentSequence : option (list ContentItem)
}.

Definition isConcept (item : ContentItem) (coding : string) : result bool :=
  seq ← getattr (ConceptNameCodeSequence item);
  code ← first_item seq;
  s ← getattr (CodingSchemeDesignator code);
  entry ← getitem codings coding;
  if String.eqb s (scheme entry) then
    v ← getattr (CodeValue code);
    entry' ← getitem codings coding;
    Ok (String.eqb v (value entry'))
  else Ok false.

(** The same item with the meaning text of every concept-name code replaced. *)
Definition with_meaning (m : option string) (item : ContentItem) : ContentItem :=
  mkContentItem
    (fmap (M := list)
       (fun c => {| CodingSchemeDesignator := CodingSchemeDesignator c;
                    CodeValue := CodeValue c;
                    CodeMeaning := m |})
     <$> ConceptNameCodeSequence item)
    (RelationshipType item) (PersonName item) (TextValue item) (UID item)
    (ConceptCodeSequence item) (GraphicData item) (ReferencedSOPSequence item)
    (ContentSequence item).


(** ** Column names: [enumerateDuplicateNames] *)

(** Python dictionaries with string keys and string values (the column
    information records). *)
Abbreviation dict := (gmap string string).

(** [str(n)] for a non-negative integer *)
Definition str (n : nat) : string := NilEmpty.string_of_uint (Nat.to_uint n).

(** [Counter(names)] *)
Definition Counter (names : list string) : gmap string nat :=
  foldl (fun m n => <[n := S (default 0 (m !! n))]> m) ∅ names.

(** One turn of [for i in reversed(range(len(names)))]. *)
Definition enumerate_step (names : list string)
    (st : gmap string nat * list string) (i : nat)
    : gmap string nat * list string :=
  let '(counts, nameListCopy) := st in
  match names !! i with
  | Some item =>
      match counts !! item with
      | Some c =>
          if (0 <? c)%nat then
            (<[item := (c - 1)%nat]> counts,
             alter (fun s => s ++ " (" ++ str c ++ ")") i nameListCopy)
          else st
      | None => st
      end
  | None => st
  end.

Definition enumerateDuplicateNames (items : list dict) : result (list dict) :=
  names ← mapM (M := result) (fun item => getitem item "name") items;
  let counts := filter (fun kv => 1 < kv.2)%nat (Counter names) in
  let nameListCopy := names in
  let '(_, nameListCopy) :=
    foldl (enumerate_step names) (counts, nameListCopy)
          (reverse (seq 0 (length names))) in
  Ok (zip_with (fun item n => <["name" := n]> item) items nameListCopy).

(** What a caller reads back as column names. *)
Definition column_names (r : result (list dict)) : result (list (option string)) :=
  match r with
  | Ok items => Ok (map (fun d : dict => d !! "name") items)
  | Raise e => Raise e
  end.

Definition info (n : string) : dict :=
  {[ "name" := n; "unit" := "mm"; "description" := n ]}.

(** How often [n] occurs in [l]. *)
Definition occurrences (n : string) (l : list string) : nat :=
  length (filter (fun x => x = n) l).

(** The name the pass leaves at position [i]: a name that occurs more than
    once gets the number of its occurrence, counted from the front. *)
Definition numbered_name (names : list string) (i : nat) (n : string) : string :=
  if decide (1 < occurrences n names)%nat
  then n ++ " (" ++ str (occurrences n (take (S i) names)) ++ ")"
  else n.

(** ** Reports as highdicom presents them *)

(** What [hd.sr.srread] and the accessors of its measurement groups
    return. *)
Module hd.
(** The attribute of a coded concept that holds its code value: highdicom
    keeps a value of more than 16 characters in [LongCodeValue], or in
    [URNCodeValue] when it is a URN or a URL, and then the concept has no
    attribute [CodeValue]. *)
Inductive CodeValueKeyword : Type :=
| InCodeValue
| InLongCodeValue
| InURNCodeValue.

(** A coded concept: [value], [scheme_designator] and [meaning] are its
    properties of that name; [value] answers the code value from whichever
    attribute holds it. *)
Record CodedConcept := {
  value : string;
  keyword : CodeValueKeyword;
  scheme_designator : string;
  meaning : string
}.

(** The attributes [CodeValue], [CodingSchemeDesignator] and
    [CodeMeaning]. *)
Definition CodeValue (c : CodedConcept) : result string :=
  match keyword c with
  | InCodeValue => Ok (value c)
  | InLongCodeValue | InURNCodeValue => Raise AttributeError
  end.

Definition CodingSchemeDesignator (c : CodedConcept) : string :=
  scheme_designator c.

Definition CodeMeaning (c : CodedConcept) : string := meaning c.

(** A coded content item, such as a qualitative evaluation: concept name
    and coded value. *)
Record CodeContentItem := {
  name : CodedConcept;
  item_value : CodedConcept
}.

Record FindingSite := {
  ConceptCodeSequence : option (list CodedConcept)
}.

Record SourceImage := {
  referenced_sop_instance_uid : option string
}.

Record ImageRegion := {
  ContentSequence : option (list SourceImage);
  GraphicType : string;
  GraphicData : list Q;
  PixelOriginInterpretation : option string
}.

(** A planar ROI measurement group. *)
Record Group := {
  tracking_identifier : string;
  tracking_uid : string;
  finding_type : option CodedConcept;
  finding_sites : list FindingSite;
  reference_type : CodedConcept;
  roi : option ImageRegion;
  qualitative_evaluations : list CodeContentItem
}.

Record SR := {
  CurrentRequestedProcedureEvidenceSequence : option (list Evidence.Item);
  planar_roi_measurement_groups : list Group
}.
End hd.

(** ** [checkIfSRContainsBbox] *)

(** The condition of the [if] inside the two loops; [and] evaluates its
    operands from the left and stops at the first that is false. *)
Definition is_bounded_by (qual_eval : hd.CodeContentItem) : result bool :=
  name_value ← hd.CodeValue (hd.name qual_eval);
  if String.eqb name_value "130400"
     && String.eqb (hd.CodingSchemeDesignator (hd.name qual_eval)) "DCM"
     && String.eqb (hd.CodeMeaning (hd.name qual_eval))
                   "Geometric purpose of region"
  then
    value_value ← hd.CodeValue (hd.item_value qual_eval);
    Ok (String.eqb value_value "75958009"
        && String.eqb (hd.CodingSchemeDesignator (hd.item_value qual_eval)) "SCT"
        && String.eqb (hd.CodeMeaning (hd.item_value qual_eval)) "Bounded by")
  else Ok false.

(** A turn of [for qual_eval in qual_evals]. *)
Definition evaluation_turn (qual_eval : hd.CodeContentItem)
    (checkIfSRContainsBbox : nat) : result nat :=
  matches ← is_bounded_by qual_eval;
  if matches : bool then Ok 1%nat else Ok 0%nat.

Definition checkIfSRContainsBbox (sr : hd.SR) : result nat :=
  let checkIfSRContainsBbox := 0%nat in
  for_result (hd.planar_roi_measurement_groups sr)
    (fun group checkIfSRContainsBbox =>
       for_result (hd.qualitative_evaluations group) evaluation_turn
         checkIfSRContainsBbox)
    checkIfSRContainsBbox.

(** Every qualitative evaluation of the report, in the order the loops visit
    them. *)
Definition evaluations_in_order (sr : hd.SR) : list hd.CodeContentItem :=
  concat (hd.qualitative_evaluations <$> hd.planar_roi_measurement_groups sr).

(** A coded concept that holds its code value in [CodeValue], and one that
    holds it in [LongCodeValue]. *)
Definition coded (value scheme_designator meaning : string) : hd.CodedConcept :=
  {| hd.value := value; hd.keyword := hd.InCodeValue;
     hd.scheme_designator := scheme_designator; hd.meaning := meaning |}.

Definition long_coded (value scheme_designator meaning : string)
    : hd.CodedConcept :=
  {| hd.value := value; hd.keyword := hd.InLongCodeValue;
     hd.scheme_designator := scheme_designator; hd.meaning := meaning |}.

Definition evaluation (name value : hd.CodedConcept) : hd.CodeContentItem :=
  {| hd.name := name; hd.item_value := value |}.

Definition bounded_by : hd.CodeContentItem :=
  evaluation (coded "130400" "DCM" "Geometric purpose of region")
             (coded "75958009" "SCT" "Bounded by").

Definition other_evaluation : hd.CodeContentItem :=
  evaluation (coded "111001" "DCM" "Algorithm Name")
             (coded "1" "99X" "detector").

Definition group_with (evals : list hd.CodeContentItem) : hd.Group :=
  {| hd.tracking_identifier := "Lesion1";
     hd.tracking_uid := "1.2.3.4";
     hd.finding_type := None;
     hd.finding_sites := [];
     hd.reference_type := coded "111030" "DCM" "Image Region";
     hd.roi := None;
     hd.qualitative_evaluations := evals |}.

(** ** The DICOM database and the image files it indexes *)

Module Image.
Record Dataset := {
  SOPInstanceUID : option string;
  ImagePositionPatient : option (list float);
  ImageOrientationPatient : option (list float);
  PixelSpacing : option (list float)
}.
End Image.

(** [slicer.dicomDatabase] together with [pydicom.read_file] on the paths it
    returns.  [fileForInstance] answers the empty string for an instance it
    does not know. *)
Record Database := {
  fileForInstance : string -> string;
  filesForSeries : string -> list string;
  read_file : string -> Image.Dataset
}.

(** ** [getIPPFromSOP] *)

(** A turn of [for file in fileList]; the state is the two lists. *)
Definition file_turn (db : Database) (file : string)
    (st : list string * list (list float))
    : result (list string * list (list float)) :=
  let '(SOPInstanceUID_list, IPP_list) := st in
  let ds := read_file db file in
  uid ← getattr (Image.SOPInstanceUID ds);
  let SOPInstanceUID_list := (SOPInstanceUID_list ++ [uid])%list in
  ipp ← getattr (Image.ImagePositionPatient ds);
  let IPP_list := (IPP_list ++ [ipp])%list in
  Ok (SOPInstanceUID_list, IPP_list).

Definition getIPPFromSOP (db : Database) (referenced_sop_instance_uid
    referenced_series_instance_uid : string) : result (list float) :=
  let fileList := filesForSeries db referenced_series_instance_uid in
  lists ← for_result fileList (file_turn db) ([], []);
  let '(SOPInstanceUID_list, IPP_list) := lists in
  i ← list_index SOPInstanceUID_list referenced_sop_instance_uid;
  index IPP_list i.

(** ** [extractBboxMetadataToVtkTableNode] *)

(** [np.min] and [np.max] of a list *)
Definition np_min (l : list Q) : result Q :=
  match l with
  | [] => Raise ValueError
  | x :: xs => Ok (foldl Qmin x xs)
  end.

Definition np_max (l : list Q) : result Q :=
  match l with
  | [] => Raise ValueError
  | x :: xs => Ok (foldl Qmax x xs)
  end.

Module Bbox.
(** The values computed from a polyline inside the POLYLINE branch. *)
Record Extent := {
  min_x : Q; max_x : Q; min_y : Q; max_y : Q;
  width : Q; height : Q; center_x : Q; center_y : Q
}.

Definition extent (bbox : list Q) : result Extent :=
  b0 ← index bbox 0; b2 ← index bbox 2; b4 ← index bbox 4; b6 ← index bbox 6;
  min_x ← np_min [b0; b2; b4; b6];
  max_x ← np_max [b0; b2; b4; b6];
  b1 ← index bbox 1; b3 ← index bbox 3; b5 ← index bbox 5; b7 ← index bbox 7;
  min_y ← np_min [b1; b3; b5; b7];
  max_y ← np_max [b1; b3; b5; b7];
  let width := (max_x - min_x)%Q in
  let height := (max_y - min_y)%Q in
  let center_x := (min_x + width / 2)%Q in
  let center_y := (min_y + height / 2)%Q in
  Ok {| min_x := min_x; max_x := max_x; min_y := min_y; max_y := max_y;
        width := width; height := height;
        center_x := center_x; center_y := center_y |}.

(** The local variables of the function that a turn of the loop may leave
    unbound. *)
Record Locals := {
  referenced_sop_instance_uid : option string;
  bbox : option (list Q);
  l_width : option Q;
  l_height : option Q;
  l_center_x : option Q;
  l_center_y : option Q;
  center_z : option float
}.

Definition unbound : Locals :=
  {| referenced_sop_instance_uid := None; bbox := None; l_width := None;
     l_height := None; l_center_x := None; l_center_y := None;
     center_z := None |}.
End Bbox.

(** An entry of [poly_infos], under its dictionary keys. *)
Module PolyInfo.
Record t := {
  TrackingIdentifier : string;
  TrackingUID : string;
  SOPInstanceUID : string;
  FindingType : list string;
  FindingSite : list (list string);
  polyline : list (list Q);
  width : Q;
  height : Q;
  center_x : Q;
  center_y : Q;
  center_z : float
}.

(** The geometry-bearing part of an entry. *)
Definition geometry (p : t) : list (list Q) * Q * Q * Q * Q * float :=
  (polyline p, width p, height p, center_x p, center_y p, center_z p).
End PolyInfo.

(** A row of the bounding-box table.  Cells hold the values shown; their
    rendering as text (rounding to two decimals) is left out. *)
Record BboxRow := {
  row_tracking_identifier : string;
  row_finding_type : string;
  row_finding_site : string;
  row_polyline : list (list Q);
  row_width : Q;
  row_height : Q;
  row_center : Q * Q * float
}.

Definition createBboxTable (poly_infos : list PolyInfo.t) : result (list BboxRow) :=
  mapM (M := result)
    (fun p =>
       let finding_type := PolyInfo.FindingType p in
       finding_site ← first_item (PolyInfo.FindingSite p);
       ft ← index finding_type 2;
       fs ← index finding_site 2;
       Ok {| row_tracking_identifier := PolyInfo.TrackingIdentifier p;
             row_finding_type := ft;
             row_finding_site := fs;
             row_polyline := PolyInfo.polyline p;
             row_width := PolyInfo.width p;
             row_height := PolyInfo.height p;
             row_center := (PolyInfo.center_x p, PolyInfo.center_y p,
                            PolyInfo.center_z p) |})
    poly_infos.

(** [reference_type.value == "111030" and ...]: the properties [value],
    [scheme_designator] and [meaning]. *)
Definition is_image_region (reference_type : hd.CodedConcept) : bool :=
  String.eqb (hd.value reference_type) "111030"
  && String.eqb (hd.scheme_designator reference_type) "DCM"
  && String.eqb (hd.meaning reference_type) "Image Region".

(** [roi.ContentSequence[0].referenced_sop_instance_uid] *)
Definition roi_referenced_sop_instance_uid (roi : option hd.ImageRegion)
    : result string :=
  r ← getattr roi;
  cs ← getattr (hd.ContentSequence r);
  source ← first_item cs;
  getattr (hd.referenced_sop_instance_uid source).

(** [[c.CodeValue, c.CodingSchemeDesignator, c.CodeMeaning]] *)
Definition coded_triple (c : hd.CodedConcept) : result (list string) :=
  code_value ← hd.CodeValue c;
  Ok [code_value; hd.CodingSchemeDesignator c; hd.CodeMeaning c].

(** A turn of [for finding_site in group.finding_sites]: a site with a
    non-empty concept code sequence is appended. *)
Definition finding_site_turn (finding_site : hd.FindingSite)
    (finding_sites : list (list string)) : result (list (list string)) :=
  match hd.ConceptCodeSequence finding_site with
  | Some (c :: _) =>
      triple ← coded_triple c;
      Ok (finding_sites ++ [triple])%list
  | _ => Ok finding_sites
  end.

Definition collect_finding_sites (sites : list hd.FindingSite)
    : result (list (list string)) :=
  for_result sites finding_site_turn [].

(** The body of [if (roi.GraphicType=="POLYLINE")]. *)
Definition polyline_branch (db : Database)
    (referenced_series_instance_uid : string) (r : hd.ImageRegion)
    (vars : Bbox.Locals) : M Bbox.Locals :=
  let bbox := hd.GraphicData r in
  _ ← lift (getattr (hd.PixelOriginInterpretation r));
  e ← lift (Bbox.extent bbox);
  uid ← lift (read_local (Bbox.referenced_sop_instance_uid vars));
  ipp ← lift (getIPPFromSOP db uid referenced_series_instance_uid);
  center_z ← lift (index ipp 2);
  mret {| Bbox.referenced_sop_instance_uid := Bbox.referenced_sop_instance_uid vars;
          Bbox.bbox := Some bbox;
          Bbox.l_width := Some (Bbox.width e);
          Bbox.l_height := Some (Bbox.height e);
          Bbox.l_center_x := Some (Bbox.center_x e);
          Bbox.l_center_y := Some (Bbox.center_y e);
          Bbox.center_z := Some center_z |}.

(** What follows the [try] statement inside the Image Region branch. *)
Definition after_try (db : Database) (referenced_series_instance_uid : string)
    (roi : option hd.ImageRegion) (vars : Bbox.Locals) : M Bbox.Locals :=
  r ← lift (getattr roi);
  if String.eqb (hd.GraphicType r) "POLYLINE"
  then polyline_branch db referenced_series_instance_uid r vars
  else mret vars.

(** The body of [if (group.reference_type ... "Image Region")]: the [try]
    with its bare [except], then the POLYLINE test. *)
Definition image_region_branch (db : Database)
    (referenced_series_instance_uid : string) (roi : option hd.ImageRegion)
    (vars : Bbox.Locals) : M Bbox.Locals :=
  vars ← match roi_referenced_sop_instance_uid roi with
          | Ok uid =>
              mret {| Bbox.referenced_sop_instance_uid := Some uid;
                      Bbox.bbox := Bbox.bbox vars;
                      Bbox.l_width := Bbox.l_width vars;
                      Bbox.l_height := Bbox.l_height vars;
                      Bbox.l_center_x := Bbox.l_center_x vars;
                      Bbox.l_center_y := Bbox.l_center_y vars;
                      Bbox.center_z := Bbox.center_z vars |}
          | Raise _ =>
              _ ← print "Cannot access referenced SOPInstanceUID"; mret vars
          end;
  after_try db referenced_series_instance_uid roi vars.

(** [poly_infos.append({...})]: the dictionary display reads the variables
    in the order of its keys. *)
Definition make_poly_info (group : hd.Group) (finding_type : list string)
    (finding_sites : list (list string)) (vars : Bbox.Locals)
    : result PolyInfo.t :=
  uid ← read_local (Bbox.referenced_sop_instance_uid vars);
  bbox ← read_local (Bbox.bbox vars);
  b0 ← index bbox 0; b1 ← index bbox 1; b2 ← index bbox 2; b3 ← index bbox 3;
  b4 ← index bbox 4; b5 ← index bbox 5; b6 ← index bbox 6; b7 ← index bbox 7;
  width ← read_local (Bbox.l_width vars);
  height ← read_local (Bbox.l_height vars);
  center_x ← read_local (Bbox.l_center_x vars);
  center_y ← read_local (Bbox.l_center_y vars);
  center_z ← read_local (Bbox.center_z vars);
  Ok {| PolyInfo.TrackingIdentifier := hd.tracking_identifier group;
        PolyInfo.TrackingUID := hd.tracking_uid group;
        PolyInfo.SOPInstanceUID := uid;
        PolyInfo.FindingType := finding_type;
        PolyInfo.FindingSite := finding_sites;
        PolyInfo.polyline := [[b0; b1]; [b2; b3]; [b4; b5]; [b6; b7]];
        PolyInfo.width := width;
        PolyInfo.height := height;
        PolyInfo.center_x := (- center_x)%Q;
        PolyInfo.center_y := (- center_y)%Q;
        PolyInfo.center_z := center_z |}.

(** The state carried through [for group in groups]: the local variables,
    [poly_infos] and [tableNode]. *)
Definition BboxState : Type :=
  Bbox.Locals * list PolyInfo.t * option (list BboxRow).

Definition bbox_group_body (db : Database)
    (referenced_series_instance_uid : string) (group : hd.Group)
    (st : BboxState) : M BboxState :=
  let '(vars, poly_infos, _) := st in
  ft ← lift (getattr (hd.finding_type group));
  finding_type ← lift (coded_triple ft);
  finding_sites ← lift (collect_finding_sites (hd.finding_sites group));
  vars ← (if is_image_region (hd.reference_type group)
           then image_region_branch db referenced_series_instance_uid
                  (hd.roi group) vars
           else mret vars);
  p ← lift (make_poly_info group finding_type finding_sites vars);
  let poly_infos := (poly_infos ++ [p])%list in
  tableNode ← lift (createBboxTable poly_infos);
  mret (vars, poly_infos, Some tableNode).

Definition extractBboxMetadataToVtkTableNode (db : Database) (sr : hd.SR)
    : M (list PolyInfo.t * list BboxRow) :=
  evidence ← lift (getattr (hd.CurrentRequestedProcedureEvidenceSequence sr));
  e0 ← lift (first_item evidence);
  series ← lift (getattr (Evidence.ReferencedSeriesSequence e0));
  s0 ← lift (first_item series);
  referenced_series_instance_uid ← lift (getattr (Evidence.SeriesInstanceUID s0));
  st ← for_ (hd.planar_roi_measurement_groups sr)
         (bbox_group_body db referenced_series_instance_uid)
         (Bbox.unbound, [], None);
  let '(_, poly_infos, tableNode) := st in
  tableNode ← lift (read_local tableNode);
  mret (poly_infos, tableNode).

(** ** [loadAdditionalMeasurements] *)

(** One-dimensional numpy arrays of float64.  A binary operation works
    element by element on arrays of equal length and stretches an array of
    length one; other shapes do not broadcast.  The operations on the
    elements are those of binary64, each rounded to nearest. *)
Definition np_binop (f : float -> float -> float) (a b : list float)
    : result (list float) :=
  if (length a =? length b)%nat then Ok (zip_with f a b)
  else match a, b with
       | [x], _ => Ok (f x <$> b)
       | _, [y] => Ok ((fun x => f x y) <$> a)
       | _, _ => Raise ValueError
       end.

Definition np_add : list float -> list float -> result (list float) :=
  np_binop PrimFloat.add.
Definition np_mul : list float -> list float -> result (list float) :=
  np_binop PrimFloat.mul.

(** [c * v] and [v *= c] for a scalar [c] *)
Definition np_scale (c : float) (v : list float) : list float :=
  PrimFloat.mul c <$> v.
Definition np_imul (v : list float) (c : float) : list float :=
  (fun x => (x * c)%float) <$> v.

(** [numpy.array([-1,-1,1])]: an array of integers, which the product with
    an array of float64 converts to float64. *)
Definition lpsToRAS : list float := [-1; -1; 1]%float.

(** [origin + col * alongColumnVector + row * alongRowVector] *)
Definition image_to_patient (origin alongColumnVector alongRowVector : list float)
    (col row : float) : result (list float) :=
  along_columns ← np_add origin (np_scale col alongColumnVector);
  np_add along_columns (np_scale row alongRowVector).

(** The lines from [origin = ...] to [alongRowVector *= ...]: the origin
    and the two scaled vectors. *)
Definition image_axes (reference : Image.Dataset)
    : result (list float * list float * list float) :=
  origin ← getattr (Image.ImagePositionPatient reference);
  orientation ← getattr (Image.ImageOrientationPatient reference);
  let alongColumnVector := take 3 orientation in
  orientation ← getattr (Image.ImageOrientationPatient reference);
  let alongRowVector := drop 3 orientation in
  spacing ← getattr (Image.PixelSpacing reference);
  spacing1 ← index spacing 1;
  let alongColumnVector := np_imul alongColumnVector spacing1 in
  spacing ← getattr (Image.PixelSpacing reference);
  spacing0 ← index spacing 0;
  let alongRowVector := np_imul alongRowVector spacing0 in
  Ok (origin, alongColumnVector, alongRowVector).

(** The two ends of a ruler in patient coordinates, before the sign flip:
    the lines from [origin = ...] to the computation of [p1] and [p2],
    without the final [* lpsToRAS]. *)
Definition ruler_points (reference : Image.Dataset) (polyline : list float)
    : result (list float * list float) :=
  axes ← image_axes reference;
  let '(origin, alongColumnVector, alongRowVector) := axes in
  match polyline with
  | [col1; row1; col2; row2] =>
      P1 ← image_to_patient origin alongColumnVector alongRowVector col1 row1;
      P2 ← image_to_patient origin alongColumnVector alongRowVector col2 row2;
      Ok (P1, P2)
  | _ => Raise ValueError
  end.

(** [p1] and [p2] as the code computes them, with the flip; the flip of
    [p1] is evaluated before [p2] is started. *)
Definition ruler_control_points (reference : Image.Dataset)
    (polyline : list float) : result (list float * list float) :=
  axes ← image_axes reference;
  let '(origin, alongColumnVector, alongRowVector) := axes in
  match polyline with
  | [col1; row1; col2; row2] =>
      P1 ← image_to_patient origin alongColumnVector alongRowVector col1 row1;
      p1 ← np_mul P1 lpsToRAS;
      P2 ← image_to_patient origin alongColumnVector alongRowVector col2 row2;
      p2 ← np_mul P2 lpsToRAS;
      Ok (p1, p2)
  | _ => Raise ValueError
  end.

(** A [measurement] dictionary: a key that was never set is [None]. *)
Record Measurement := {
  trackingIdentifier : option string;
  trackingUniqueIdentifier : option string;
  findingSite : option string;
  polyline : option (list float);
  referencedSOPInstanceUID : option string
}.

Definition empty_measurement : Measurement :=
  {| trackingIdentifier := None; trackingUniqueIdentifier := None;
     findingSite := None; polyline := None; referencedSOPInstanceUID := None |}.

(** The [contents] dictionary. *)
Record Contents := {
  personObserver : option string;
  measurements : list Measurement
}.

(** [d[key]] for a key of a dictionary kept as a record of options *)
Definition getkey {A} (v : option A) : result A :=
  match v with
  | Some a => Ok a
  | None => Raise KeyError
  end.

(** [for reference in selectionItem.ReferencedSOPSequence] *)
Definition reference_turn (reference : ReferencedSOP) (m : Measurement)
    : M Measurement :=
  uid ← lift (getattr (ReferencedSOPInstanceUID reference));
  let m := {| trackingIdentifier := trackingIdentifier m;
              trackingUniqueIdentifier := trackingUniqueIdentifier m;
              findingSite := findingSite m;
              polyline := polyline m;
              referencedSOPInstanceUID := Some uid |} in
  match ReferencedFrameNumber reference with
  | Some frame =>
      if negb (String.eqb frame "1")
      then _ ← print "Error - only single frame references supported"; mret m
      else mret m
  | None => mret m
  end.

(** [for selectionItem in lengthItem.ContentSequence] *)
Definition selection_turn (selectionItem : ContentItem) (m : Measurement)
    : M Measurement :=
  relationship ← lift (getattr (RelationshipType selectionItem));
  if String.eqb relationship "SELECTED FROM" then
    references ← lift (getattr (ReferencedSOPSequence selectionItem));
    for_ references reference_turn m
  else mret m.

(** [for lengthItem in measurementItem.ContentSequence] *)
Definition length_turn (lengthItem : ContentItem) (m : Measurement)
    : M Measurement :=
  graphic ← lift (getattr (GraphicData lengthItem));
  let m := {| trackingIdentifier := trackingIdentifier m;
              trackingUniqueIdentifier := trackingUniqueIdentifier m;
              findingSite := findingSite m;
              polyline := Some graphic;
              referencedSOPInstanceUID := referencedSOPInstanceUID m |} in
  selections ← lift (getattr (ContentSequence lengthItem));
  for_ selections selection_turn m.

(** [for measurementItem in contentItem.ContentSequence] *)
Definition measurementItem_turn (measurementItem : ContentItem)
    (m : Measurement) : M Measurement :=
  c ← lift (isConcept measurementItem "trackingIdentifier");
  m ← (if c : bool then
         text ← lift (getattr (TextValue measurementItem));
         mret {| trackingIdentifier := Some text;
                 trackingUniqueIdentifier := trackingUniqueIdentifier m;
                 findingSite := findingSite m;
                 polyline := polyline m;
                 referencedSOPInstanceUID := referencedSOPInstanceUID m |}
       else mret m);
  c ← lift (isConcept measurementItem "trackingUniqueIdentifier");
  m ← (if c : bool then
         uid ← lift (getattr (UID measurementItem));
         mret {| trackingIdentifier := trackingIdentifier m;
                 trackingUniqueIdentifier := Some uid;
                 findingSite := findingSite m;
                 polyline := polyline m;
                 referencedSOPInstanceUID := referencedSOPInstanceUID m |}
       else mret m);
  c ← lift (isConcept measurementItem "findingSite");
  m ← (if c : bool then
         codes ← lift (getattr (ConceptCodeSequence measurementItem));
         code ← lift (first_item codes);
         site ← lift (getattr (CodeMeaning code));
         mret {| trackingIdentifier := trackingIdentifier m;
                 trackingUniqueIdentifier := trackingUniqueIdentifier m;
                 findingSite := Some site;
                 polyline := polyline m;
                 referencedSOPInstanceUID := referencedSOPInstanceUID m |}
       else mret m);
  c ← lift (isConcept measurementItem "length");
  if c : bool then
    lengthItems ← lift (getattr (ContentSequence measurementItem));
    for_ lengthItems length_turn m
  else mret m.

(** [for contentItem in item.ContentSequence] *)
Definition contentItem_turn (contentItem : ContentItem)
    (measurements : list Measurement) : M (list Measurement) :=
  c ← lift (isConcept contentItem "measurementGroup");
  if c : bool then
    measurementItems ← lift (getattr (ContentSequence contentItem));
    measurement ← for_ measurementItems measurementItem_turn empty_measurement;
    mret (measurements ++ [measurement])%list
  else mret measurements.

(** [for item in sr.ContentSequence] *)
Definition item_turn (item : ContentItem) (contents : Contents) : M Contents :=
  c ← lift (isConcept item "personObserver");
  contents ← (if c : bool then
                observer ← lift (getattr (PersonName item));
                mret {| personObserver := Some observer;
                        measurements := measurements contents |}
              else mret contents);
  c ← lift (isConcept item "imagingMeasurements");
  if c : bool then
    contentItems ← lift (getattr (ContentSequence item));
    measurements ← for_ contentItems contentItem_turn (measurements contents);
    mret {| personObserver := personObserver contents;
            measurements := measurements |}
  else mret contents.

(** Scene operations on the markups line nodes. *)
Definition AddNewNodeByClass : M unit := fun w =>
  ({| stdout := stdout w; warnings := warnings w;
      markups := (markups w ++ [{| node_name := ""; control_points := [] |}])%list |},
   Ok tt).

(** Applies [f] to the node added last (the [markupsNode] of the turn). *)
Definition on_markupsNode (f : LineNode -> LineNode) : M unit := fun w =>
  ({| stdout := stdout w; warnings := warnings w;
      markups := match reverse (markups w) with
                 | node :: before => (reverse before ++ [f node])%list
                 | [] => []
                 end |}, Ok tt).

Definition SetName (n : string) : M unit :=
  on_markupsNode (fun node =>
    {| node_name := n; control_points := control_points node |}).

Definition AddControlPoint (p : list float) : M unit :=
  on_markupsNode (fun node =>
    {| node_name := node_name node;
       control_points := (control_points node ++ [p])%list |}).

Definition not_found_message (uid : string) : string :=
  "Referenced image is not found in the database (referencedSOPInstanceUID="
  ++ uid ++ "). Polyline point positions cannot be determined in 3D.".

(** A turn of [for measurement in contents['measurements']].  Subject
    hierarchy, locking and colour of the node are presentation and are left
    out. *)
Definition place_ruler (db : Database) (contents : Contents)
    (measurement : Measurement) (_ : unit) : M unit :=
  match polyline measurement with
  | None => mret tt
  | Some points =>
      _ ← AddNewNodeByClass;
      observer ← lift (getkey (personObserver contents));
      _ ← SetName observer;
      uid ← lift (getkey (referencedSOPInstanceUID measurement));
      let referenceFilePath := fileForInstance db uid in
      if String.eqb referenceFilePath "" then
        lift (Raise (Exception_ (not_found_message uid)))
      else
        let reference := read_file db referenceFilePath in
        '(p1, p2) ← lift (ruler_control_points reference points);
        _ ← AddControlPoint p1;
        AddControlPoint p2
  end.

(** [sr] is the report as read from the file of [srUID].  The result is
    what the function returns: the report itself when it is not an imaging
    measurement report, nothing otherwise. *)
Definition loadAdditionalMeasurements (db : Database) (sr : ContentItem)
    : M (option ContentItem) :=
  c ← lift (isConcept sr "imagingMeasurementReport");
  if negb c then mret (Some sr)
  else
    items ← lift (getattr (ContentSequence sr));
    contents ← for_ items item_turn {| personObserver := None; measurements := [] |};
    _ ← for_ (measurements contents) (place_ruler db contents) tt;
    mret None.

(** ** [createLoadableAndAddReferences] *)

(** A dictionary whose keys are visited in insertion order. *)
Definition odict (V : Type) : Type := list (string * V).

Fixpoint odict_get {V} (d : odict V) (key : string) : result V :=
  match d with
  | [] => Raise KeyError
  | (k, v) :: d' => if String.eqb k key then Ok v else odict_get d' key
  end.

(** [d[key] = v]: an existing key keeps its place. *)
Fixpoint odict_set {V} (d : odict V) (key : string) (v : V) : odict V :=
  match d with
  | [] => [(key, v)]
  | (k, v') :: d' =>
      if String.eqb k key then (k, v) :: d' else (k, v') :: odict_set d' key v
  end.

(** [d[key].append(x)]; the key is present wherever the plugin does this. *)
Definition odict_append (d : odict (list string)) (key x : string)
    : odict (list string) :=
  match odict_get d key with
  | Ok l => odict_set d key (l ++ [x])%list
  | Raise _ => d
  end.

Record Loadable := {
  referencedSegInstanceUIDs : list string;
  ReferencedSegmentationInstanceUIDs : odict (list string);
  ReferencedRWVMSeriesInstanceUIDs : list string;
  ReferencedOtherInstanceUIDs : list string;
  referencedInstanceUIDs : list string
}.

Definition new_loadable : Loadable :=
  {| referencedSegInstanceUIDs := [];
     ReferencedSegmentationInstanceUIDs := [];
     ReferencedRWVMSeriesInstanceUIDs := [];
     ReferencedOtherInstanceUIDs := [];
     referencedInstanceUIDs := [] |}.

Definition with_segmentations (f : odict (list string) -> odict (list string))
    (l : Loadable) : Loadable :=
  {| referencedSegInstanceUIDs := referencedSegInstanceUIDs l;
     ReferencedSegmentationInstanceUIDs := f (ReferencedSegmentationInstanceUIDs l);
     ReferencedRWVMSeriesInstanceUIDs := ReferencedRWVMSeriesInstanceUIDs l;
     ReferencedOtherInstanceUIDs := ReferencedOtherInstanceUIDs l;
     referencedInstanceUIDs := referencedInstanceUIDs l |}.

Definition with_rwvm (f : list string -> list string) (l : Loadable) : Loadable :=
  {| referencedSegInstanceUIDs := referencedSegInstanceUIDs l;
     ReferencedSegmentationInstanceUIDs := ReferencedSegmentationInstanceUIDs l;
     ReferencedRWVMSeriesInstanceUIDs := f (ReferencedRWVMSeriesInstanceUIDs l);
     ReferencedOtherInstanceUIDs := ReferencedOtherInstanceUIDs l;
     referencedInstanceUIDs := referencedInstanceUIDs l |}.

Definition with_other (f : list string -> list string) (l : Loadable) : Loadable :=
  {| referencedSegInstanceUIDs := referencedSegInstanceUIDs l;
     ReferencedSegmentationInstanceUIDs := ReferencedSegmentationInstanceUIDs l;
     ReferencedRWVMSeriesInstanceUIDs := ReferencedRWVMSeriesInstanceUIDs l;
     ReferencedOtherInstanceUIDs := f (ReferencedOtherInstanceUIDs l);
     referencedInstanceUIDs := referencedInstanceUIDs l |}.

Definition with_instances (f : list string -> list string) (l : Loadable) : Loadable :=
  {| referencedSegInstanceUIDs := referencedSegInstanceUIDs l;
     ReferencedSegmentationInstanceUIDs := ReferencedSegmentationInstanceUIDs l;
     ReferencedRWVMSeriesInstanceUIDs := ReferencedRWVMSeriesInstanceUIDs l;
     ReferencedOtherInstanceUIDs := ReferencedOtherInstanceUIDs l;
     referencedInstanceUIDs := f (referencedInstanceUIDs l) |}.

Definition with_seg_instances (f : list string -> list string) (l : Loadable) : Loadable :=
  {| referencedSegInstanceUIDs := f (referencedSegInstanceUIDs l);
     ReferencedSegmentationInstanceUIDs := ReferencedSegmentationInstanceUIDs l;
     ReferencedRWVMSeriesInstanceUIDs := ReferencedRWVMSeriesInstanceUIDs l;
     ReferencedOtherInstanceUIDs := ReferencedOtherInstanceUIDs l;
     referencedInstanceUIDs := referencedInstanceUIDs l |}.

(** The string that [getDICOMValue] returns for a string-valued tag. *)
Definition getDICOMString (dataset : Dataset) (tagName : string) : string :=
  match getDICOMValue dataset tagName (PStr "") with
  | PStr s => s
  | PSeq _ => ""
  end.

(** A turn of
    [for refSOPSequence in referencedSeriesSequence.ReferencedSOPSequence]. *)
Definition classify_reference (uid : string)
    (referencedSeriesSequence : Evidence.ReferencedSeries)
    (refSOPSequence : ReferencedSOP) (loadable : Loadable) : result Loadable :=
  class ← getattr (ReferencedSOPClassUID refSOPSequence);
  if String.eqb class UID_SegmentationStorage then
    series ← getattr (Evidence.SeriesInstanceUID referencedSeriesSequence);
    Ok (with_segmentations (fun d => odict_append d uid series) loadable)
  else
    class ← getattr (ReferencedSOPClassUID refSOPSequence);
    if String.eqb class UID_RealWorldValueMappingStorage then
      series ← getattr (Evidence.SeriesInstanceUID referencedSeriesSequence);
      Ok (with_rwvm (fun l => l ++ [series])%list loadable)
    else
      instance ← getattr (ReferencedSOPInstanceUID refSOPSequence);
      Ok (with_other (fun l => l ++ [instance])%list loadable).

(** A turn of
    [for referencedSeriesSequence in refSeriesSequence.ReferencedSeriesSequence]. *)
Definition series_turn (uid : string)
    (referencedSeriesSequence : Evidence.ReferencedSeries)
    (loadable : Loadable) : result Loadable :=
  references ← getattr (Evidence.ReferencedSOPSequence referencedSeriesSequence);
  for_result references (classify_reference uid referencedSeriesSequence)
    loadable.

(** A turn of
    [for refSeriesSequence in dataset.CurrentRequestedProcedureEvidenceSequence]. *)
Definition evidence_turn (uid : string) (refSeriesSequence : Evidence.Item)
    (loadable : Loadable) : result Loadable :=
  series ← getattr (Evidence.ReferencedSeriesSequence refSeriesSequence);
  for_result series (series_turn uid) loadable.

(** The three nested loops over the evidence sequence. *)
Definition scan_evidence (uid : string) (evidence : list Evidence.Item)
    (loadable : Loadable) : result Loadable :=
  for_result evidence (evidence_turn uid) loadable.

(** [set(l)] as a list; the order Python gives it is not specified. *)
Definition list_set (l : list string) : list string :=
  elements (list_to_set l : gset string).

Section Segmentations.
(** The database, and [segPlugin.examine] on the files of one series: the
    [referencedInstanceUIDs] of each loadable it finds. *)
Variable db : Database.
Variable segPlugin_examine : list string -> list (list string).

(** A turn of [for dataset in datasets]; the state is the loadable with
    the loop variable [uid], which stays bound after the loop. *)
Definition dataset_turn (dataset : Dataset) (st : Loadable * option string)
    : result (Loadable * option string) :=
  let loadable := st.1 in
  let uid := getDICOMString dataset "SOPInstanceUID" in
  let loadable := with_segmentations (fun d => odict_set d uid []) loadable in
  loadable ←
    match CurrentRequestedProcedureEvidenceSequence dataset with
    | Some evidence => scan_evidence uid evidence loadable
    | None => Ok loadable
    end;
  let segSeries :=
    match odict_get (ReferencedSegmentationInstanceUIDs loadable) uid with
    | Ok l => l
    | Raise _ => []
    end in
  let loadable :=
    foldl (fun loadable segSeriesInstanceUID =>
             foldl (fun loadable segLoadable =>
                      with_instances (fun l => l ++ segLoadable)%list loadable)
                   loadable
                   (segPlugin_examine (filesForSeries db segSeriesInstanceUID)))
          loadable segSeries in
  Ok (loadable, Some uid).

Definition createLoadableAndAddReferences (datasets : list Dataset)
    : M Loadable :=
  st ← lift (for_result datasets dataset_turn (new_loadable, None));
  let '(loadable, uid) := st in
  let loadable := with_instances list_set loadable in
  uid ← lift (read_local uid);
  segs ← lift (odict_get (ReferencedSegmentationInstanceUIDs loadable) uid);
  _ ← (if (1 <? length segs)%nat
       then logging_warning "SR references more than one SEG. This has not been tested!"
       else mret tt);
  let loadable :=
    foldl (fun loadable segUID =>
             with_seg_instances (fun l => l ++ [segUID.1])%list loadable)
          loadable (ReferencedSegmentationInstanceUIDs loadable) in
  _ ← (if (1 <? length (ReferencedRWVMSeriesInstanceUIDs loadable))%nat
       then logging_warning "SR references more than one RWVM. This has not been tested!"
       else mret tt);
  mret loadable.
End Segmentations.

(** ** [getDateTime] and [sortReportsByDateTime] *)

Record datetime := {
  year : nat; month : nat; day : nat;
  hour : nat; minute : nat; second : nat
}.

(** [datetime.datetime.strptime(s, '%Y%m%d%H%M%S')], after the standard
    library: the format becomes a regular expression, one group per
    directive, that is matched at the start of the string with
    backtracking; the first match must use up the string, and the fields
    must make a date that exists.  Each directive below lists the ways its
    group can match, in the order the expression tries them. *)
Definition digit (c : ascii) : option nat :=
  let n := nat_of_ascii c in
  if ((48 <=? n) && (n <=? 57))%nat then Some (n - 48)%nat else None.

Definition two_digits (ok : nat -> nat -> bool) (s : list ascii)
    : list (nat * list ascii) :=
  match s with
  | a :: b :: rest =>
      match digit a, digit b with
      | Some x, Some y => if ok x y then [((10 * x + y)%nat, rest)] else []
      | _, _ => []
      end
  | _ => []
  end.

Definition one_digit (ok : nat -> bool) (s : list ascii)
    : list (nat * list ascii) :=
  match s with
  | a :: rest =>
      match digit a with
      | Some x => if ok x then [(x, rest)] else []
      | None => []
      end
  | [] => []
  end.

(** [%Y]: four digits *)
Definition directive_Y (s : list ascii) : list (nat * list ascii) :=
  match s with
  | a :: b :: c :: d :: rest =>
      match digit a, digit b, digit c, digit d with
      | Some x, Some y, Some z, Some t =>
          [((1000 * x + 100 * y + 10 * z + t)%nat, rest)]
      | _, _, _, _ => []
      end
  | _ => []
  end.

(** [%m]: [1[0-2]|0[1-9]|[1-9]] *)
Definition directive_m (s : list ascii) : list (nat * list ascii) :=
  (two_digits (fun x y => (x =? 1) && (y <=? 2))%nat s
   ++ two_digits (fun x y => (x =? 0) && (1 <=? y))%nat s
   ++ one_digit (fun x => 1 <=? x)%nat s)%list.

(** [%d]: [3[0-1]|[1-2]\d|0[1-9]|[1-9]| [1-9]] *)
Definition directive_d (s : list ascii) : list (nat * list ascii) :=
  (two_digits (fun x y => (x =? 3) && (y <=? 1))%nat s
   ++ two_digits (fun x _ => (1 <=? x) && (x <=? 2))%nat s
   ++ two_digits (fun x y => (x =? 0) && (1 <=? y))%nat s
   ++ one_digit (fun x => 1 <=? x)%nat s
   ++ match s with
      | " "%char :: rest => one_digit (fun x => 1 <=? x)%nat rest
      | _ => []
      end)%list.

(** [%H]: [2[0-3]|[0-1]\d|\d] *)
Definition directive_H (s : list ascii) : list (nat * list ascii) :=
  (two_digits (fun x y => (x =? 2) && (y <=? 3))%nat s
   ++ two_digits (fun x _ => x <=? 1)%nat s
   ++ one_digit (fun _ => true) s)%list.

(** [%M]: [[0-5]\d|\d] *)
Definition directive_M (s : list ascii) : list (nat * list ascii) :=
  (two_digits (fun x _ => x <=? 5)%nat s ++ one_digit (fun _ => true) s)%list.

(** [%S]: [6[0-1]|[0-5]\d|\d] *)
Definition directive_S (s : list ascii) : list (nat * list ascii) :=
  (two_digits (fun x y => (x =? 6) && (y <=? 1))%nat s
   ++ two_digits (fun x _ => x <=? 5)%nat s
   ++ one_digit (fun _ => true) s)%list.

(** Every way the whole expression matches a prefix, first match first. *)
Definition format_matches (s : list ascii) : list (datetime * list ascii) :=
  '(years, s) ← directive_Y s;
  '(months, s) ← directive_m s;
  '(days, s) ← directive_d s;
  '(hours, s) ← directive_H s;
  '(minutes, s) ← directive_M s;
  '(seconds, s) ← directive_S s;
  [({| year := years; month := months; day := days;
       hour := hours; minute := minutes; second := seconds |}, s)].

Definition is_leap (y : nat) : bool :=
  ((y mod 4 =? 0) && (negb (y mod 100 =? 0) || (y mod 400 =? 0)))%nat.

Definition days_in_month (y m : nat) : nat :=
  match m with
  | 2 => if is_leap y then 29 else 28
  | 4 | 6 | 9 | 11 => 30
  | _ => 31
  end%nat.

(** What the [datetime] constructor accepts among the values the
    expression can deliver. *)
Definition valid_datetime (t : datetime) : bool :=
  ((1 <=? year t) && (1 <=? month t) && (month t <=? 12)
   && (1 <=? day t) && (day t <=? days_in_month (year t) (month t))
   && (hour t <=? 23) && (minute t <=? 59) && (second t <=? 59))%nat.

Definition strptime (s : string) : result datetime :=
  match format_matches (list_ascii_of_string s) with
  | [] => Raise ValueError
  | (t, rest) :: _ =>
      match rest with
      | [] => if valid_datetime t then Ok t else Raise ValueError
      | _ :: _ => Raise ValueError
      end
  end.

(** What [getDateTime] returns: a [datetime], or the empty string. *)
Inductive timestamp : Type :=
| Empty
| At (t : datetime).

Definition is_ValueError (e : exn) : bool :=
  match e with
  | ValueError => true
  | _ => false
  end.

(** [a < b] on datetimes: the fields are compared from the year down. *)
Definition fields (t : datetime) : list nat :=
  [year t; month t; day t; hour t; minute t; second t].

Fixpoint lex_ltb (x y : list nat) : bool :=
  match x, y with
  | u :: x', v :: y' => (u <? v)%nat || ((u =? v)%nat && lex_ltb x' y')
  | _, _ => false
  end.

Definition datetime_ltb (a b : datetime) : bool :=
  lex_ltb (fields a) (fields b).

(** [a < b] on keys: two empty strings and two datetimes compare; a string
    and a datetime do not. *)
Definition timestamp_lt (a b : timestamp) : result bool :=
  match a, b with
  | Empty, Empty => Ok false
  | At x, At y => Ok (datetime_ltb x y)
  | _, _ => Raise TypeError
  end.

(** [sorted(l, key=...)] on already computed keys: a stable sort that uses
    only [<] on the keys and stops at the first comparison that raises.
    The built-in sort makes other comparisons in another order; it returns
    the same list when none raises, and like every comparison sort it has
    to compare a string key with a datetime key as soon as both occur. *)
Fixpoint insert_by_key {A} (x : timestamp * A) (l : list (timestamp * A))
    : result (list (timestamp * A)) :=
  match l with
  | [] => Ok [x]
  | y :: l' =>
      before ← timestamp_lt y.1 x.1;
      if before : bool then l'' ← insert_by_key x l'; Ok (y :: l'')
      else Ok (x :: y :: l')
  end.

Fixpoint sort_by_key {A} (l : list (timestamp * A))
    : result (list (timestamp * A)) :=
  match l with
  | [] => Ok []
  | x :: l' => sorted_rest ← sort_by_key l'; insert_by_key x sorted_rest
  end.

Section Reports.
(** [pydicom.read_file(slicer.dicomDatabase.fileForInstance(uid))] *)
Variable read_report : string -> Dataset.

Definition getDateTime (uid : string) : result timestamp :=
  let dataset := read_report uid in
  let '(date, time) :=
    match SeriesDate dataset, SeriesTime dataset with
    | Some series_date, Some series_time => (series_date, series_time)
    | _, _ =>
        match StudyDate dataset, StudyTime dataset with
        | Some study_date, Some _ => (study_date, study_date)
        | _, _ => ("", "")
        end
    end in
  try_except
    match strptime (date ++ time) with
    | Ok dateTime => Ok (At dateTime)
    | Raise e => Raise e
    end
    is_ValueError (Ok Empty).

(** [sorted(uids, key=...)]: the keys are computed first, one call per
    uid in list order, then the list is sorted on them. *)
Fixpoint keyed (uids : list string) : result (list (timestamp * string)) :=
  match uids with
  | [] => Ok []
  | uid :: rest =>
      match getDateTime uid with
      | Ok key =>
          match keyed rest with
          | Ok pairs => Ok ((key, uid) :: pairs)
          | Raise e => Raise e
          end
      | Raise e => Raise e
      end
  end.

Definition sortReportsByDateTime (uids : list string) : result (list string) :=
  match keyed uids with
  | Ok pairs =>
      match sort_by_key pairs with
      | Ok sorted_pairs => Ok (map snd sorted_pairs)
      | Raise e => Raise e
      end
  | Raise e => Raise e
  end.

(** The key as the specification words it: series date and time when both
    are present, otherwise study date and study time when both are
    present, parsed with the same pattern. *)
Definition specified_key (uid : string) : timestamp :=
  let dataset := read_report uid in
  let text :=
    match SeriesDate dataset, SeriesTime dataset with
    | Some series_date, Some series_time => series_date ++ series_time
    | _, _ =>
        match StudyDate dataset, StudyTime dataset with
        | Some study_date, Some study_time => study_date ++ study_time
        | _, _ => ""
        end
    end in
  match strptime text with
  | Ok t => At t
  | Raise _ => Empty
  end.
End Reports.

(** ** Definitions used to state the properties *)

(** Whether an optional attribute is there. *)
Definition present {A} (attr : option A) : bool :=
  match attr with
  | Some _ => true
  | None => false
  end.

(** Whether a group carries an Image Region ROI of graphic type POLYLINE. *)
Definition has_polyline_roi (group : hd.Group) : bool :=
  is_image_region (hd.reference_type group)
  && match hd.roi group with
     | Some r => String.eqb (hd.GraphicType r) "POLYLINE"
     | None => false
     end.

(** The local variables that hold geometry. *)
Definition geometry_locals (vars : Bbox.Locals) :=
  (Bbox.bbox vars, Bbox.l_width vars, Bbox.l_height vars,
   Bbox.l_center_x vars, Bbox.l_center_y vars, Bbox.center_z vars).

(** The evidence sequence names a first series, so that the first statement
    of the extraction succeeds. *)
Definition names_a_series (sr : hd.SR) : bool :=
  match hd.CurrentRequestedProcedureEvidenceSequence sr with
  | Some (e0 :: _) =>
      match Evidence.ReferencedSeriesSequence e0 with
      | Some (s0 :: _) => present (Evidence.SeriesInstanceUID s0)
      | _ => false
      end
  | _ => false
  end.

(** Whether a coded concept has the attribute [CodeValue]. *)
Definition has_CodeValue (c : hd.CodedConcept) : bool :=
  match hd.keyword c with
  | hd.InCodeValue => true
  | _ => false
  end.

(** The three strings that are read off a coded concept with
    [CodeValue]. *)
Definition triple_of (c : hd.CodedConcept) : list string :=
  [hd.value c; hd.scheme_designator c; hd.meaning c].

(** Whether the finding type and the finding sites of a group can be read:
    the group has a finding type, and the finding type and the first code
    of every finding site have the attribute [CodeValue]. *)
Definition site_readable (site : hd.FindingSite) : bool :=
  match hd.ConceptCodeSequence site with
  | Some (c :: _) => has_CodeValue c
  | _ => true
  end.

Definition findings_readable (group : hd.Group) : bool :=
  match hd.finding_type group with
  | Some ft => has_CodeValue ft
  | None => false
  end
  && forallb site_readable (hd.finding_sites group).

(** Whether an Image Region group comes without its region. *)
Definition lacks_roi (group : hd.Group) : bool :=
  is_image_region (hd.reference_type group)
  && match hd.roi group with
     | Some _ => false
     | None => true
     end.

(** Whether a coded concept has the attribute [CodeValue] with the given
    value, and the given scheme designator and meaning. *)
Definition is_code (c : hd.CodedConcept) (value scheme_designator meaning : string)
    : Prop :=
  hd.keyword c = hd.InCodeValue /\ hd.value c = value /\
  hd.scheme_designator c = scheme_designator /\ hd.meaning c = meaning.

Definition is_codeb (c : hd.CodedConcept) (value scheme_designator meaning : string)
    : bool :=
  has_CodeValue c && String.eqb (hd.value c) value
  && String.eqb (hd.scheme_designator c) scheme_designator
  && String.eqb (hd.meaning c) meaning.

(** Whether the condition of [checkIfSRContainsBbox] can be evaluated on a
    qualitative evaluation (the name has the attribute [CodeValue], and so
    has the value when the name is the one asked for), and what it then
    answers. *)
Definition evaluation_readable (qual_eval : hd.CodeContentItem) : bool :=
  has_CodeValue (hd.name qual_eval)
  && (negb (is_codeb (hd.name qual_eval)
              "130400" "DCM" "Geometric purpose of region")
      || has_CodeValue (hd.item_value qual_eval)).

Definition says_bounded_by (qual_eval : hd.CodeContentItem) : bool :=
  is_codeb (hd.name qual_eval) "130400" "DCM" "Geometric purpose of region"
  && is_codeb (hd.item_value qual_eval) "75958009" "SCT" "Bounded by".

(** A report with the given measurement groups and no evidence sequence. *)
Definition report_of (groups : list hd.Group) : hd.SR :=
  {| hd.CurrentRequestedProcedureEvidenceSequence := None;
     hd.planar_roi_measurement_groups := groups |}.

(** Whether [getIPPFromSOP] can read a file of the series: the image has a
    SOP instance UID and a position. *)
Definition has_position (image : Image.Dataset) : bool :=
  present (Image.SOPInstanceUID image)
  && present (Image.ImagePositionPatient image).

Definition bbox_infos (st : BboxState) : list PolyInfo.t := st.1.2.
Definition bbox_locals (st : BboxState) : Bbox.Locals := st.1.1.

(** The last entry of [poly_infos] was made from the current values of the
    local variables. *)
Definition last_from_locals (st : BboxState) : Prop :=
  forall p, last (bbox_infos st) = Some p ->
    exists g ft fs, make_poly_info g ft fs (bbox_locals st) = Ok p.

(** Sample data: one image of series 9.9 in the database. *)
Definition sample_image : Image.Dataset :=
  {| Image.SOPInstanceUID := Some "1.2.3";
     Image.ImagePositionPatient := Some [0; 0; 5]%float;
     Image.ImageOrientationPatient := Some [1; 0; 0; 0; 1; 0]%float;
     Image.PixelSpacing := Some [2; 3]%float |}.

Definition sample_db : Database :=
  {| fileForInstance := fun uid => if String.eqb uid "1.2.3" then "image1.dcm" else "";
     filesForSeries := fun series => if String.eqb series "9.9" then ["image1.dcm"] else [];
     read_file := fun _ => sample_image |}.

Definition sample_evidence : option (list Evidence.Item) :=
  Some [ {| Evidence.ReferencedSeriesSequence :=
              Some [ {| Evidence.SeriesInstanceUID := Some "9.9";
                        Evidence.ReferencedSOPSequence :=
                          Some [ {| ReferencedSOPClassUID :=
                                      Some "1.2.840.10008.5.1.4.1.1.2";
                                    ReferencedSOPInstanceUID := Some "1.2.3";
                                    ReferencedFrameNumber := None |} ] |} ] |} ].

Definition image_region_code : hd.CodedConcept :=
  coded "111030" "DCM" "Image Region".

Definition lesion_code : hd.CodedConcept := coded "52988006" "SCT" "Lesion".

Definition prostate_site : hd.FindingSite :=
  {| hd.ConceptCodeSequence := Some [coded "41216001" "SCT" "Prostate"] |}.

(** A group whose ROI has the given graphic type and refers to the given
    source image ([None]: the reference cannot be read). *)
Definition region_group (graphic_type : string) (source : option string) : hd.Group :=
  {| hd.tracking_identifier := "Lesion1";
     hd.tracking_uid := "1.2.3.4";
     hd.finding_type := Some lesion_code;
     hd.finding_sites := [prostate_site];
     hd.reference_type := image_region_code;
     hd.roi := Some {| hd.ContentSequence :=
                         Some [ {| hd.referenced_sop_instance_uid := source |} ];
                       hd.GraphicType := graphic_type;
                       hd.GraphicData := [1; 1; 5; 1; 5; 4; 1; 4]%Q;
                       hd.PixelOriginInterpretation := Some "VOLUME" |};
     hd.qualitative_evaluations := [bounded_by] |}.

(** A group that refers to a segment instead of an image region. *)
Definition segment_group : hd.Group :=
  {| hd.tracking_identifier := "Lesion2";
     hd.tracking_uid := "1.2.3.5";
     hd.finding_type := Some lesion_code;
     hd.finding_sites := [prostate_site];
     hd.reference_type := coded "121191" "DCM" "Referenced Segment";
     hd.roi := None;
     hd.qualitative_evaluations := [] |}.

(** A group with another finding type. *)
Definition with_finding_type (finding_type : option hd.CodedConcept)
    (group : hd.Group) : hd.Group :=
  {| hd.tracking_identifier := hd.tracking_identifier group;
     hd.tracking_uid := hd.tracking_uid group;
     hd.finding_type := finding_type;
     hd.finding_sites := hd.finding_sites group;
     hd.reference_type := hd.reference_type group;
     hd.roi := hd.roi group;
     hd.qualitative_evaluations := hd.qualitative_evaluations group |}.

Definition sample_sr (groups : list hd.Group) : hd.SR :=
  {| hd.CurrentRequestedProcedureEvidenceSequence := sample_evidence;
     hd.planar_roi_measurement_groups := groups |}.


Definition accepted_SOPClassUID (u : string) : Prop :=
  u = UID_EnhancedSRStorage \/ u = UID_ComprehensiveSRStorage
  \/ u = UID_Comprehensive3DSRStorage.

Definition item_without_concept_name : ContentItem :=
  mkContentItem None (Some "CONTAINS") None (Some "Tumor1") None None None None None.

(** The state of the renaming loop before the turn for index [k - 1]. *)
Definition loop_inv (names : list string) (k : nat)
    (st : gmap string nat * list string) : Prop :=
  (forall n, st.1 !! n
             = if decide (1 < occurrences n names)%nat
               then Some (occurrences n (take k names)) else None) /\
  st.2 = (take k names ++ drop k (imap (numbered_name names) names))%list.

(** The spacing that scales [alongRowVector] and the spacing that scales
    [alongColumnVector]. *)
Definition rowPixelSpacing (reference : Image.Dataset) : float :=
  nth 0 (default [] (Image.PixelSpacing reference)) 0%float.

Definition columnPixelSpacing (reference : Image.Dataset) : float :=
  nth 1 (default [] (Image.PixelSpacing reference)) 0%float.

(** Equality of floating-point numbers as numbers: [==] on floats, which
    takes the two zeros as equal, with two NaNs taken as equal too. *)
Definition same_number (a b : float) : bool :=
  (a =? b)%float || (is_nan a && is_nan b).

(** Equality of coordinate lists as numbers. *)
Definition same_point (p q : list float) : Prop :=
  Forall2 (fun a b => same_number a b = true) p q.

(** Whether every number of a list is finite. *)
Definition all_finite (l : list float) : bool := forallb is_finite l.

(** The numbers -125.3 and 0.4297 as binary64 holds them. *)
Definition minus_125_3 : float := (-0x1.f533333333333p+6)%float.
Definition spacing_0_4297 : float := 0x1.b80346dc5d639p-2%float.

(** [p * lpsToRAS] for a point with three coordinates *)
Definition flipped (p : list float) : list float :=
  match p with
  | [x; y; z] => [x * -1; y * -1; z * 1]%float
  | _ => p
  end.

(** A sample report: observer Reader1, one measurement group with tracking
    identifier Tumor1 and a length drawn from (0, 0) to (10, 0) on the image
    with the given SOP instance UID. *)
Definition concept_name (scheme value meaning : string) : option (list Code) :=
  Some [ {| CodingSchemeDesignator := Some scheme; CodeValue := Some value;
            CodeMeaning := Some meaning |} ].

Definition container (name : option (list Code)) (children : list ContentItem)
    : ContentItem :=
  mkContentItem name (Some "CONTAINS") None None None None None None
    (Some children).

Definition length_report (image_uid : string) : ContentItem :=
  container (concept_name "DCM" "126000" "Imaging Measurement Report")
    [ mkContentItem (concept_name "DCM" "121008" "Person Observer Name")
        (Some "HAS OBS CONTEXT") (Some "Reader1") None None None None None None;
      container (concept_name "DCM" "126010" "Imaging Measurements")
        [ container (concept_name "DCM" "125007" "Measurement Group")
            [ mkContentItem (concept_name "DCM" "112039" "Tracking Identifier")
                (Some "HAS OBS CONTEXT") None (Some "Tumor1") None None None
                None None;
              container (concept_name "SRT" "G-D7FE" "Length")
                [ mkContentItem None (Some "INFERRED FROM") None None None None
                    (Some [0; 0; 10; 0]%float) None
                    (Some [ mkContentItem None (Some "SELECTED FROM") None None
                              None None None
                              (Some [ {| ReferencedSOPClassUID :=
                                           Some "1.2.840.10008.5.1.4.1.1.2";
                                         ReferencedSOPInstanceUID := Some image_uid;
                                         ReferencedFrameNumber := None |} ])
                              None ]) ] ] ] ].

(** An image with the given position, orientation and pixel spacing. *)
Definition image_at (ox oy oz r1 r2 r3 c1 c2 c3 row_spacing col_spacing : float)
    : Image.Dataset :=
  {| Image.SOPInstanceUID := Some "1.2.3";
     Image.ImagePositionPatient := Some [ox; oy; oz];
     Image.ImageOrientationPatient := Some [r1; r2; r3; c1; c2; c3];
     Image.PixelSpacing := Some [row_spacing; col_spacing] |}.

(** The Segmentation series that one report references, once per referenced
    SOP instance of the Segmentation storage class, in document order. *)
Definition is_segmentation (reference : ReferencedSOP) : bool :=
  match ReferencedSOPClassUID reference with
  | Some class => String.eqb class UID_SegmentationStorage
  | None => false
  end.

Definition series_segmentations (series : Evidence.ReferencedSeries) : list string :=
  (fun _ => default "" (Evidence.SeriesInstanceUID series))
    <$> filter (fun reference => is_segmentation reference = true)
               (default [] (Evidence.ReferencedSOPSequence series)).

Definition evidence_segmentations (evidence : list Evidence.Item) : list string :=
  concat ((fun item =>
             concat (series_segmentations
                     <$> default [] (Evidence.ReferencedSeriesSequence item)))
          <$> evidence).

Definition dataset_segmentations (dataset : Dataset) : list string :=
  match CurrentRequestedProcedureEvidenceSequence dataset with
  | Some evidence => evidence_segmentations evidence
  | None => []
  end.

(** Whether the loops over the evidence sequence find every attribute they
    read: each item has its series sequence, each series its SOP sequence,
    each reference its SOP class, and then the series its instance UID (for
    a Segmentation or a Real World Value Mapping) or the reference its SOP
    instance UID (for any other class). *)
Definition reference_readable (series : Evidence.ReferencedSeries)
    (reference : ReferencedSOP) : bool :=
  match ReferencedSOPClassUID reference with
  | Some class =>
      if String.eqb class UID_SegmentationStorage
         || String.eqb class UID_RealWorldValueMappingStorage
      then present (Evidence.SeriesInstanceUID series)
      else present (ReferencedSOPInstanceUID reference)
  | None => false
  end.

Definition series_readable (series : Evidence.ReferencedSeries) : bool :=
  match Evidence.ReferencedSOPSequence series with
  | Some references => forallb (reference_readable series) references
  | None => false
  end.

Definition item_readable (item : Evidence.Item) : bool :=
  match Evidence.ReferencedSeriesSequence item with
  | Some series => forallb series_readable series
  | None => false
  end.

Definition evidence_readable (dataset : Dataset) : bool :=
  match CurrentRequestedProcedureEvidenceSequence dataset with
  | Some evidence => forallb item_readable evidence
  | None => true
  end.

(** [adds_segmentations uid added l l']: from [l] to [l'], the series
    [added] have been appended to the entry of [uid] in the dictionary of
    referenced segmentations, and the keys of the dictionary and the two
    lists of referenced instances are as they were. *)
Definition adds_segmentations (uid : string) (added : list string)
    (l l' : Loadable) : Prop :=
  (forall old,
     odict_get (ReferencedSegmentationInstanceUIDs l) uid = Ok old ->
     odict_get (ReferencedSegmentationInstanceUIDs l') uid
     = Ok (old ++ added)%list) /\
  (ReferencedSegmentationInstanceUIDs l').*1
  = (ReferencedSegmentationInstanceUIDs l).*1 /\
  referencedInstanceUIDs l' = referencedInstanceUIDs l /\
  referencedSegInstanceUIDs l' = referencedSegInstanceUIDs l.

(** The SOP instance UIDs of the reports handed to
    [createLoadableAndAddReferences], as the loop reads them. *)
Definition report_uids (datasets : list Dataset) : list string :=
  (fun dataset => getDICOMString dataset "SOPInstanceUID") <$> datasets.

(** The instances that the segmentation plugin reports as referenced by the
    Segmentation series of one report. *)
Definition segmentation_instances (db : Database)
    (segPlugin_examine : list string -> list (list string))
    (dataset : Dataset) : list string :=
  concat (concat ((fun series => segPlugin_examine (filesForSeries db series))
                  <$> dataset_segmentations dataset)).

Definition SEG_warning : string :=
  "SR references more than one SEG. This has not been tested!".
Definition RWVM_warning : string :=
  "SR references more than one RWVM. This has not been tested!".

(** Sample reports: the first references two segmentation series, the
    second has no evidence sequence. *)
Definition segmentation_reference (instance : string) : ReferencedSOP :=
  {| ReferencedSOPClassUID := Some UID_SegmentationStorage;
     ReferencedSOPInstanceUID := Some instance;
     ReferencedFrameNumber := None |}.

Definition report_dataset (uid : string) (evidence : option (list Evidence.Item))
    : Dataset :=
  {| SOPInstanceUID := Some uid;
     Modality := Some "SR";
     SOPClassUID := Some UID_ComprehensiveSRStorage;
     ContentTemplateSequence := Some [ {| TemplateIdentifier := Some "1500" |} ];
     CurrentRequestedProcedureEvidenceSequence := evidence;
     SeriesDate := None; SeriesTime := None;
     StudyDate := None; StudyTime := None |}.

Definition report_with_two_segmentations : Dataset :=
  report_dataset "1.1"
    (Some [ {| Evidence.ReferencedSeriesSequence :=
                 Some [ {| Evidence.SeriesInstanceUID := Some "5.1";
                           Evidence.ReferencedSOPSequence :=
                             Some [segmentation_reference "5.1.1"] |};
                        {| Evidence.SeriesInstanceUID := Some "5.2";
                           Evidence.ReferencedSOPSequence :=
                             Some [segmentation_reference "5.2.1"] |} ] |} ]).

Definition report_without_references : Dataset := report_dataset "1.2" None.

Definition no_segmentation_loadables : list string -> list (list string) :=
  fun _ => [].

(** Sample reports for the ordering: one dated at series level, one dated
    only at study level. *)
Definition dated_report (series study : option (string * string)) : Dataset :=
  {| SOPInstanceUID := None; Modality := Some "SR";
     SOPClassUID := Some UID_ComprehensiveSRStorage;
     ContentTemplateSequence := None;
     CurrentRequestedProcedureEvidenceSequence := None;
     SeriesDate := fst <$> series; SeriesTime := snd <$> series;
     StudyDate := fst <$> study; StudyTime := snd <$> study |}.

Definition sample_reports (uid : string) : Dataset :=
  if String.eqb uid "series-dated"
  then dated_report (Some ("20220615", "090000")) (Some ("20220615", "085500"))
  else if String.eqb uid "study-dated"
  then dated_report None (Some ("20230101", "100000"))
  else dated_report None None.

(** Whether a key is a datetime rather than the empty string. *)
Definition is_at (key : timestamp) : bool :=
  match key with
  | At _ => true
  | Empty => false
  end.

(** [key_le p q]: the key of [q] is not less than the key of [p]. *)
Definition key_le {A} (p q : timestamp * A) : Prop :=
  timestamp_lt q.1 p.1 = Ok false.

(** [not_after read_report a b]: both reports have a key, and the key of
    [b] is not less than the key of [a]. *)
Definition not_after (read_report : string -> Dataset) (a b : string) : Prop :=
  exists key_a key_b,
    getDateTime read_report a = Ok key_a /\
    getDateTime read_report b = Ok key_b /\
    timestamp_lt key_b key_a = Ok false.

(** ** Further definitions used to state properties *)

(** Date and time values in the fixed-width form of the DICOM value
    representations DA ([YYYYMMDD]) and TM ([HHMMSS]). *)
Definition digit_char (n : nat) : ascii := ascii_of_nat (48 + n).

Definition pad2 (n : nat) : list ascii :=
  [digit_char (n / 10); digit_char (n mod 10)].

Definition pad4 (n : nat) : list ascii :=
  [digit_char (n / 1000); digit_char (n / 100 mod 10);
   digit_char (n / 10 mod 10); digit_char (n mod 10)].

Definition DA (t : datetime) : string :=
  string_of_list_ascii (pad4 (year t) ++ pad2 (month t) ++ pad2 (day t))%list.

Definition TM (t : datetime) : string :=
  string_of_list_ascii (pad2 (hour t) ++ pad2 (minute t) ++ pad2 (second t))%list.

(** A report whose evidence names a series without series instance UID. *)
Definition report_without_series_uid : Dataset :=
  report_dataset "1.3"
    (Some [ {| Evidence.ReferencedSeriesSequence :=
                 Some [ {| Evidence.SeriesInstanceUID := None;
                           Evidence.ReferencedSOPSequence :=
                             Some [segmentation_reference "5.3.1"] |} ] |} ]).

(** A segmentation plugin that finds two loadables in every series, with an
    instance in common. *)
Definition two_segmentation_loadables : list string -> list (list string) :=
  fun _ => [["9.1"; "9.2"]; ["9.2"; "9.3"]].

(** A series of two slices, five millimetres apart. *)
Definition slice (uid : string) (z : float) : Image.Dataset :=
  {| Image.SOPInstanceUID := Some uid;
     Image.ImagePositionPatient := Some [0; 0; z]%float;
     Image.ImageOrientationPatient := Some [1; 0; 0; 0; 1; 0]%float;
     Image.PixelSpacing := Some [2; 3]%float |}.

(** A file of the series that has lost its position. *)
Definition slice_without_position (uid : string) : Image.Dataset :=
  {| Image.SOPInstanceUID := Some uid;
     Image.ImagePositionPatient := None;
     Image.ImageOrientationPatient := Some [1; 0; 0; 0; 1; 0]%float;
     Image.PixelSpacing := Some [2; 3]%float |}.

Definition two_slice_db : Database :=
  {| fileForInstance := fun uid =>
       if String.eqb uid "1.2.3" then "slice1.dcm"
       else if String.eqb uid "1.2.4" then "slice2.dcm" else "";
     filesForSeries := fun series =>
       if String.eqb series "9.9" then ["slice1.dcm"; "slice2.dcm"] else [];
     read_file := fun file =>
       if String.eqb file "slice1.dcm" then slice "1.2.3" 5 else slice "1.2.4" 10 |}.

(** The same series after a third file without position has come in. *)
Definition three_file_db : Database :=
  {| fileForInstance := fileForInstance two_slice_db;
     filesForSeries := fun series =>
       if String.eqb series "9.9" then ["slice1.dcm"; "slice2.dcm"; "slice3.dcm"]
       else [];
     read_file := fun file =>
       if String.eqb file "slice3.dcm" then slice_without_position "1.2.5"
       else read_file two_slice_db file |}.

(** A computation that may print, but leaves the scene and the log of
    warnings as it found them. *)
Definition keeps_scene {A} (m : M A) : Prop :=
  forall w w' r, m w = (w', r) ->
    markups w' = markups w /\ warnings w' = warnings w.

(** A line node as [loadAdditionalMeasurements] completes it: named after
    the observer, with the two ends of the ruler as control points. *)
Definition is_ruler (observer : string) (node : LineNode) : Prop :=
  node_name node = observer /\ length (control_points node) = 2%nat.

(** The observer that a report names: the person name of the last of its
    top-level items that is a person observer. *)
Definition observer_turn (observer : option string) (item : ContentItem)
    : option string :=
  match isConcept item "personObserver", PersonName item with
  | Ok true, Some name => Some name
  | _, _ => observer
  end.

Definition report_observer (sr : ContentItem) : option string :=
  foldl observer_turn None (default [] (ContentSequence sr)).

(** A ruler named after the observer, for an observer that is named. *)
Definition is_ruler_of (observer : option string) (node : LineNode) : Prop :=
  exists name, observer = Some name /\ is_ruler name node.

(** The references up to the first one without SOP instance UID. *)
Fixpoint references_before_unreadable (references : list ReferencedSOP)
    : list ReferencedSOP :=
  match references with
  | [] => []
  | reference :: references' =>
      if present (ReferencedSOPInstanceUID reference)
      then reference :: references_before_unreadable references'
      else []
  end.

(** A line node as [AddNewNodeByClass] creates it. *)
Definition blank_node : LineNode := {| node_name := ""; control_points := [] |}.

(** Whether a measurement carries a polyline. *)
Definition has_polyline (measurement : Measurement) : bool :=
  match polyline measurement with
  | Some _ => true
  | None => false
  end.

(** The sample report with its length measurement, without the person
    observer item. *)
Definition unobserved_length_report (image_uid : string) : ContentItem :=
  container (concept_name "DCM" "126000" "Imaging Measurement Report")
    (match ContentSequence (length_report image_uid) with
     | Some (_ :: children) => children
     | _ => []
     end).

(** The dictionary [contents] as the function starts it. *)
Definition no_contents : Contents :=
  {| personObserver := None; measurements := [] |}.

(** Whether a reference names a frame other than the first. *)
Definition names_other_frame (reference : ReferencedSOP) : bool :=
  match ReferencedFrameNumber reference with
  | Some frame => negb (String.eqb frame "1")
  | None => false
  end.

(** [measurement] with the key [referencedSOPInstanceUID] set. *)
Definition with_reference (uid : option string) (m : Measurement) : Measurement :=
  {| trackingIdentifier := trackingIdentifier m;
     trackingUniqueIdentifier := trackingUniqueIdentifier m;
     findingSite := findingSite m;
     polyline := polyline m;
     referencedSOPInstanceUID := uid |}.

(** A report with a bounding box and a group that refers to a segment. *)
Definition two_group_sr : hd.SR :=
  sample_sr [region_group "POLYLINE" (Some "1.2.3"); segment_group].

(** ** [checkUsePlugin] *)

(** [hd.sr.ValueTypeValues]: the two members the plugin names, and the
    others. *)
Inductive ValueTypeValues : Type :=
| SCOORD
| SCOORD3D
| OtherValueType (name : string).

Definition ValueTypeValues_eqb (a b : ValueTypeValues) : bool :=
  match a, b with
  | SCOORD, SCOORD => true
  | SCOORD3D, SCOORD3D => true
  | OtherValueType m, OtherValueType n => String.eqb m n
  | _, _ => false
  end.

Section UsePlugin.
(** [roi.value_type] *)
Variable value_type : hd.ImageRegion -> ValueTypeValues.

(** The body of [for planar_roi_measurement_group in ...]. *)
Definition use_plugin_turn (planar_roi_measurement_group : hd.Group)
    (checkUsePlugin : nat) : result nat :=
  if is_image_region (hd.reference_type planar_roi_measurement_group) then
    roi ← getattr (hd.roi planar_roi_measurement_group);
    if ValueTypeValues_eqb (value_type roi) SCOORD then Ok 0%nat
    else
      roi ← getattr (hd.roi planar_roi_measurement_group);
      if ValueTypeValues_eqb (value_type roi) SCOORD3D then Ok 0%nat
      else Ok checkUsePlugin
  else Ok checkUsePlugin.

Definition checkUsePlugin (sr : hd.SR) : result nat :=
  let checkUsePlugin := 1%nat in
  let planar_roi_measurement_groups := hd.planar_roi_measurement_groups sr in
  let num_planar_roi_measurement_groups := length planar_roi_measurement_groups in
  if (0 <? num_planar_roi_measurement_groups)%nat then
    for_result planar_roi_measurement_groups use_plugin_turn checkUsePlugin
  else Ok 1%nat.

(** Whether a group is an Image Region drawn as SCOORD or SCOORD3D. *)
Definition has_coordinates (group : hd.Group) : bool :=
  is_image_region (hd.reference_type group)
  && match hd.roi group with
     | Some roi =>
         ValueTypeValues_eqb (value_type roi) SCOORD
         || ValueTypeValues_eqb (value_type roi) SCOORD3D
     | None => false
     end.
End UsePlugin.

(** ** [examineFiles] and [referencedSeriesName] *)

Module File.
(** A file as [pydicom.read_file] returns it: the attributes of [Dataset],
    and the further ones that [examineFiles] and [getRelatedSRs] ask for. *)
Record t := {
  dataset : Dataset;
  SeriesDescription : option string;
  StudyInstanceUID : option string
}.
End File.

(** Modelled from the spec: [getDICOMValue] (see [getDICOMValue] above) for
    the string-valued tags of a file: the attribute's value, or the default
    when the file has no such attribute. *)
Definition getDICOMValue_str (attr : option string) (default : string) : string :=
  match attr with
  | Some s => s
  | None => default
  end.

Module DICOMLoadable.
(** A loadable as [examineFiles] completes it: the attributes that
    [createLoadableAndAddReferences] sets, and those set afterwards. *)
Record t := {
  references : Loadable;
  files : list string;
  name : string;
  tooltip : string;
  selected : bool;
  confidence : Q;
  uids : list string
}.
End DICOMLoadable.

Section Examine.
Variable db : Database.
Variable segPlugin_examine : list string -> list (list string).
(** [pydicom.read_file] *)
Variable read : string -> File.t.
(** The attribute [referencedSOPInstanceUID] of a loadable as it comes from
    [createLoadableAndAddReferences] ([None] when [DICOMLoadable] objects
    have no such attribute), and [defaultSeriesNodeName] of the base class. *)
Variable referencedSOPInstanceUID_of_loadable : option string.
Variable defaultSeriesNodeName : string -> string.

Definition referencedSeriesName (loadable : Loadable) : string :=
  let referencedName := "Unnamed Reference" in
  match referencedSOPInstanceUID_of_loadable with
  | Some uid => defaultSeriesNodeName uid
  | None => referencedName
  end.

(** The statements under [if isDicomTID1500:] up to the [append]. *)
Definition examined_loadable (cFile uid seriesDescription : string)
    (loadable : Loadable) : DICOMLoadable.t :=
  let name := seriesDescription ++ " - as a DICOM SR TID1500 object" in
  let tooltip := name in
  let refName := referencedSeriesName loadable in
  let name :=
    if negb (String.eqb refName "")
    then refName ++ " " ++ seriesDescription ++ " - SR TID1500"
    else name in
  {| DICOMLoadable.references := loadable;
     DICOMLoadable.files := [cFile];
     DICOMLoadable.name := name;
     DICOMLoadable.tooltip := tooltip;
     DICOMLoadable.selected := true;
     DICOMLoadable.confidence := 95 # 100;
     DICOMLoadable.uids := [uid] |}.

(** [for cFile in files: ...], with [loadables] as built so far; the
    [return []] inside the loop ends it. *)
Fixpoint examineFiles_from (loadables : list DICOMLoadable.t)
    (files : list string) : M (list DICOMLoadable.t) :=
  match files with
  | [] => mret loadables
  | cFile :: files' =>
      let dataset := read cFile in
      let uid := getDICOMString (File.dataset dataset) "SOPInstanceUID" in
      if String.eqb uid "" then mret []
      else
        let seriesDescription :=
          getDICOMValue_str (File.SeriesDescription dataset) "Unknown" in
        isDicomTID1500 ← lift (isDICOMTID1500 (File.dataset dataset));
        if isDicomTID1500 : bool then
          loadable ← createLoadableAndAddReferences db segPlugin_examine
                       [File.dataset dataset];
          examineFiles_from
            (loadables ++ [examined_loadable cFile uid seriesDescription loadable])%list
            files'
        else examineFiles_from loadables files'
  end.

Definition examineFiles (files : list string) : M (list DICOMLoadable.t) :=
  examineFiles_from [] files.
End Examine.

(** Whether a file is taken for a TID 1500 report, and whether it comes
    without SOP instance UID. *)
Definition is_report (file : File.t) : bool :=
  match isDICOMTID1500 (File.dataset file) with
  | Ok true => true
  | _ => false
  end.

Definition no_uid (file : File.t) : bool :=
  String.eqb (getDICOMString (File.dataset file) "SOPInstanceUID") "".

(** Whether [examineFiles] gets past a file that has a SOP instance UID:
    the file is not taken for a report, or the evidence sequence of the
    report can be read by [createLoadableAndAddReferences]. *)
Definition examinable (file : File.t) : bool :=
  negb (is_report file) || evidence_readable (File.dataset file).

(** What [examineFiles] leaves in the loadable it makes for a file, apart
    from the references. *)
Definition describes (referencedSOPInstanceUID_of_loadable : option string)
    (defaultSeriesNodeName : string -> string) (read : string -> File.t)
    (cFile : string) (l : DICOMLoadable.t) : Prop :=
  let seriesDescription :=
    getDICOMValue_str (File.SeriesDescription (read cFile)) "Unknown" in
  let refName :=
    match referencedSOPInstanceUID_of_loadable with
    | Some uid => defaultSeriesNodeName uid
    | None => "Unnamed Reference"
    end in
  DICOMLoadable.files l = [cFile] /\
  DICOMLoadable.uids l
  = [getDICOMString (File.dataset (read cFile)) "SOPInstanceUID"] /\
  DICOMLoadable.tooltip l
  = seriesDescription ++ " - as a DICOM SR TID1500 object" /\
  DICOMLoadable.name l
  = (if String.eqb refName "" then DICOMLoadable.tooltip l
     else refName ++ " " ++ seriesDescription ++ " - SR TID1500") /\
  DICOMLoadable.selected l = true /\
  DICOMLoadable.confidence l = 95 # 100.

(** Sample files: a report, an image that is no report, a report whose
    evidence cannot be read, and a file without SOP instance UID. *)
Definition sample_files (cFile : string) : File.t :=
  if String.eqb cFile "report.dcm" then
    {| File.dataset := report_with_two_segmentations;
       File.SeriesDescription := Some "Lesions";
       File.StudyInstanceUID := Some "1.2.840.1" |}
  else if String.eqb cFile "image.dcm" then
    {| File.dataset :=
         {| SOPInstanceUID := Some "1.2.3"; Modality := Some "MR";
            SOPClassUID := Some "1.2.840.10008.5.1.4.1.1.4";
            ContentTemplateSequence := None;
            CurrentRequestedProcedureEvidenceSequence := None;
            SeriesDate := None; SeriesTime := None;
            StudyDate := None; StudyTime := None |};
       File.SeriesDescription := None;
       File.StudyInstanceUID := Some "1.2.840.1" |}
  else if String.eqb cFile "unreadable.dcm" then
    {| File.dataset := report_without_series_uid;
       File.SeriesDescription := Some "Lesions";
       File.StudyInstanceUID := Some "1.2.840.1" |}
  else
    {| File.dataset :=
         {| SOPInstanceUID := None; Modality := Some "SR";
            SOPClassUID := Some UID_ComprehensiveSRStorage;
            ContentTemplateSequence := None;
            CurrentRequestedProcedureEvidenceSequence := None;
            SeriesDate := None; SeriesTime := None;
            StudyDate := None; StudyTime := None |};
       File.SeriesDescription := None;
       File.StudyInstanceUID := None |}.

(** ** The longitudinal plugin: [fileForSeries], [getRelatedSRs],
    [examineFiles] *)

(** The queries of [slicer.dicomDatabase] that relate patients, studies,
    series and instances. *)
Record StudyDatabase := {
  patientForStudy : string -> string;
  studiesForPatient : string -> list string;
  seriesForStudy : string -> list string;
  instancesForSeries : string -> list string
}.

(** [sub in s] on strings: [sub] occurs somewhere in [s]. *)
Fixpoint contains (s sub : string) : bool :=
  String.prefix sub s
  || match s with
     | EmptyString => false
     | String _ s' => contains s' sub
     end.

Definition more_than_one_SR_warning : string :=
  "Found more than one SR per study!! This is not supported right now".

Section Longitudinal.
Variable db : Database.
Variable studies : StudyDatabase.
Variable segPlugin_examine : list string -> list (list string).
Variable read : string -> File.t.
Variable referencedSOPInstanceUID_of_loadable : option string.
Variable defaultSeriesNodeName : string -> string.

Definition fileForSeries (series : string) : result string :=
  let instance := instancesForSeries studies series in
  first ← first_item instance;
  Ok (fileForInstance db first).

(** A turn of [for s in series]; the state is [foundSRs] and
    [otherSRDatasets]. *)
Definition related_series_turn (s : string) (st : list string * list File.t)
    : M (list string * list File.t) :=
  let '(foundSRs, otherSRDatasets) := st in
  srFile ← lift (fileForSeries s);
  let tempDCM := read srFile in
  isSR ← lift (isDICOMTID1500 (File.dataset tempDCM));
  if isSR : bool
  then mret ((foundSRs ++ [srFile])%list, (otherSRDatasets ++ [tempDCM])%list)
  else mret (foundSRs, otherSRDatasets).

(** A turn of [for study in studies]; the state is [otherSRFiles] and
    [otherSRDatasets]. *)
Definition related_study_turn (study : string) (st : list string * list File.t)
    : M (list string * list File.t) :=
  let '(otherSRFiles, otherSRDatasets) := st in
  let series := seriesForStudy studies study in
  found ← for_ series related_series_turn ([], otherSRDatasets);
  let '(foundSRs, otherSRDatasets) := found in
  _ ← (if (1 <? length foundSRs)%nat
       then logging_warning more_than_one_SR_warning
       else mret tt);
  mret ((otherSRFiles ++ foundSRs)%list, otherSRDatasets).

(** The studies of the patient that [getRelatedSRs] searches. *)
Definition other_studies (studyInstanceUID : string) : list string :=
  filter (fun s => contains s studyInstanceUID = false)
         (studiesForPatient studies (patientForStudy studies studyInstanceUID)).

Definition getRelatedSRs (dataset : File.t) : M (list File.t * list string) :=
  let studyInstanceUID := getDICOMValue_str (File.StudyInstanceUID dataset) "" in
  found ← for_ (other_studies studyInstanceUID) related_study_turn ([], []);
  let '(otherSRFiles, otherSRDatasets) := found in
  mret (otherSRDatasets, otherSRFiles).

(** The statements under [if len(otherSRFiles):] up to the [append]. *)
Definition longitudinal_loadable (cFile seriesDescription : string)
    (allDatasets : list File.t) (otherSRFiles : list string)
    (loadable : Loadable) : DICOMLoadable.t :=
  let name := seriesDescription ++ " - as a Longitudinal DICOM SR TID1500 object" in
  let tooltip := name in
  let uids :=
    (fun d => getDICOMString (File.dataset d) "SOPInstanceUID") <$> allDatasets in
  let refName :=
    referencedSeriesName referencedSOPInstanceUID_of_loadable
      defaultSeriesNodeName loadable in
  let name :=
    if negb (String.eqb refName "")
    then refName ++ " " ++ seriesDescription ++ " - SR TID1500"
    else name in
  {| DICOMLoadable.references := loadable;
     DICOMLoadable.files := cFile :: otherSRFiles;
     DICOMLoadable.name := name;
     DICOMLoadable.tooltip := tooltip;
     DICOMLoadable.selected := true;
     DICOMLoadable.confidence := 96 # 100;
     DICOMLoadable.uids := uids |}.

Fixpoint longitudinal_examineFiles_from (loadables : list DICOMLoadable.t)
    (files : list string) : M (list DICOMLoadable.t) :=
  match files with
  | [] => mret loadables
  | cFile :: files' =>
      let dataset := read cFile in
      let uid := getDICOMString (File.dataset dataset) "SOPInstanceUID" in
      if String.eqb uid "" then mret []
      else
        isSR ← lift (isDICOMTID1500 (File.dataset dataset));
        if isSR : bool then
          related ← getRelatedSRs dataset;
          let '(otherSRDatasets, otherSRFiles) := related in
          if (0 <? length otherSRFiles)%nat then
            let allDatasets := (otherSRDatasets ++ [dataset])%list in
            loadable ← createLoadableAndAddReferences db segPlugin_examine
                         (File.dataset <$> allDatasets);
            let seriesDescription :=
              getDICOMValue_str (File.SeriesDescription dataset) "Unknown" in
            longitudinal_examineFiles_from
              (loadables
               ++ [longitudinal_loadable cFile seriesDescription allDatasets
                     otherSRFiles loadable])%list
              files'
          else longitudinal_examineFiles_from loadables files'
        else longitudinal_examineFiles_from loadables files'
  end.

Definition longitudinal_examineFiles (files : list string)
    : M (list DICOMLoadable.t) :=
  longitudinal_examineFiles_from [] files.
End Longitudinal.

(** Sample studies of one patient: the study of the sample report, a study
    whose UID extends it, and an earlier study with two report series. *)
Definition sample_studies : StudyDatabase :=
  {| patientForStudy := fun _ => "patient-1";
     studiesForPatient := fun _ => ["1.2.840.1"; "1.2.840.10"; "1.2.840.2"];
     seriesForStudy := fun study =>
       if String.eqb study "1.2.840.2" then ["7.1"; "7.2"]
       else if String.eqb study "1.2.840.10" then ["8.1"] else ["9.9"];
     instancesForSeries := fun series =>
       if String.eqb series "7.1" then ["1.1"]
       else if String.eqb series "7.2" then ["1.2.3"] else ["1.1"] |}.

(** The database that holds the sample files. *)
Definition sample_file_db : Database :=
  {| fileForInstance := fun uid =>
       if String.eqb uid "1.1" then "report.dcm"
       else if String.eqb uid "1.2.3" then "image.dcm" else "";
     filesForSeries := fun _ => [];
     read_file := fun _ => sample_image |}.

(** What the longitudinal [examineFiles] leaves in a loadable: the examined
    file comes first among the files and its UID last among the UIDs, with
    the related reports in between, in the same order in both. *)
Definition lists_related_reports (read : string -> File.t)
    (examined : list string) (l : DICOMLoadable.t) : Prop :=
  let uid_of file := getDICOMString (File.dataset (read file)) "SOPInstanceUID" in
  exists cFile otherSRFiles,
    In cFile examined /\ otherSRFiles <> [] /\
    DICOMLoadable.files l = cFile :: otherSRFiles /\
    DICOMLoadable.uids l = ((uid_of <$> otherSRFiles) ++ [uid_of cFile])%list /\
    DICOMLoadable.confidence l = 96 # 100.

(** ** The measurement table: [generateMeasurementInformation] and
    [setupTableInformation] *)

(** The metadata file written by the reader, as parsed JSON.  An object is
    a record of its keys; a key that the file may lack is an option. *)
Module Meta.
Record Coded := {
  CodeValue : option string;
  CodeMeaning : option string
}.

Record Item := {
  value : option string;
  units : option Coded;
  quantity : option Coded;
  derivationModifier : option Coded
}.

Record Measurement := {
  TrackingIdentifier : option string;
  TrackingUniqueIdentifier : option string;
  measurementItems : option (list Item)
}.

Record File := {
  Measurements : option (list Measurement);
  SeriesDescription : option string
}.
End Meta.

(** [s.replace(c, "")] for a one-character string [c] *)
Fixpoint str_remove (c : ascii) (s : string) : string :=
  match s with
  | EmptyString => EmptyString
  | String a s' =>
      if Ascii.eqb a c then str_remove c s' else String a (str_remove c s')
  end.

(** The body of [for measurementItem in measurementItems]: the dictionary
    [crntInfo]. *)
Definition measurement_info (measurementItem : Meta.Item) : result dict :=
  let crntInfo : dict := ∅ in
  units ← getkey (Meta.units measurementItem);
  unit ← getkey (Meta.CodeValue units);
  units ← getkey (Meta.units measurementItem);
  unit_label ← getkey (Meta.CodeMeaning units);
  let crntInfo := <["unit" := unit_label]> crntInfo in
  described ←
    match Meta.derivationModifier measurementItem with
    | Some modifier =>
        description ← getkey (Meta.CodeMeaning modifier);
        Ok (description, <["name" := description]> crntInfo)
    | None =>
        quantity ← getkey (Meta.quantity measurementItem);
        description ← getkey (Meta.CodeMeaning quantity);
        Ok (description, crntInfo)
    end;
  let '(description, crntInfo) := described in
  let crntInfo :=
    <["name" := description ++ " ["
                ++ str_remove "]" (str_remove "[" unit) ++ "]"]> crntInfo in
  let crntInfo := <["description" := description]> crntInfo in
  Ok crntInfo.

Definition generateMeasurementInformation (measurementItems : list Meta.Item)
    : result (list dict) :=
  mapM (M := result) measurement_info measurementItems.

(** The names that [setupTableInformation] gives to the columns it adds, in
    order.  (The long name, unit label and description of a column are set
    through its name and are left out.) *)
Definition setupTableInformation (measurement : Meta.Measurement)
    : result (list string) :=
  let columns := ["Tracking Identifier"] in
  measurementItems ← getkey (Meta.measurementItems measurement);
  generated ← generateMeasurementInformation measurementItems;
  infoItems ← enumerateDuplicateNames generated;
  names ← mapM (M := result) (fun info : dict =>
                                n ← getitem info "name";
                                _ ← getitem info "name";
                                _ ← getitem info "name";
                                _ ← getitem info "name";
                                _ ← getitem info "unit";
                                _ ← getitem info "name";
                                _ ← getitem info "description";
                                Ok n) infoItems;
  Ok (columns ++ names)%list.

(** The last character of a string, if any. *)
Definition last_char (s : string) : option ascii := last (list_ascii_of_string s).

(** How [generateMeasurementInformation] describes a measurement item: the
    meaning of the derivation modifier when there is one, else that of the
    quantity. *)
Definition described_as (item : Meta.Item) (description : string) : Prop :=
  match Meta.derivationModifier item with
  | Some modifier => Meta.CodeMeaning modifier = Some description
  | None =>
      exists quantity,
        Meta.quantity item = Some quantity /\
        Meta.CodeMeaning quantity = Some description
  end.

(** A sample measurement: two items with the same quantity and unit, the
    second with a derivation modifier, and a third like the first. *)
Definition volume_item (modifier : option string) : Meta.Item :=
  {| Meta.value := Some "12.5";
     Meta.units := Some {| Meta.CodeValue := Some "[hnsf'U]";
                           Meta.CodeMeaning := Some "Hounsfield unit" |};
     Meta.quantity := Some {| Meta.CodeValue := Some "112031";
                              Meta.CodeMeaning := Some "Attenuation Coefficient" |};
     Meta.derivationModifier :=
       (fun m => {| Meta.CodeValue := Some "R-00317"; Meta.CodeMeaning := Some m |})
       <$> modifier |}.

Definition sample_measurement : Meta.Measurement :=
  {| Meta.TrackingIdentifier := Some "Lesion1";
     Meta.TrackingUniqueIdentifier := Some "1.2.3.4";
     Meta.measurementItems :=
       Some [volume_item None; volume_item (Some "Mean"); volume_item None] |}.

(** The record that [generateMeasurementInformation] makes from a
    description, the text put in brackets after it, and a unit label. *)
Definition info_of (description unit_code unit_label : string) : dict :=
  <["description" := description]>
    (<["name" := description ++ " [" ++ unit_code ++ "]"]>
       (<["unit" := unit_label]> ∅)).

(** [info] is the record of [item]: the item has units with a code value
    and a meaning and can be described; the unit label is the meaning of
    the units, and the text in brackets is the code value of the units
    without its square brackets. *)
Definition names_item (item : Meta.Item) (info : dict) : Prop :=
  exists units unit unit_label description,
    Meta.units item = Some units /\
    Meta.CodeValue units = Some unit /\
    Meta.CodeMeaning units = Some unit_label /\
    described_as item description /\
    ("["%char ∉ list_ascii_of_string (str_remove "]" (str_remove "[" unit))) /\
    ("]"%char ∉ list_ascii_of_string (str_remove "]" (str_remove "[" unit))) /\
    info = info_of description (str_remove "]" (str_remove "[" unit)) unit_label.

(** ** [assignTrackingUniqueIdentifier] *)

(** A segment of the segmentation node, as far as this function touches
    it: its tags. *)
Definition Segment : Type := gmap string string.

(** [segment.SetTag(tagName, value)] *)
Definition SetTag (tagName value : string) (segment : Segment) : Segment :=
  <[tagName := value]> segment.

(** [for idx, measurement in enumerate(data["Measurements"])], from index
    [idx] on.  The segments are objects of the segmentation: tags set
    before an exception stay set. *)
Fixpoint assign_from (idx : nat) (measurements : list Meta.Measurement)
    (segments : list Segment) : list Segment * result unit :=
  match measurements with
  | [] => (segments, Ok tt)
  | measurement :: rest =>
      let tagName := "TrackingUniqueIdentifier" in
      match getkey (Meta.TrackingUniqueIdentifier measurement) with
      | Raise e => (segments, Raise e)
      | Ok trackingUID =>
          match index segments idx with
          | Raise e => (segments, Raise e)
          | Ok segment =>
              assign_from (S idx) rest
                (<[idx := SetTag tagName trackingUID segment]> segments)
          end
      end
  end.

(** [data] is the parsed metadata file, [segments] the segments of the
    segmentation node in the order of [getSegmentIDs]. *)
Definition assignTrackingUniqueIdentifier (data : Meta.File)
    (segments : list Segment) : list Segment * result unit :=
  match getkey (Meta.Measurements data) with
  | Raise e => (segments, Raise e)
  | Ok measurements => assign_from 0 measurements segments
  end.

(** The segments after the first [length uids] of them have been tagged,
    each with the UID at its position. *)
Definition tagged (uids : list string) (segments : list Segment) : list Segment :=
  imap (fun i segment =>
          match uids !! i with
          | Some uid => SetTag "TrackingUniqueIdentifier" uid segment
          | None => segment
          end) segments.

(** Sample metadata with the given tracking UIDs. *)
Definition tracked (uids : list string) : Meta.File :=
  {| Meta.Measurements :=
       Some ((fun uid =>
                {| Meta.TrackingIdentifier := Some "Lesion";
                   Meta.TrackingUniqueIdentifier := Some uid;
                   Meta.measurementItems := Some [] |}) <$> uids);
     Meta.SeriesDescription := Some "Measurements" |}.

(** ** [extractPointMetadataToVtkTableNode] and [createPointTable] *)

Module Point.
(** An item of [group[0].ContentSequence]: [name] and [value] are the
    properties of that name; [value] is [None] when the item's value is not
    a coded concept. *)
Record Content := {
  RelationshipType : string;
  name : hd.CodedConcept;
  value : option hd.CodedConcept
}.

(** [group[0]]: the container of the group, with what [len] answers for
    it. *)
Record Container := {
  len : nat;
  ContentSequence : list Content
}.

(** A planar ROI measurement group with what the point path reads beyond
    [hd.Group]: the group as a sequence of containers, and
    [group.roi.ReferencedFrameOfReferenceUID] ([None] when the region has
    no such attribute). *)
Record Group := {
  group : hd.Group;
  items : list Container;
  ReferencedFrameOfReferenceUID : option string
}.

(** The local variables that a turn of the loop may leave unbound. *)
Record Locals := {
  content_sequence_names : option (list (list string));
  content_sequence_values : option (list (list string));
  referenced_frame_of_reference_uid : option string;
  extracted_data : option (list Q)
}.

Definition unbound : Locals :=
  {| content_sequence_names := None; content_sequence_values := None;
     referenced_frame_of_reference_uid := None; extracted_data := None |}.
End Point.

(** An entry of [point_infos], under its dictionary keys. *)
Module PointInfo.
Record t := {
  TrackingIdentifier : string;
  TrackingUID : string;
  FindingType : list string;
  FindingSite : list (list string);
  ReferencedFrameOfReferenceUID : string;
  ContentSequenceNames : list (list string);
  ContentSequenceValues : list (list string);
  point : list Q
}.
End PointInfo.

(** A turn of [for n in range(0, len(group[0]))]; the state is the two
    lists. *)
Definition content_turn (container : Point.Container) (n : nat)
    (st : list (list string) * list (list string))
    : result (list (list string) * list (list string)) :=
  let '(content_sequence_names, content_sequence_values) := st in
  ContentSequence ← index (Point.ContentSequence container) n;
  if String.eqb (Point.RelationshipType ContentSequence) "CONTAINS" then
    content_sequence_name ← coded_triple (Point.name ContentSequence);
    value ← getattr (Point.value ContentSequence);
    content_sequence_value ← coded_triple value;
    Ok ((content_sequence_names ++ [content_sequence_name])%list,
        (content_sequence_values ++ [content_sequence_value])%list)
  else Ok (content_sequence_names, content_sequence_values).

(** The body of [if (len(group)>0):]. *)
Definition read_contents (g : Point.Group) (vars : Point.Locals)
    : result Point.Locals :=
  if (0 <? length (Point.items g))%nat then
    container ← first_item (Point.items g);
    lists ← for_result (seq 0 (Point.len container)) (content_turn container)
              ([], []);
    Ok {| Point.content_sequence_names := Some lists.1;
          Point.content_sequence_values := Some lists.2;
          Point.referenced_frame_of_reference_uid :=
            Point.referenced_frame_of_reference_uid vars;
          Point.extracted_data := Point.extracted_data vars |}
  else Ok vars.

(** The body of [if (group.reference_type ... "Image Region")]. *)
Definition read_point (g : Point.Group) (vars : Point.Locals)
    : result Point.Locals :=
  if is_image_region (hd.reference_type (Point.group g)) then
    _ ← getattr (hd.roi (Point.group g));
    referenced_frame_of_reference_uid ← getattr (Point.ReferencedFrameOfReferenceUID g);
    roi ← getattr (hd.roi (Point.group g));
    Ok {| Point.content_sequence_names := Point.content_sequence_names vars;
          Point.content_sequence_values := Point.content_sequence_values vars;
          Point.referenced_frame_of_reference_uid :=
            Some referenced_frame_of_reference_uid;
          Point.extracted_data :=
            if String.eqb (hd.GraphicType roi) "POINT"
            then Some (hd.GraphicData roi)
            else Point.extracted_data vars |}
  else Ok vars.

(** [point_infos.append({...})]: the dictionary display reads the
    variables in the order of its keys. *)
Definition make_point_info (g : Point.Group) (finding_type : list string)
    (finding_sites : list (list string)) (vars : Point.Locals)
    : result PointInfo.t :=
  uid ← read_local (Point.referenced_frame_of_reference_uid vars);
  names ← read_local (Point.content_sequence_names vars);
  values ← read_local (Point.content_sequence_values vars);
  point ← read_local (Point.extracted_data vars);
  Ok {| PointInfo.TrackingIdentifier := hd.tracking_identifier (Point.group g);
        PointInfo.TrackingUID := hd.tracking_uid (Point.group g);
        PointInfo.FindingType := finding_type;
        PointInfo.FindingSite := finding_sites;
        PointInfo.ReferencedFrameOfReferenceUID := uid;
        PointInfo.ContentSequenceNames := names;
        PointInfo.ContentSequenceValues := values;
        PointInfo.point := point |}.

(** The body of [for group in groups]; the state is the local variables
    and [point_infos]. *)
Definition point_group_body (g : Point.Group)
    (st : Point.Locals * list PointInfo.t)
    : result (Point.Locals * list PointInfo.t) :=
  let '(vars, point_infos) := st in
  ft ← getattr (hd.finding_type (Point.group g));
  finding_type ← coded_triple ft;
  finding_sites ← collect_finding_sites (hd.finding_sites (Point.group g));
  vars ← read_contents g vars;
  vars ← read_point g vars;
  p ← make_point_info g finding_type finding_sites vars;
  Ok (vars, (point_infos ++ [p])%list).

(** The table of [createPointTable]: the names of its columns, the number
    of its rows, and the cells set, as (row, column, value) in the order of
    the calls.  A cell holds a text or the coordinates of a point (their
    rounding to two decimals is left out).  [AddEmptyRow] answers the index
    of the row it adds. *)
Inductive CellText : Type :=
| Text (s : string)
| Coordinates (p : list Q).

Record PointTable := {
  point_columns : list string;
  point_rows : nat;
  point_cells : list (nat * nat * CellText)
}.

Definition new_point_table : PointTable :=
  {| point_columns := ["Tracking Identifier"; "FindingType"; "FindingSite"; "Point"];
     point_rows := 0;
     point_cells := [] |}.

(** A turn of [for j, content_sequence_name in enumerate(...)]. *)
Definition point_column_turn (rowIndex : nat)
    (content_sequence_values : list (list string))
    (j : nat) (content_sequence_name : list string) (table : PointTable)
    : result PointTable :=
  let num_rows := 4%nat in
  let rowIndexValue := (num_rows + j)%nat in
  colName ← index content_sequence_name 2;
  value ← index content_sequence_values j;
  colValue ← index value 2;
  Ok {| point_columns := (point_columns table ++ [colName])%list;
        point_rows := point_rows table;
        point_cells :=
          (point_cells table ++ [(rowIndex, rowIndexValue, Text colValue)])%list |}.

(** [for j, x in enumerate(l): body] for a body that prints nothing. *)
Fixpoint for_enumerate {A St} (j : nat) (l : list A)
    (body : nat -> A -> St -> result St) (s : St) : result St :=
  match l with
  | [] => Ok s
  | x :: l' => s' ← body j x s; for_enumerate (S j) l' body s'
  end.

(** A turn of [for i, p in enumerate(point_infos)]. *)
Definition point_row_turn (p : PointInfo.t) (table : PointTable)
    : result PointTable :=
  let tracking_identifier := PointInfo.TrackingIdentifier p in
  let finding_type := PointInfo.FindingType p in
  finding_site ← first_item (PointInfo.FindingSite p);
  let point := PointInfo.point p in
  let content_sequence_names := PointInfo.ContentSequenceNames p in
  let content_sequence_values := PointInfo.ContentSequenceValues p in
  let rowIndex := point_rows table in
  ft ← index finding_type 2;
  fs ← index finding_site 2;
  let table :=
    {| point_columns := point_columns table;
       point_rows := S (point_rows table);
       point_cells :=
         (point_cells table
          ++ [(rowIndex, 0%nat, Text tracking_identifier);
              (rowIndex, 1%nat, Text ft);
              (rowIndex, 2%nat, Text fs);
              (rowIndex, 3%nat, Coordinates point)])%list |} in
  for_enumerate 0 content_sequence_names
    (point_column_turn rowIndex content_sequence_values) table.

Definition createPointTable (point_infos : list PointInfo.t)
    : result PointTable :=
  for_result point_infos point_row_turn new_point_table.

Definition extractPointMetadataToVtkTableNode (groups : list Point.Group)
    : result (list PointInfo.t * PointTable) :=
  st ← for_result groups point_group_body (Point.unbound, []);
  let '(_, point_infos) := st in
  tableNode ← createPointTable point_infos;
  Ok (point_infos, tableNode).

(** The third entry of a coded triple: the code meaning. *)
Definition meaning_of (triple : list string) : string := nth 2 triple "".

(** Whether a group carries an Image Region ROI of graphic type POINT. *)
Definition has_point_roi (g : Point.Group) : bool :=
  is_image_region (hd.reference_type (Point.group g))
  && match hd.roi (Point.group g) with
     | Some r => String.eqb (hd.GraphicType r) "POINT"
     | None => false
     end.

(** Whether an item of a content sequence can be read by the loop: an item
    related by CONTAINS has a coded value, and its name and its value have
    the attribute [CodeValue]. *)
Definition readable (content : Point.Content) : bool :=
  if String.eqb (Point.RelationshipType content) "CONTAINS"
  then has_CodeValue (Point.name content)
       && match Point.value content with
          | Some value => has_CodeValue value
          | None => false
          end
  else true.

(** Sample groups for the point path. *)
Definition point_region : hd.ImageRegion :=
  {| hd.ContentSequence := None; hd.GraphicType := "POINT";
     hd.GraphicData := [10; 20; 30]%Q; hd.PixelOriginInterpretation := None |}.

Definition grade_item (grade : string) : Point.Content :=
  {| Point.RelationshipType := "CONTAINS";
     Point.name := coded "ISUP" "99X" "Grade group";
     Point.value := Some (coded grade "99X" ("Grade " ++ grade)) |}.

Definition point_group (identifier grade : string) (elements : nat) : Point.Group :=
  {| Point.group :=
       {| hd.tracking_identifier := identifier;
          hd.tracking_uid := "1.2.3.4";
          hd.finding_type := Some lesion_code;
          hd.finding_sites := [prostate_site];
          hd.reference_type := image_region_code;
          hd.roi := Some point_region;
          hd.qualitative_evaluations := [] |};
     Point.items := [ {| Point.len := elements;
                         Point.ContentSequence := [grade_item grade] |} ];
     Point.ReferencedFrameOfReferenceUID := Some "1.2.840.99" |}.

(** A content item whose name holds its code value in [LongCodeValue], and
    a group whose container holds that item alone. *)
Definition long_grade_item : Point.Content :=
  {| Point.RelationshipType := "CONTAINS";
     Point.name := long_coded "126000000000000002" "99X" "Grade group";
     Point.value := Some (coded "2" "99X" "Grade 2") |}.

Definition unreadable_point_group (elements : nat) : Point.Group :=
  {| Point.group := Point.group (point_group "Lesion1" "2" elements);
     Point.items := [ {| Point.len := elements;
                         Point.ContentSequence := [long_grade_item] |} ];
     Point.ReferencedFrameOfReferenceUID := Some "1.2.840.99" |}.

(** The cells that [createPointTable] sets for the row of an entry: the
    four fixed ones, then the value of the j-th content item in column
    [4 + j]. *)
Definition point_row_cells (rowIndex : nat) (p : PointInfo.t)
    : list (nat * nat * CellText) :=
  ([(rowIndex, 0%nat, Text (PointInfo.TrackingIdentifier p));
    (rowIndex, 1%nat, Text (meaning_of (PointInfo.FindingType p)));
    (rowIndex, 2%nat,
     Text (meaning_of (nth 0 (PointInfo.FindingSite p) [])));
    (rowIndex, 3%nat, Coordinates (PointInfo.point p))]
   ++ imap (fun j _ =>
              (rowIndex, (4 + j)%nat,
               Text (meaning_of (nth j (PointInfo.ContentSequenceValues p) []))))
           (PointInfo.ContentSequenceNames p))%list.

(** The content items that the loop of [read_contents] keeps: those related
    by CONTAINS among the first [len(group[0])] items. *)
Definition kept_contents (container : Point.Container) : list Point.Content :=
  filter (fun c => String.eqb (Point.RelationshipType c) "CONTAINS" = true)
         (take (Point.len container) (Point.ContentSequence container)).

(** Two lesions marked by points, each with its own grade. *)
Definition two_points : list Point.Group :=
  [point_group "Lesion1" "2" 1; point_group "Lesion2" "4" 1].

Definition point_entry (identifier grade : string) : PointInfo.t :=
  {| PointInfo.TrackingIdentifier := identifier;
     PointInfo.TrackingUID := "1.2.3.4";
     PointInfo.FindingType := triple_of lesion_code;
     PointInfo.FindingSite := [["41216001"; "SCT"; "Prostate"]];
     PointInfo.ReferencedFrameOfReferenceUID := "1.2.840.99";
     PointInfo.ContentSequenceNames := [["ISUP"; "99X"; "Grade group"]];
     PointInfo.ContentSequenceValues := [[grade; "99X"; "Grade " ++ grade]];
     PointInfo.point := [10; 20; 30]%Q |}.

(** ** [displayPointMarkups] and [create_3d_point] *)

(** A fiducial node of the scene: its name, whether it is locked, its
    control points, and the labels given, each with the index of the
    control point it was addressed to. *)
Record FiducialNode := {
  fiducial_name : string;
  fiducial_locked : bool;
  fiducial_points : list (list Q);
  fiducial_labels : list (nat * string)
}.

(** The scene as the point path changes it: the fiducial nodes, and the
    locations the slice views were sent to. *)
Record PointScene := {
  fiducials : list FiducialNode;
  jumps : list (list Q)
}.

Definition create_3d_point (point_index : nat) (point_x point_y point_z : Q)
    (point_text : string) (scene : PointScene) : PointScene :=
  let markupsNode :=
    {| fiducial_name := point_text; fiducial_locked := false;
       fiducial_points := []; fiducial_labels := [] |} in
  let markupsNode :=
    {| fiducial_name := fiducial_name markupsNode; fiducial_locked := true;
       fiducial_points := fiducial_points markupsNode;
       fiducial_labels := fiducial_labels markupsNode |} in
  let markupsNode :=
    {| fiducial_name := fiducial_name markupsNode;
       fiducial_locked := fiducial_locked markupsNode;
       fiducial_points :=
         (fiducial_points markupsNode ++ [[point_x; point_y; point_z]])%list;
       fiducial_labels := fiducial_labels markupsNode |} in
  let markupsNode :=
    {| fiducial_name := point_text;
       fiducial_locked := fiducial_locked markupsNode;
       fiducial_points := fiducial_points markupsNode;
       fiducial_labels := fiducial_labels markupsNode |} in
  let markupsNode :=
    {| fiducial_name := fiducial_name markupsNode;
       fiducial_locked := fiducial_locked markupsNode;
       fiducial_points := fiducial_points markupsNode;
       fiducial_labels :=
         (fiducial_labels markupsNode ++ [(point_index, point_text)])%list |} in
  {| fiducials := (fiducials scene ++ [markupsNode])%list;
     jumps := jumps scene |}.

(** [for i, p in enumerate(point_infos)], from index [i] on.  Nodes added
    before an exception stay in the scene. *)
Fixpoint displayPointMarkups_from (i : nat) (point_infos : list PointInfo.t)
    (scene : PointScene) : PointScene * result unit :=
  match point_infos with
  | [] => (scene, Ok tt)
  | p :: rest =>
      let point_text := PointInfo.TrackingIdentifier p in
      match index (PointInfo.point p) 0 with
      | Raise e => (scene, Raise e)
      | Ok p0 =>
          let point_x := (- p0)%Q in
          match index (PointInfo.point p) 1 with
          | Raise e => (scene, Raise e)
          | Ok p1 =>
              let point_y := (- p1)%Q in
              match index (PointInfo.point p) 2 with
              | Raise e => (scene, Raise e)
              | Ok point_z =>
                  let scene :=
                    create_3d_point i point_x point_y point_z point_text scene in
                  let scene :=
                    if (i =? 0)%nat
                    then {| fiducials := fiducials scene;
                            jumps := (jumps scene
                                      ++ [[point_x; point_y; point_z]])%list |}
                    else scene in
                  displayPointMarkups_from (S i) rest scene
              end
          end
      end
  end.

Definition displayPointMarkups (point_infos : list PointInfo.t)
    (scene : PointScene) : PointScene * result unit :=
  displayPointMarkups_from 0 point_infos scene.

(** The position at which a point entry is shown: the first two
    coordinates negated. *)
Definition shown_at (p : PointInfo.t) : list Q :=
  [- nth 0 (PointInfo.point p) 0; - nth 1 (PointInfo.point p) 0;
   nth 2 (PointInfo.point p) 0]%Q.

(** The node made for the entry at position [k]. *)
Definition fiducial_of (k : nat) (p : PointInfo.t) : FiducialNode :=
  {| fiducial_name := PointInfo.TrackingIdentifier p;
     fiducial_locked := true;
     fiducial_points := [shown_at p];
     fiducial_labels := [(k, PointInfo.TrackingIdentifier p)] |}.

Definition empty_scene : PointScene := {| fiducials := []; jumps := [] |}.

(** ** [metadata2vtkTableNode], [createAndConfigureTable] and
    [addMeasurementsToTable] *)

(** The measurement table: its attributes, the names of its columns, the
    number of its rows, and the cells set, as (row, column, text) in the
    order of the calls.  [AddEmptyRow] answers the index of the row it
    adds. *)
Record MeasurementTable := {
  table_attributes : list (string * string);
  UseColumnNameAsColumnHeader : bool;
  table_columns : list string;
  table_rows : nat;
  table_cells : list (nat * nat * string)
}.

Definition createAndConfigureTable : MeasurementTable :=
  {| table_attributes := [("QuantitativeReporting", "Yes"); ("readonly", "Yes")];
     UseColumnNameAsColumnHeader := true;
     table_columns := [];
     table_rows := 0;
     table_cells := [] |}.

Definition SetCellText (rowIndex columnIndex : nat) (text : string)
    (table : MeasurementTable) : MeasurementTable :=
  {| table_attributes := table_attributes table;
     UseColumnNameAsColumnHeader := UseColumnNameAsColumnHeader table;
     table_columns := table_columns table;
     table_rows := table_rows table;
     table_cells := (table_cells table ++ [(rowIndex, columnIndex, text)])%list |}.

Definition AddEmptyRow (table : MeasurementTable) : nat * MeasurementTable :=
  (table_rows table,
   {| table_attributes := table_attributes table;
      UseColumnNameAsColumnHeader := UseColumnNameAsColumnHeader table;
      table_columns := table_columns table;
      table_rows := S (table_rows table);
      table_cells := table_cells table |}).

(** [setupTableInformation(measurement, table)] on the table. *)
Definition add_columns (measurement : Meta.Measurement)
    (table : MeasurementTable) : result MeasurementTable :=
  columns ← setupTableInformation measurement;
  Ok {| table_attributes := table_attributes table;
        UseColumnNameAsColumnHeader := UseColumnNameAsColumnHeader table;
        table_columns := (table_columns table ++ columns)%list;
        table_rows := table_rows table;
        table_cells := table_cells table |}.

(** A turn of [for columnIndex, measurementItem in enumerate(...)]. *)
Definition value_turn (rowIndex : nat) (columnIndex : nat)
    (measurementItem : Meta.Item) (table : MeasurementTable)
    : result MeasurementTable :=
  value ← getkey (Meta.value measurementItem);
  Ok (SetCellText rowIndex (columnIndex + 1) value table).

(** A turn of [for measurement in data["Measurements"]]. *)
Definition measurement_row_turn (measurement : Meta.Measurement)
    (table : MeasurementTable) : result MeasurementTable :=
  name ← getkey (Meta.TrackingIdentifier measurement);
  let '(rowIndex, table) := AddEmptyRow table in
  let table := SetCellText rowIndex 0 name table in
  measurementItems ← getkey (Meta.measurementItems measurement);
  for_enumerate 0 measurementItems (value_turn rowIndex) table.

Definition addMeasurementsToTable (data : Meta.File) (table : MeasurementTable)
    : result MeasurementTable :=
  measurements ← getkey (Meta.Measurements data);
  for_result measurements measurement_row_turn table.

(** [data] is the parsed metadata file.  The result is [None] where the
    function returns [None]. *)
Definition metadata2vtkTableNode (data : Meta.File)
    : result (option MeasurementTable) :=
  match Meta.Measurements data with
  | None => Ok None
  | Some _ =>
      measurements ← getkey (Meta.Measurements data);
      measurement ← first_item measurements;
      let table := createAndConfigureTable in
      table ← add_columns measurement table;
      table ← addMeasurementsToTable data table;
      Ok (Some table)
  end.

(** The cells set for the row of a measurement: the tracking identifier in
    column 0, the value of the j-th measurement item in column j + 1. *)
Definition measurement_row_cells (rowIndex : nat)
    (measurement : Meta.Measurement) : list (nat * nat * string) :=
  ((rowIndex, 0%nat, default "" (Meta.TrackingIdentifier measurement))
   :: imap (fun j item => (rowIndex, (j + 1)%nat, default "" (Meta.value item)))
           (default [] (Meta.measurementItems measurement)))%list.

(** The number of measurement items of a measurement. *)
Definition item_count (measurement : Meta.Measurement) : nat :=
  length (default [] (Meta.measurementItems measurement)).

(** Sample metadata: a measurement with one item, then
    [sample_measurement] with three. *)
Definition short_measurement : Meta.Measurement :=
  {| Meta.TrackingIdentifier := Some "Lesion0";
     Meta.TrackingUniqueIdentifier := Some "1.2.3.3";
     Meta.measurementItems := Some [volume_item None] |}.

Definition two_measurement_file : Meta.File :=
  {| Meta.Measurements := Some [short_measurement; sample_measurement];
     Meta.SeriesDescription := Some "Measurements" |}.
(** * Properties *)

(** ** Recognition of TID1500 documents *)


Lemma eqb_true_iff (s t : string) : String.eqb s t = true <-> s = t.
Proof. apply String.eqb_eq. Qed.

(** C8: [isDICOMTID1500] never raises, and answers [True] exactly when the
    modality is "SR", the SOP class is one of the three accepted storage
    classes and the first content template item has identifier "1500";
    absent attributes give [False]. *)
Theorem isDICOMTID1500_exact (dataset : Dataset) :
  (exists b, isDICOMTID1500 dataset = Ok b) /\
  (isDICOMTID1500 dataset = Ok true <->
     Modality dataset = Some "SR" /\
     (exists u, SOPClassUID dataset = Some u /\ accepted_SOPClassUID u) /\
     (exists t rest, ContentTemplateSequence dataset = Some (t :: rest) /\
                     TemplateIdentifier t = Some "1500")).
Proof.
  unfold isDICOMTID1500, getDICOMValue, dataset_attr, accepted_SOPClassUID.
  cbn [String.eqb Ascii.eqb Bool.eqb].
  destruct dataset as [uid mo sc cts ev sd st ud ut]; cbn.
  destruct mo as [mo|]; cbn.
  2:{ split; [eauto|]. split; [discriminate|]. intros (? & _); discriminate. }
  destruct (String.eqb mo "SR") eqn:Hmo.
  2:{ split; [eauto|]. split; [discriminate|]. intros (Hm & _).
      injection Hm as ->. discriminate. }
  apply String.eqb_eq in Hmo as ->.
  destruct sc as [sc|]; cbn.
  2:{ split; [eauto|]. split; [discriminate|].
      intros (_ & (u & ? & _) & _); discriminate. }
  destruct (_ || _ || _)%bool eqn:Hsc.
  2:{ split; [eauto|]. split; [discriminate|].
      intros (_ & (u & Hu & Hacc) & _). injection Hu as ->.
      apply orb_false_iff in Hsc as [Hsc H3].
      apply orb_false_iff in Hsc as [H1 H2].
      destruct Hacc as [->|[->| ->]]; discriminate. }
  assert (Hacc : sc = UID_EnhancedSRStorage \/ sc = UID_ComprehensiveSRStorage
                 \/ sc = UID_Comprehensive3DSRStorage).
  { apply orb_true_iff in Hsc as [Hsc|Hsc];
      [apply orb_true_iff in Hsc as [Hsc|Hsc]|];
      apply String.eqb_eq in Hsc; auto. }
  destruct cts as [[|t rest]|]; cbn.
  - split; [eauto|]. split; [discriminate|].
    intros (_ & _ & (? & ? & ? & _)); discriminate.
  - destruct t as [[tid|]]; cbn.
    + split; [eauto|]. split.
      * intros Heq. injection Heq as Heq. apply String.eqb_eq in Heq as ->.
        repeat split; eauto.
      * intros (_ & _ & (t' & rest' & Ht & Hid)).
        injection Ht as <- <-. cbn in Hid. injection Hid as ->. reflexivity.
    + split; [eauto|]. split; [discriminate|].
      intros (_ & _ & (t' & rest' & Ht & Hid)).
      injection Ht as <- <-. discriminate.
  - split; [eauto|]. split; [discriminate|].
    intros (_ & _ & (? & ? & ? & _)); discriminate.
Qed.

(** ** The concept matcher *)


(** C3, as stated, fails: an item that carries no concept-name code makes
    [isConcept] raise instead of answering [False]. *)
Lemma isConcept_absent_code_raises :
  isConcept item_without_concept_name "length" = Raise AttributeError /\
  isConcept item_without_concept_name "length" <> Ok false.
Proof. split; [reflexivity | discriminate]. Qed.

(** C3 (amended): for a registry key, [isConcept] answers [True] exactly when
    the first concept-name code of the item has the registry entry's scheme
    designator and code value; with both attributes present the answer is a
    boolean, the meaning text never matters, and an item without a
    concept-name code raises ([AttributeError] when the sequence is absent,
    [IndexError] when it is empty). *)
Theorem isConcept_exact (item : ContentItem) (coding : string) (entry : Coding)
    (Hkey : codings !! coding = Some entry) :
  (isConcept item coding = Ok true <->
     exists code rest,
       ConceptNameCodeSequence item = Some (code :: rest) /\
       CodingSchemeDesignator code = Some (scheme entry) /\
       CodeValue code = Some (value entry)) /\
  (forall code rest s v,
     ConceptNameCodeSequence item = Some (code :: rest) ->
     CodingSchemeDesignator code = Some s -> CodeValue code = Some v ->
     isConcept item coding
     = Ok (bool_decide (s = scheme entry /\ v = value entry))) /\
  (forall m, isConcept (with_meaning m item) coding = isConcept item coding) /\
  (ConceptNameCodeSequence item = None ->
     isConcept item coding = Raise AttributeError) /\
  (ConceptNameCodeSequence item = Some [] ->
     isConcept item coding = Raise IndexError).
Proof.
  unfold isConcept, getitem. rewrite Hkey.
  destruct item as [cn rt pn tv uid cc gd rs cs]; cbn.
  repeat split.
  - destruct cn as [[|code rest]|]; cbn; try discriminate.
    destruct code as [[s|] [v|] m]; cbn; try discriminate;
      destruct (String.eqb s (scheme entry)) eqn:Hs; cbn; try discriminate.
    + intros Heq. injection Heq as Heq.
      apply String.eqb_eq in Hs as ->. apply String.eqb_eq in Heq as ->.
      eexists _, _. repeat split; reflexivity.
  - intros (code & rest & -> & Hs & Hv). cbn. rewrite Hs, Hv. cbn.
    rewrite !String.eqb_refl. reflexivity.
  - intros code rest s v -> Hs Hv. cbn. rewrite Hs. cbn.
    destruct (String.eqb s (scheme entry)) eqn:Es.
    + rewrite Hv. cbn. apply String.eqb_eq in Es as ->.
      destruct (String.eqb v (value entry)) eqn:Ev.
      * apply String.eqb_eq in Ev as ->. rewrite bool_decide_eq_true_2; auto.
      * apply String.eqb_neq in Ev. rewrite bool_decide_eq_false_2; [done|].
        intros [_ ?]; contradiction.
    + apply String.eqb_neq in Es. rewrite bool_decide_eq_false_2; [done|].
      intros [? _]; contradiction.
  - intros m. destruct cn as [[|code rest]|]; reflexivity.
  - intros ->. reflexivity.
  - intros ->. reflexivity.
Qed.

Lemma isConcept_exact_witness :
  codings !! "length" = Some {| scheme := "SRT"; value := "G-D7FE" |} /\
  isConcept item_without_concept_name "length" = Raise AttributeError.
Proof.
  split; [reflexivity|].
  apply (isConcept_exact item_without_concept_name "length"
           {| scheme := "SRT"; value := "G-D7FE" |}); reflexivity.
Defined.

(** ** Column names *)

Lemma occurrences_snoc n l x :
  occurrences n (l ++ [x])%list
  = (occurrences n l + (if decide (x = n) then 1 else 0))%nat.
Proof.
  unfold occurrences. rewrite filter_app, length_app. f_equal.
  rewrite filter_cons. case_decide; reflexivity.
Qed.

Lemma Counter_snoc l x :
  Counter (l ++ [x])%list = <[x := S (default 0%nat (Counter l !! x))]> (Counter l).
Proof. unfold Counter. rewrite foldl_app. reflexivity. Qed.

Lemma Counter_lookup l n :
  Counter l !! n
  = if decide (occurrences n l = 0)%nat then None else Some (occurrences n l).
Proof.
  induction l as [|x l IH] using rev_ind.
  - reflexivity.
  - rewrite Counter_snoc, occurrences_snoc.
    destruct (decide (x = n)) as [->|Hne].
    + rewrite lookup_insert_eq, IH.
      repeat case_decide; try lia; cbn; f_equal; lia.
    + rewrite lookup_insert_ne by done. rewrite IH, Nat.add_0_r. reflexivity.
Qed.

Lemma duplicate_counts_lookup l n :
  filter (fun kv : string * nat => 1 < kv.2)%nat (Counter l) !! n
  = if decide (1 < occurrences n l)%nat then Some (occurrences n l) else None.
Proof.
  case_decide as Hd.
  - apply map_lookup_filter_Some. split; [|exact Hd].
    rewrite Counter_lookup. case_decide; [lia | reflexivity].
  - apply map_lookup_filter_None. right. intros v Hv. cbn.
    rewrite Counter_lookup in Hv. case_decide; [discriminate|].
    injection Hv as <-. exact Hd.
Qed.

Section EnumerateLoop.
Variable names : list string.


Lemma loop_inv_step i st :
  (i < length names)%nat ->
  loop_inv names (S i) st -> loop_inv names i (enumerate_step names st i).
Proof.
  intros Hi [Hc Hl]. destruct st as [counts copy]. cbn in Hc, Hl.
  destruct (lookup_lt_is_Some_2 names i Hi) as [x Hx].
  assert (Hexp : imap (numbered_name names) names !! i
                 = Some (numbered_name names i x)).
  { rewrite list_lookup_imap, Hx. reflexivity. }
  assert (Hocc : occurrences x (take (S i) names)
                 = S (occurrences x (take i names))).
  { rewrite (take_S_r _ _ _ Hx), occurrences_snoc.
    rewrite decide_True by done. lia. }
  assert (Hcopy : copy = (take i names ++ x :: drop (S i) (imap (numbered_name names) names))%list).
  { rewrite Hl, (take_S_r _ _ _ Hx), <- app_assoc. reflexivity. }
  assert (Hlen : length (take i names) = i) by (apply length_take_le; lia).
  unfold enumerate_step. rewrite Hx, Hc.
  case_decide as Hdup.
  - rewrite Hocc. cbn [Nat.ltb Nat.leb]. split; cbn [fst snd].
    + intros n. destruct (decide (x = n)) as [->|Hne].
      * rewrite lookup_insert_eq, decide_True by done. f_equal. lia.
      * rewrite lookup_insert_ne by done. rewrite Hc.
        case_decide; [|done]. f_equal.
        rewrite (take_S_r _ _ _ Hx), occurrences_snoc.
        rewrite decide_False by done. lia.
    + rewrite Hcopy. rewrite alter_app_r_alt by lia.
      rewrite Hlen, Nat.sub_diag. cbn.
      rewrite (drop_S _ _ _ Hexp). unfold numbered_name at 2.
      rewrite decide_True by done. rewrite Hocc. reflexivity.
  - split; cbn [fst snd].
    + intros n. rewrite Hc. case_decide as Hn; [|done]. f_equal.
      rewrite (take_S_r _ _ _ Hx), occurrences_snoc.
      destruct (decide (x = n)) as [->|]; [contradiction | lia].
    + rewrite Hcopy, (drop_S _ _ _ Hexp). unfold numbered_name at 2.
      rewrite decide_False by done. reflexivity.
Qed.

Lemma loop_inv_run k st :
  (k <= length names)%nat ->
  loop_inv names k st ->
  loop_inv names 0 (foldl (enumerate_step names) st (reverse (seq 0 k))).
Proof.
  revert st. induction k as [|k IH]; intros st Hk Hinv.
  - exact Hinv.
  - rewrite seq_S, reverse_snoc. cbn. apply IH; [lia|].
    apply loop_inv_step; [lia | exact Hinv].
Qed.

Lemma loop_result :
  (foldl (enumerate_step names)
     (filter (fun kv : string * nat => 1 < kv.2)%nat (Counter names), names)
     (reverse (seq 0 (length names)))).2
  = imap (numbered_name names) names.
Proof.
  pose proof (loop_inv_run (length names)
    (filter (fun kv : string * nat => 1 < kv.2)%nat (Counter names), names))
    as H.
  destruct H as [_ H]; [lia | | exact H].
  split; cbn [fst snd].
  - intros n. rewrite duplicate_counts_lookup, firstn_all. reflexivity.
  - rewrite firstn_all, drop_ge, app_nil_r; [done|].
    rewrite length_imap. lia.
Qed.
End EnumerateLoop.

Lemma mapM_names (items : list dict) (names : list string) :
  Forall2 (fun (item : dict) n => item !! "name" = Some n) items names ->
  mapM (M := result) (fun item : dict => getitem item "name") items = Ok names.
Proof.
  induction 1 as [|item n items names Hn _ IH]; [reflexivity|].
  assert (Hget : getitem item "name" = Ok n)
    by (unfold getitem; rewrite Hn; reflexivity).
  cbn. rewrite Hget. cbn. rewrite IH. reflexivity.
Qed.

(** C1, as stated, fails: on the names A, A, B, A the pass does not leave
    the first A bare. *)
Lemma enumerateDuplicateNames_first_not_bare :
  column_names (enumerateDuplicateNames [info "A"; info "A"; info "B"; info "A"])
  <> Ok [Some "A (3)"; Some "A (2)"; Some "B"; Some "A"].
Proof. vm_compute. discriminate. Qed.

(** C1 (amended): on the names A, A, B, A the pass yields "A (1)", "A (2)",
    "B", "A (3)"; in general every occurrence of a name that occurs more than
    once, the first included, gets its occurrence number (counted from the
    front) as suffix, and a name that occurs once is left as it is. *)
Theorem enumerateDuplicateNames_numbers_every_duplicate
    (items : list dict) (names : list string)
    (Hnames : Forall2 (fun (item : dict) n => item !! "name" = Some n) items names) :
  column_names (enumerateDuplicateNames [info "A"; info "A"; info "B"; info "A"])
  = Ok [Some "A (1)"; Some "A (2)"; Some "B"; Some "A (3)"] /\
  enumerateDuplicateNames items
  = Ok (zip_with (fun (item : dict) n => <["name" := n]> item) items
          (imap (numbered_name names) names)).
Proof.
  split; [vm_compute; reflexivity|].
  unfold enumerateDuplicateNames.
  rewrite (mapM_names _ _ Hnames). cbn.
  pose proof (loop_result names) as Hloop.
  destruct (foldl _ _ _) as [counts copy]. cbn in Hloop. subst copy.
  reflexivity.
Qed.

Lemma enumerateDuplicateNames_numbers_every_duplicate_witness :
  Forall2 (fun (item : dict) n => item !! "name" = Some n)
    [info "T2 [ms]"; info "T2 [ms]"] ["T2 [ms]"; "T2 [ms]"] /\
  enumerateDuplicateNames [info "T2 [ms]"; info "T2 [ms]"]
  = Ok (zip_with (fun (item : dict) n => <["name" := n]> item)
          [info "T2 [ms]"; info "T2 [ms]"]
          (imap (numbered_name ["T2 [ms]"; "T2 [ms]"]) ["T2 [ms]"; "T2 [ms]"])).
Proof.
  split.
  - repeat constructor.
  - apply (enumerateDuplicateNames_numbers_every_duplicate
             [info "T2 [ms]"; info "T2 [ms]"] ["T2 [ms]"; "T2 [ms]"]).
    repeat constructor.
Defined.

(** ** Bounding-box detection *)

Lemma for_result_app {A St} (l1 l2 : list A) (body : A -> St -> result St) (s : St) :
  for_result (l1 ++ l2) body s
  = match for_result l1 body s with
    | Ok s' => for_result l2 body s'
    | Raise e => Raise e
    end.
Proof.
  revert s. induction l1 as [|x l1 IH]; intros s; [reflexivity|].
  cbn [for_result app]. cbv [mbind result_bind rbind].
  destruct (body x s); [apply IH|reflexivity].
Qed.

Lemma forallb_false_exists {A} (f : A -> bool) (l : list A) :
  forallb f l = false <-> exists x, x ∈ l /\ f x = false.
Proof.
  induction l as [|x l IH]; cbn.
  - split; [discriminate|]. intros (x & Hx & _). inversion Hx.
  - rewrite andb_false_iff, IH. split.
    + intros [H|(y & Hy & H)]; [exists x|exists y]; split; try assumption;
        [left|now right].
    + intros (y & Hy & H). apply elem_of_cons in Hy as [->|Hy]; [now left|].
      right. now exists y.
Qed.

Lemma is_codeb_spec (c : hd.CodedConcept) (v s m : string) :
  is_codeb c v s m = true <-> is_code c v s m.
Proof.
  unfold is_codeb, is_code, has_CodeValue.
  rewrite !andb_true_iff, !String.eqb_eq.
  destruct (hd.keyword c); split;
    try (intros [[[? ?] ?] ?]); try (intros (? & ? & ? & ?));
    repeat split; try assumption; try reflexivity; discriminate.
Qed.

Lemma is_bounded_by_run (qual_eval : hd.CodeContentItem) :
  is_bounded_by qual_eval
  = if evaluation_readable qual_eval then Ok (says_bounded_by qual_eval)
    else Raise AttributeError.
Proof.
  unfold is_bounded_by, evaluation_readable, says_bounded_by, is_codeb,
    has_CodeValue, hd.CodeValue, hd.CodingSchemeDesignator, hd.CodeMeaning.
  destruct (hd.keyword (hd.name qual_eval)); try reflexivity.
  cbn [andb]. cbv [mbind result_bind rbind].
  destruct (String.eqb (hd.value (hd.name qual_eval)) "130400"
            && String.eqb (hd.scheme_designator (hd.name qual_eval)) "DCM"
            && String.eqb (hd.meaning (hd.name qual_eval))
                          "Geometric purpose of region"); [|reflexivity].
  cbn [negb orb andb].
  destruct (hd.keyword (hd.item_value qual_eval)); reflexivity.
Qed.

Lemma evaluation_turn_run (qual_eval : hd.CodeContentItem) (flag : nat) :
  evaluation_turn qual_eval flag
  = if evaluation_readable qual_eval
    then Ok (if says_bounded_by qual_eval then 1%nat else 0%nat)
    else Raise AttributeError.
Proof.
  unfold evaluation_turn. rewrite is_bounded_by_run.
  destruct (evaluation_readable qual_eval); [|reflexivity].
  destruct (says_bounded_by qual_eval); reflexivity.
Qed.

Lemma evaluations_loop (evals : list hd.CodeContentItem) :
  forall flag : nat,
    for_result evals evaluation_turn flag
    = if forallb evaluation_readable evals
      then Ok (match last evals with
               | Some qual_eval => if says_bounded_by qual_eval then 1%nat else 0%nat
               | None => flag
               end)
      else Raise AttributeError.
Proof.
  induction evals as [|qual_eval evals IH]; intros flag; [reflexivity|].
  cbn [for_result forallb]. rewrite evaluation_turn_run.
  destruct (evaluation_readable qual_eval); [|reflexivity].
  cbv [mbind result_bind rbind]. cbn [andb]. rewrite IH.
  destruct evals as [|q' evals']; [reflexivity|].
  rewrite last_cons_cons.
  destruct (last (q' :: evals')) eqn:E; [reflexivity|].
  apply last_None in E. discriminate.
Qed.

Lemma groups_loop_flat (groups : list hd.Group) :
  forall flag : nat,
    for_result groups
      (fun group flag =>
         for_result (hd.qualitative_evaluations group) evaluation_turn flag)
      flag
    = for_result (concat (hd.qualitative_evaluations <$> groups))
        evaluation_turn flag.
Proof.
  induction groups as [|group groups IH]; intros flag; [reflexivity|].
  cbn [for_result fmap list_fmap concat]. rewrite for_result_app.
  cbv [mbind result_bind rbind].
  destruct (for_result (hd.qualitative_evaluations group) evaluation_turn flag);
    [apply IH|reflexivity].
Qed.

Lemma checkIfSRContainsBbox_run (sr : hd.SR) :
  checkIfSRContainsBbox sr
  = if forallb evaluation_readable (evaluations_in_order sr)
    then Ok (match last (evaluations_in_order sr) with
             | Some qual_eval => if says_bounded_by qual_eval then 1%nat else 0%nat
             | None => 0%nat
             end)
    else Raise AttributeError.
Proof.
  unfold checkIfSRContainsBbox, evaluations_in_order. cbn zeta.
  rewrite groups_loop_flat. apply evaluations_loop.
Qed.

Lemma evaluation_readable_spec (qual_eval : hd.CodeContentItem) :
  evaluation_readable qual_eval = false <->
  has_CodeValue (hd.name qual_eval) = false
  \/ (is_code (hd.name qual_eval) "130400" "DCM" "Geometric purpose of region"
      /\ has_CodeValue (hd.item_value qual_eval) = false).
Proof.
  unfold evaluation_readable. rewrite <- is_codeb_spec.
  destruct (has_CodeValue (hd.name qual_eval)),
           (is_codeb (hd.name qual_eval) _ _ _),
           (has_CodeValue (hd.item_value qual_eval)); cbn; intuition congruence.
Qed.

Lemma says_bounded_by_spec (qual_eval : hd.CodeContentItem) :
  says_bounded_by qual_eval = true <->
  is_code (hd.name qual_eval) "130400" "DCM" "Geometric purpose of region"
  /\ is_code (hd.item_value qual_eval) "75958009" "SCT" "Bounded by".
Proof.
  unfold says_bounded_by. rewrite andb_true_iff, !is_codeb_spec. reflexivity.
Qed.

(** C10, as stated, fails in two ways: the test compares the two code
    meanings as well, so a last evaluation with the codes DCM 130400 and
    SCT 75958009 under another meaning text answers 0; and it reads the
    attribute [CodeValue], so a matching evaluation followed by one whose
    name holds its code value in [LongCodeValue] ends in [AttributeError]
    instead of the answer 0. *)
Lemma checkIfSRContainsBbox_compares_meanings_and_may_raise :
  checkIfSRContainsBbox
    (report_of
       [group_with [evaluation (coded "130400" "DCM" "Geometric purpose of region")
                               (coded "75958009" "SCT" "Bounded By")]])
  = Ok 0%nat /\
  checkIfSRContainsBbox
    (report_of
       [group_with [bounded_by;
                    evaluation (long_coded "99999999999999999" "99X" "Local finding")
                               (coded "1" "99X" "present")]])
  = Raise AttributeError.
Proof. split; vm_compute; reflexivity. Qed.

(** C10 (amended): [checkIfSRContainsBbox] visits the qualitative
    evaluations of all planar ROI measurement groups in order and raises
    [AttributeError] exactly when one of them cannot be read (its name has no
    attribute [CodeValue], or its name is DCM 130400 "Geometric purpose of
    region" and its value has none).  Otherwise it answers 1 exactly when
    the last evaluation visited has the name DCM 130400 "Geometric purpose of
    region" and the value SCT 75958009 "Bounded by", code values, scheme
    designators and meanings alike, and 0 in every other case: so a matching
    evaluation followed by one that does not match is reported as no
    bounding box. *)
Theorem checkIfSRContainsBbox_last_evaluation_decides (sr : hd.SR) :
  let evals := evaluations_in_order sr in
  let purpose qual_eval :=
    is_code (hd.name qual_eval) "130400" "DCM" "Geometric purpose of region" in
  let bounded qual_eval :=
    purpose qual_eval /\
    is_code (hd.item_value qual_eval) "75958009" "SCT" "Bounded by" in
  let unreadable qual_eval :=
    has_CodeValue (hd.name qual_eval) = false
    \/ (purpose qual_eval /\ has_CodeValue (hd.item_value qual_eval) = false) in
  (checkIfSRContainsBbox sr = Raise AttributeError <->
     exists qual_eval, qual_eval ∈ evals /\ unreadable qual_eval) /\
  (checkIfSRContainsBbox sr = Ok 1%nat <->
     (forall qual_eval, qual_eval ∈ evals -> ~ unreadable qual_eval) /\
     exists qual_eval, last evals = Some qual_eval /\ bounded qual_eval) /\
  (checkIfSRContainsBbox sr = Ok 0%nat <->
     (forall qual_eval, qual_eval ∈ evals -> ~ unreadable qual_eval) /\
     forall qual_eval, last evals = Some qual_eval -> ~ bounded qual_eval) /\
  (forall before matching other,
     evals = (before ++ [matching; other])%list ->
     (forall qual_eval, qual_eval ∈ evals -> ~ unreadable qual_eval) ->
     bounded matching -> ~ bounded other ->
     checkIfSRContainsBbox sr = Ok 0%nat) /\
  checkIfSRContainsBbox (report_of [group_with [other_evaluation; bounded_by]])
  = Ok 1%nat /\
  checkIfSRContainsBbox
    (report_of [group_with [bounded_by]; group_with [other_evaluation]])
  = Ok 0%nat.
Proof.
  intros evals purpose bounded unreadable.
  assert (Hall : forallb evaluation_readable evals = true <->
                 forall q, q ∈ evals -> ~ unreadable q).
  { rewrite forallb_forall. split.
    - intros H q Hq Hun. apply list_elem_of_In in Hq.
      apply evaluation_readable_spec in Hun. rewrite (H q Hq) in Hun.
      discriminate.
    - intros H q Hq. apply list_elem_of_In in Hq.
      destruct (evaluation_readable q) eqn:E; [reflexivity|].
      apply evaluation_readable_spec in E. now destruct (H q Hq). }
  assert (Hsome : forallb evaluation_readable evals = false <->
                  exists q, q ∈ evals /\ unreadable q).
  { rewrite forallb_false_exists. split; intros (q & Hq & Hun); exists q;
      (split; [exact Hq|]); now apply evaluation_readable_spec. }
  assert (Hb : forall q, says_bounded_by q = true <-> bounded q)
    by (intros q; apply says_bounded_by_spec).
  rewrite checkIfSRContainsBbox_run. fold evals.
  split; [|split; [|split; [|split; [|split]]]].
  - rewrite <- Hsome.
    destruct (forallb evaluation_readable evals); split; try discriminate;
      reflexivity.
  - rewrite <- Hall.
    destruct (forallb evaluation_readable evals); [|split; [discriminate|]].
    + destruct (last evals) as [q|]; [|split; [discriminate|]].
      * destruct (says_bounded_by q) eqn:E.
        -- split; [|reflexivity]. intros _. split; [reflexivity|].
           exists q. split; [reflexivity|now apply Hb].
        -- split; [discriminate|]. intros (_ & q' & [= <-] & Hq').
           apply Hb in Hq'. congruence.
      * intros (_ & q & Hq & _). discriminate.
    + intros (H & _). discriminate.
  - rewrite <- Hall.
    destruct (forallb evaluation_readable evals); [|split; [discriminate|]].
    + destruct (last evals) as [q|].
      * destruct (says_bounded_by q) eqn:E.
        -- split; [discriminate|]. intros (_ & Hq). exfalso.
           apply (Hq q eq_refl). now apply Hb.
        -- split; [|reflexivity]. intros _. split; [reflexivity|].
           intros q' [= <-] Hq'. apply Hb in Hq'. congruence.
      * split; [|reflexivity]. intros _. split; [reflexivity|]. discriminate.
    + intros (H & _). discriminate.
  - intros before matching other Hevals Hread _ Hother.
    apply Hall in Hread. rewrite Hread, Hevals.
    change (before ++ [matching; other])%list
      with (before ++ [matching] ++ [other])%list.
    rewrite !app_assoc, last_snoc.
    destruct (says_bounded_by other) eqn:E; [|reflexivity].
    apply Hb in E. contradiction.
  - vm_compute. reflexivity.
  - vm_compute. reflexivity.
Qed.

Lemma checkIfSRContainsBbox_last_evaluation_decides_witness :
  checkIfSRContainsBbox
    (report_of [group_with [other_evaluation; bounded_by; other_evaluation]])
  = Ok 0%nat.
Proof.
  apply (checkIfSRContainsBbox_last_evaluation_decides
           (report_of [group_with [other_evaluation; bounded_by; other_evaluation]]))
    with (before := [other_evaluation]) (matching := bounded_by)
         (other := other_evaluation).
  - reflexivity.
  - intros q Hq [H|[_ H]];
      repeat (apply elem_of_cons in Hq as [->|Hq]; [discriminate|]);
      inversion Hq.
  - repeat split.
  - intros [[_ [H _]] _]. discriminate.
Defined.

(** ** Bounding-box geometry *)





(** ** Bounding-box extraction *)

Lemma M_bind_run {A B} (m : M A) (k : A -> M B) (w : World) :
  (m ≫= k) w
  = match m w with
    | (w', Ok a) => k a w'
    | (w', Raise e) => (w', Raise e)
    end.
Proof. reflexivity. Qed.

Lemma for_app {A S} (l1 l2 : list A) (body : A -> S -> M S) (s : S) (w : World) :
  for_ (l1 ++ l2)%list body s w
  = match for_ l1 body s w with
    | (w', Ok s') => for_ l2 body s' w'
    | (w', Raise e) => (w', Raise e)
    end.
Proof.
  revert s w. induction l1 as [|x l1 IH]; intros s w; [reflexivity|].
  cbn [for_ app]. rewrite !M_bind_run.
  destruct (body x s w) as [w1 [s1|e]]; [apply IH | reflexivity].
Qed.

Lemma coded_triple_run (c : hd.CodedConcept) :
  coded_triple c
  = if has_CodeValue c then Ok (triple_of c) else Raise AttributeError.
Proof.
  unfold coded_triple, has_CodeValue, hd.CodeValue, triple_of.
  destruct (hd.keyword c); reflexivity.
Qed.

Lemma finding_site_turn_run (site : hd.FindingSite)
    (finding_sites : list (list string)) :
  finding_site_turn site finding_sites
  = if site_readable site
    then Ok (finding_sites
             ++ match hd.ConceptCodeSequence site with
                | Some (c :: _) => [triple_of c]
                | _ => []
                end)%list
    else Raise AttributeError.
Proof.
  unfold finding_site_turn, site_readable.
  destruct (hd.ConceptCodeSequence site) as [[|c cs]|];
    rewrite ?app_nil_r; try reflexivity.
  rewrite coded_triple_run. destruct (has_CodeValue c); reflexivity.
Qed.

(** The triples of the finding sites that carry a non-empty concept code
    sequence. *)
Lemma finding_sites_loop (sites : list hd.FindingSite) :
  forall finding_sites : list (list string),
    for_result sites finding_site_turn finding_sites
    = if forallb site_readable sites
      then Ok (finding_sites
               ++ omap (fun site =>
                          match hd.ConceptCodeSequence site with
                          | Some (c :: _) => Some (triple_of c)
                          | _ => None
                          end) sites)%list
      else Raise AttributeError.
Proof.
  induction sites as [|site sites IH]; intros finding_sites.
  - cbn. now rewrite app_nil_r.
  - cbn [for_result forallb omap list_omap].
    rewrite finding_site_turn_run.
    destruct (site_readable site); [|reflexivity].
    cbv [mbind result_bind rbind]. cbn [andb]. rewrite IH.
    destruct (forallb site_readable sites); [|reflexivity].
    rewrite <- app_assoc.
    destruct (hd.ConceptCodeSequence site) as [[|c cs]|]; reflexivity.
Qed.

(** The statements of a turn up to the test for an Image Region: they
    complete exactly for a group whose findings can be read. *)
Lemma findings_run (group : hd.Group) :
  (ft ← getattr (hd.finding_type group);
   finding_type ← coded_triple ft;
   finding_sites ← collect_finding_sites (hd.finding_sites group);
   Ok (finding_type, finding_sites))
  = if findings_readable group
    then Ok (match hd.finding_type group with
             | Some ft => triple_of ft
             | None => []
             end,
             omap (fun site =>
                     match hd.ConceptCodeSequence site with
                     | Some (c :: _) => Some (triple_of c)
                     | _ => None
                     end) (hd.finding_sites group))
    else Raise AttributeError.
Proof.
  unfold findings_readable, collect_finding_sites.
  destruct (hd.finding_type group) as [ft|]; [|reflexivity].
  cbn [getattr]. cbv [mbind result_bind rbind]. rewrite coded_triple_run.
  destruct (has_CodeValue ft); [|reflexivity]. cbn [andb].
  rewrite finding_sites_loop.
  destruct (forallb site_readable (hd.finding_sites group)); reflexivity.
Qed.

(** A turn of the loop over the groups, with its first statements
    summarised. *)
Lemma bbox_group_body_run db series g vars infos tbl w :
  bbox_group_body db series g (vars, infos, tbl) w
  = if findings_readable g then
      let finding_type := match hd.finding_type g with
                          | Some ft => triple_of ft
                          | None => []
                          end in
      let finding_sites :=
        omap (fun site =>
                match hd.ConceptCodeSequence site with
                | Some (c :: _) => Some (triple_of c)
                | _ => None
                end) (hd.finding_sites g) in
      match (if is_image_region (hd.reference_type g)
             then image_region_branch db series (hd.roi g) vars
             else mret vars) w with
      | (w1, Ok vars1) =>
          match make_poly_info g finding_type finding_sites vars1 with
          | Ok p =>
              match createBboxTable (infos ++ [p]) with
              | Ok rows => (w1, Ok (vars1, (infos ++ [p])%list, Some rows))
              | Raise e => (w1, Raise e)
              end
          | Raise e => (w1, Raise e)
          end
      | (w1, Raise e) => (w1, Raise e)
      end
    else (w, Raise AttributeError).
Proof.
  pose proof (findings_run g) as Hf.
  unfold bbox_group_body. cbv [mbind M_bind lift mret M_ret].
  cbv [mbind result_bind rbind] in Hf.
  destruct (getattr (hd.finding_type g)) as [ft|e].
  - destruct (coded_triple ft) as [finding_type|e].
    + destruct (collect_finding_sites (hd.finding_sites g)) as [finding_sites|e].
      * destruct (findings_readable g); [|discriminate].
        injection Hf as -> ->. cbn zeta.
        destruct (if is_image_region (hd.reference_type g) then _ else _)
          as [w1 [vars1|e]]; [|reflexivity].
        destruct (make_poly_info g _ _ vars1) as [p|e]; [|reflexivity].
        destruct (createBboxTable _); reflexivity.
      * destruct (findings_readable g); [discriminate|]. now injection Hf as ->.
    + destruct (findings_readable g); [discriminate|]. now injection Hf as ->.
  - destruct (findings_readable g); [discriminate|]. now injection Hf as ->.
Qed.

Lemma make_poly_info_same_locals g ft fs vars p g' ft' fs' vars' q :
  make_poly_info g ft fs vars = Ok p ->
  make_poly_info g' ft' fs' vars' = Ok q ->
  geometry_locals vars' = geometry_locals vars ->
  PolyInfo.geometry q = PolyInfo.geometry p /\
  (Bbox.referenced_sop_instance_uid vars' = Bbox.referenced_sop_instance_uid vars ->
   PolyInfo.SOPInstanceUID q = PolyInfo.SOPInstanceUID p).
Proof.
  unfold make_poly_info, geometry_locals, read_local, index.
  destruct vars as [u b w h cx cy cz], vars' as [u' b' w' h' cx' cy' cz'].
  cbn. intros Hp Hq Heq. injection Heq as -> -> -> -> -> ->.
  destruct u as [u|], u' as [u'|]; try discriminate.
  destruct b as [b|]; try discriminate. cbn in Hp, Hq.
  repeat match type of Hp with
         | context [?l !! ?i] =>
             destruct (l !! i); cbn in Hp, Hq; try discriminate
         end.
  destruct w, h, cx, cy, cz; try discriminate. cbn in Hp, Hq.
  injection Hp as <-. injection Hq as <-.
  split; [reflexivity|]. cbn. congruence.
Qed.

Lemma image_region_branch_keeps_geometry db series roi vars w w' vars' :
  image_region_branch db series roi vars w = (w', Ok vars') ->
  match roi with
  | Some r => String.eqb (hd.GraphicType r) "POLYLINE"
  | None => false
  end = false ->
  geometry_locals vars' = geometry_locals vars.
Proof.
  destruct roi as [r|].
  - intros H Hpoly.
    cbv [image_region_branch mret M_ret mbind M_bind print lift getattr
         after_try] in H.
    destruct (roi_referenced_sop_instance_uid (Some r)) as [uid|e];
      rewrite Hpoly in H; injection H as _ <-; reflexivity.
  - intros H _.
    cbv [image_region_branch mret M_ret mbind M_bind print lift getattr
         after_try] in H.
    destruct (roi_referenced_sop_instance_uid None); discriminate.
Qed.

Lemma bbox_group_body_ok db series g vars infos tbl w w' st' :
  bbox_group_body db series g (vars, infos, tbl) w = (w', Ok st') ->
  exists vars' p rows ft fs,
    st' = (vars', (infos ++ [p])%list, Some rows) /\
    make_poly_info g ft fs vars' = Ok p /\
    createBboxTable (infos ++ [p])%list = Ok rows /\
    (has_polyline_roi g = false -> geometry_locals vars' = geometry_locals vars) /\
    (is_image_region (hd.reference_type g) = false -> vars' = vars).
Proof.
  rewrite bbox_group_body_run. unfold has_polyline_roi.
  destruct (findings_readable g); [|discriminate]. cbn zeta.
  destruct (is_image_region (hd.reference_type g)) eqn:Hreg.
  - destruct (image_region_branch db series (hd.roi g) vars w)
      as [w1 [vars1|e]] eqn:Hbranch; [|discriminate].
    destruct (make_poly_info g _ _ vars1) as [p|e] eqn:Hp; [|discriminate].
    destruct (createBboxTable _) as [rows|e] eqn:Hrows; [|discriminate].
    intros H. injection H as _ <-.
    eexists _, _, _, _, _. split; [reflexivity|]. split; [exact Hp|].
    split; [exact Hrows|]. split; [|discriminate].
    intros Hpoly. eapply image_region_branch_keeps_geometry; eauto.
  - cbn [mret M_ret].
    destruct (make_poly_info g _ _ vars) as [p|e] eqn:Hp; [|discriminate].
    destruct (createBboxTable _) as [rows|e] eqn:Hrows; [|discriminate].
    intros H. injection H as _ <-.
    eexists _, _, _, _, _. split; [reflexivity|]. split; [exact Hp|].
    split; [exact Hrows|]. split; reflexivity.
Qed.

Lemma bbox_loop_reuses db series groups :
  forall st w w' st',
    for_ groups (bbox_group_body db series) st w = (w', Ok st') ->
    last_from_locals st ->
    exists new,
      bbox_infos st' = (bbox_infos st ++ new)%list /\
      length new = length groups /\
      forall j g p q,
        groups !! j = Some g -> has_polyline_roi g = false ->
        last (bbox_infos st ++ take j new)%list = Some p ->
        new !! j = Some q ->
        PolyInfo.geometry q = PolyInfo.geometry p /\
        (is_image_region (hd.reference_type g) = false ->
         PolyInfo.SOPInstanceUID q = PolyInfo.SOPInstanceUID p).
Proof.
  induction groups as [|g0 groups IH]; intros st w w' st' Hrun Hinv.
  - cbn in Hrun. injection Hrun as _ <-. exists []. rewrite app_nil_r.
    split; [reflexivity|]. split; [reflexivity|].
    intros j g p q Hj. discriminate.
  - cbn [for_] in Hrun. rewrite M_bind_run in Hrun.
    destruct (bbox_group_body db series g0 st w) as [w1 [st1|e]] eqn:Hbody;
      [|discriminate].
    destruct st as [[vars infos] tbl].
    apply bbox_group_body_ok in Hbody
      as (vars1 & p0 & rows & ft & fs & -> & Hp0 & _ & Hgeo & Hsame).
    assert (Hinv1 : last_from_locals (vars1, (infos ++ [p0])%list, Some rows)).
    { intros p Hp. cbn in Hp. rewrite last_snoc in Hp. injection Hp as <-.
      eauto. }
    destruct (IH _ _ _ _ Hrun Hinv1) as (new & Hnew & Hlen & Hreuse).
    cbn in Hnew. exists (p0 :: new). cbn.
    split; [rewrite Hnew, <- app_assoc; reflexivity|].
    split; [cbn; congruence|].
    intros j g p q Hj Hpoly Hlast Hq. destruct j as [|j'].
    + cbn in Hj, Hq, Hlast. injection Hj as <-. injection Hq as <-.
      rewrite app_nil_r in Hlast.
      destruct (Hinv p Hlast) as (g' & ft' & fs' & Hp).
      cbn in Hp.
      destruct (make_poly_info_same_locals _ _ _ _ _ _ _ _ _ _ Hp Hp0
                  (Hgeo Hpoly)) as [Hg Hu].
      split; [exact Hg|]. intros Hreg. apply Hu. rewrite (Hsame Hreg).
      reflexivity.
    + cbn in Hj, Hq, Hlast. apply (Hreuse j' g p q Hj Hpoly); [|exact Hq].
      cbn. rewrite <- app_assoc. exact Hlast.
Qed.

(** The first turn of the loop, for a group without Image Region POLYLINE
    ROI: it always ends in an exception, and the exception is the
    unbound-variable error exactly when everything read before the record
    is built could be read. *)
Lemma first_group_fails db series g w :
  has_polyline_roi g = false ->
  exists w' e,
    bbox_group_body db series g (Bbox.unbound, [], None) w = (w', Raise e) /\
    (e = UnboundLocalError \/ e = AttributeError) /\
    (e = UnboundLocalError <->
     findings_readable g = true /\ lacks_roi g = false).
Proof.
  unfold has_polyline_roi, lacks_roi. intros Hpoly.
  rewrite bbox_group_body_run.
  destruct (findings_readable g).
  2: { eexists _, _. split; [reflexivity|]. split; [now right|].
       split; [discriminate|]. intros [? _]. discriminate. }
  cbn zeta.
  destruct (is_image_region (hd.reference_type g)) eqn:Hreg.
  - destruct (hd.roi g) as [r|].
    + cbn in Hpoly.
      cbv [image_region_branch mret M_ret mbind M_bind print lift getattr
           after_try].
      destruct (roi_referenced_sop_instance_uid (Some r)) as [uid|e];
        rewrite Hpoly; eexists _, _; (split; [reflexivity|]);
        (split; [now left|]); split; auto.
    + cbv [image_region_branch mret M_ret mbind M_bind print lift getattr
           after_try roi_referenced_sop_instance_uid result_bind rbind].
      eexists _, _. split; [reflexivity|]. split; [now right|].
      split; [discriminate|]. intros [_ ?]. discriminate.
  - eexists _, _. split; [reflexivity|]. split; [now left|]. split; auto.
Qed.

(** The first statement of the extraction: the instance UID of the first
    series of the first evidence item. *)
Lemma first_series_run (sr : hd.SR) :
  (evidence ← getattr (hd.CurrentRequestedProcedureEvidenceSequence sr);
   e0 ← first_item evidence;
   series ← getattr (Evidence.ReferencedSeriesSequence e0);
   s0 ← first_item series;
   getattr (Evidence.SeriesInstanceUID s0))
  = if names_a_series sr
    then Ok (match hd.CurrentRequestedProcedureEvidenceSequence sr with
             | Some (e0 :: _) =>
                 match Evidence.ReferencedSeriesSequence e0 with
                 | Some (s0 :: _) => default "" (Evidence.SeriesInstanceUID s0)
                 | _ => ""
                 end
             | _ => ""
             end)
    else match hd.CurrentRequestedProcedureEvidenceSequence sr with
         | Some [] => Raise IndexError
         | Some (e0 :: _) =>
             match Evidence.ReferencedSeriesSequence e0 with
             | Some [] => Raise IndexError
             | _ => Raise AttributeError
             end
         | None => Raise AttributeError
         end.
Proof.
  unfold names_a_series.
  destruct (hd.CurrentRequestedProcedureEvidenceSequence sr) as [[|e0 es]|];
    try reflexivity.
  cbv [mbind result_bind rbind getattr first_item].
  destruct (Evidence.ReferencedSeriesSequence e0) as [[|s0 ss]|];
    try reflexivity.
  destruct (Evidence.SeriesInstanceUID s0); reflexivity.
Qed.

(** The extraction is its first statement followed by the loop. *)
Lemma extract_run db sr w :
  extractBboxMetadataToVtkTableNode db sr w
  = match (evidence ← getattr (hd.CurrentRequestedProcedureEvidenceSequence sr);
           e0 ← first_item evidence;
           series ← getattr (Evidence.ReferencedSeriesSequence e0);
           s0 ← first_item series;
           getattr (Evidence.SeriesInstanceUID s0)) with
    | Ok series =>
        match for_ (hd.planar_roi_measurement_groups sr)
                (bbox_group_body db series) (Bbox.unbound, [], None) w with
        | (w', Ok (_, poly_infos, Some tableNode)) =>
            (w', Ok (poly_infos, tableNode))
        | (w', Ok (_, _, None)) => (w', Raise UnboundLocalError)
        | (w', Raise e) => (w', Raise e)
        end
    | Raise e => (w, Raise e)
    end.
Proof.
  unfold extractBboxMetadataToVtkTableNode.
  cbv [mbind M_bind lift mret M_ret result_bind rbind].
  destruct (getattr (hd.CurrentRequestedProcedureEvidenceSequence sr))
    as [evidence|]; [|reflexivity].
  destruct (first_item evidence) as [e0|]; [|reflexivity].
  destruct (getattr (Evidence.ReferencedSeriesSequence e0)) as [series|];
    [|reflexivity].
  destruct (first_item series) as [s0|]; [|reflexivity].
  destruct (getattr (Evidence.SeriesInstanceUID s0)) as [uid|]; [|reflexivity].
  destruct (for_ _ _ _ w) as [w1 [[[vars infos] [rows|]]|e]]; reflexivity.
Qed.

Lemma extract_runs_the_loop db sr w w' infos rows :
  extractBboxMetadataToVtkTableNode db sr w = (w', Ok (infos, rows)) ->
  exists series st',
    for_ (hd.planar_roi_measurement_groups sr) (bbox_group_body db series)
      (Bbox.unbound, [], None) w = (w', Ok st') /\
    bbox_infos st' = infos /\ st'.2 = Some rows.
Proof.
  rewrite extract_run.
  destruct (_ ≫= _) as [series|]; [|discriminate].
  destruct (for_ _ _ _ w) as [w1 [[[vars infos1] [rows1|]]|e]] eqn:Hrun;
    try discriminate.
  intros H. injection H as <- <- <-. eauto.
Qed.

(** C9, as stated, fails: a first group without Image Region POLYLINE ROI
    does not always end the extraction in an unbound-variable error.  When
    the finding type of the group holds its code value in [LongCodeValue],
    when the group has no finding type, or when the report has no evidence
    sequence, the extraction ends in [AttributeError] before any geometry
    is read. *)
Lemma extractBbox_first_group_may_fail_earlier :
  has_polyline_roi (region_group "POINT" (Some "1.2.3")) = false /\
  extractBboxMetadataToVtkTableNode sample_db
    (sample_sr [with_finding_type
                  (Some (long_coded "126000000000000001" "99X" "Lesion"))
                  (region_group "POINT" (Some "1.2.3"))]) quiet
  = (quiet, Raise AttributeError) /\
  extractBboxMetadataToVtkTableNode sample_db
    (sample_sr [with_finding_type None (region_group "POINT" (Some "1.2.3"))])
    quiet
  = (quiet, Raise AttributeError) /\
  extractBboxMetadataToVtkTableNode sample_db
    (report_of [region_group "POINT" (Some "1.2.3")]) quiet
  = (quiet, Raise AttributeError).
Proof. repeat split; vm_compute; reflexivity. Qed.

(** C9 (amended): the geometry values are read for every group although
    only the Image Region / POLYLINE branch assigns them.  When the first
    group has no such ROI the extraction always ends in an exception: in an
    unbound-variable error exactly when what is read before could be read
    (the evidence sequence names a first series, the group has a finding
    type, the finding type and the finding sites have the attribute
    CodeValue, an Image Region group has its ROI), and in [AttributeError]
    or [IndexError] otherwise.  When the extraction returns and a later
    group has no such ROI, its record carries the polyline, width, height
    and centre of the record before it (and its referenced SOP instance UID
    too, when the group is not an Image Region at all). *)
Theorem extractBbox_reads_geometry_it_did_not_assign
    (db : Database) (sr : hd.SR) (w : World) :
  (forall g rest,
     hd.planar_roi_measurement_groups sr = g :: rest ->
     has_polyline_roi g = false ->
     exists w' e,
       extractBboxMetadataToVtkTableNode db sr w = (w', Raise e) /\
       (e = UnboundLocalError \/ e = AttributeError \/ e = IndexError) /\
       (e = UnboundLocalError <->
        names_a_series sr = true /\ findings_readable g = true /\
        lacks_roi g = false)) /\
  (forall w' infos rows,
     extractBboxMetadataToVtkTableNode db sr w = (w', Ok (infos, rows)) ->
     length infos = length (hd.planar_roi_measurement_groups sr) /\
     forall k g p q,
       hd.planar_roi_measurement_groups sr !! S k = Some g ->
       has_polyline_roi g = false ->
       infos !! k = Some p -> infos !! S k = Some q ->
       PolyInfo.geometry q = PolyInfo.geometry p /\
       (is_image_region (hd.reference_type g) = false ->
        PolyInfo.SOPInstanceUID q = PolyInfo.SOPInstanceUID p)) /\
  (exists p q rows,
     extractBboxMetadataToVtkTableNode sample_db
       (sample_sr [region_group "POLYLINE" (Some "1.2.3"); segment_group]) quiet
     = (quiet, Ok ([p; q], rows)) /\
     PolyInfo.TrackingIdentifier q = "Lesion2" /\
     PolyInfo.geometry q = PolyInfo.geometry p /\
     PolyInfo.SOPInstanceUID q = PolyInfo.SOPInstanceUID p).
Proof.
  split; [|split].
  - intros g rest Hgroups Hpoly. rewrite extract_run, first_series_run, Hgroups.
    destruct (names_a_series sr).
    + cbn [for_]. rewrite M_bind_run.
      match goal with
      | |- context [bbox_group_body db ?series g _ w] =>
          destruct (first_group_fails db series g w Hpoly)
            as (w' & e & Hbody & Hkind & Hiff)
      end.
      rewrite Hbody. exists w', e. split; [reflexivity|]. split.
      * destruct Hkind as [->| ->]; auto.
      * rewrite Hiff. tauto.
    + destruct (hd.CurrentRequestedProcedureEvidenceSequence sr) as [[|e0 es]|].
      * eexists _, _. split; [reflexivity|]. split; [auto|].
        split; [discriminate|]. intros [? _]. discriminate.
      * destruct (Evidence.ReferencedSeriesSequence e0) as [[|s0 ss]|];
          eexists _, _; (split; [reflexivity|]); (split; [auto|]);
          (split; [discriminate|]); intros [? _]; discriminate.
      * eexists _, _. split; [reflexivity|]. split; [auto|].
        split; [discriminate|]. intros [? _]. discriminate.
  - intros w' infos rows Hrun.
    destruct (extract_runs_the_loop _ _ _ _ _ _ Hrun)
      as (series & st' & Hloop & <- & _).
    destruct (bbox_loop_reuses db series _ _ _ _ _ Hloop)
      as (new & Hnew & Hlen & Hreuse).
    { intros p Hp. discriminate. }
    cbn in Hnew. rewrite Hnew. split; [exact Hlen|].
    intros k g p q Hg Hpoly Hp Hq.
    apply (Hreuse (S k) g p q Hg Hpoly); [|exact Hq].
    cbn [bbox_infos fst snd app].
    rewrite last_lookup, length_take.
    apply lookup_lt_Some in Hq.
    replace (Init.Nat.pred (S k `min` length new)) with k by lia.
    rewrite lookup_take_lt by lia. exact Hp.
  - eexists _, _, _. split; [vm_compute; reflexivity|].
    repeat split; reflexivity.
Qed.

Lemma extractBbox_reads_geometry_it_did_not_assign_witness :
  exists w',
    extractBboxMetadataToVtkTableNode sample_db
      (sample_sr [region_group "POINT" (Some "1.2.3")]) quiet
    = (w', Raise UnboundLocalError).
Proof.
  destruct (proj1 (extractBbox_reads_geometry_it_did_not_assign sample_db
                     (sample_sr [region_group "POINT" (Some "1.2.3")]) quiet)
              (region_group "POINT" (Some "1.2.3")) [] eq_refl eq_refl)
    as (w' & e & Hrun & _ & Hiff).
  exists w'. rewrite Hrun. f_equal. f_equal. apply Hiff.
  repeat split.
Defined.

(** ** Length rulers *)

(** *** Floating-point facts

    What the ruler computation needs of binary64: a finite number times
    zero is a zero, and adding a zero changes a number at most in the sign
    of a zero. *)

Lemma SFcompare_refl (x : spec_float) :
  x <> S754_nan -> SFcompare x x = Some Eq.
Proof.
  destruct x as [s|s| |s m e]; intros Hx; try contradiction.
  - reflexivity.
  - destruct s; reflexivity.
  - cbn. destruct s; rewrite Z.compare_refl, Pos.compare_cont_refl; reflexivity.
Qed.

Lemma same_number_intro (a b : float) :
  Prim2SF a = Prim2SF b
  \/ (exists s t, Prim2SF a = S754_zero s /\ Prim2SF b = S754_zero t) ->
  same_number a b = true.
Proof.
  unfold same_number, is_nan. rewrite !FloatAxioms.eqb_spec.
  intros [H|(s & t & Ha & Hb)].
  - rewrite <- H. unfold SFeqb.
    destruct (Prim2SF a) eqn:E;
      try (rewrite SFcompare_refl; [reflexivity|discriminate]).
    reflexivity.
  - rewrite Ha, Hb. reflexivity.
Qed.

Lemma is_finite_cases (x : float) :
  is_finite x = true ->
  (exists s, Prim2SF x = S754_zero s)
  \/ (exists s m e, Prim2SF x = S754_finite s m e).
Proof.
  unfold is_finite, is_nan, is_infinity.
  rewrite !FloatAxioms.eqb_spec, abs_spec.
  destruct (Prim2SF x) as [s|s| |s m e] eqn:E; cbn.
  - eauto.
  - intros H. exfalso. revert H. vm_compute. destruct s; discriminate.
  - discriminate.
  - eauto.
Qed.

Lemma zero_times_finite (x : float) :
  is_finite x = true -> exists s, Prim2SF (0 * x) = S754_zero s.
Proof.
  intros H. rewrite mul_spec.
  destruct (is_finite_cases x H) as [[s ->]|(s & m & e & ->)];
    eexists; reflexivity.
Qed.

Lemma zero_times (x : float) :
  is_finite (0 * x) = true -> exists s, Prim2SF (0 * x) = S754_zero s.
Proof.
  intros H. destruct (is_finite_cases _ H) as [Hz|(s & m & e & Hf)];
    [exact Hz|].
  rewrite mul_spec in Hf.
  destruct (Prim2SF x) as [t|t| |t n k]; discriminate.
Qed.

Lemma ten_times_zero (z : float) (s : bool) :
  Prim2SF z = S754_zero s -> exists t, Prim2SF (10 * z) = S754_zero t.
Proof. intros H. rewrite mul_spec, H. eexists. reflexivity. Qed.

Lemma plus_zero (x z : float) (s : bool) :
  Prim2SF z = S754_zero s ->
  Prim2SF (x + z) = Prim2SF x
  \/ (exists s1 s2, Prim2SF x = S754_zero s1 /\ Prim2SF (x + z) = S754_zero s2).
Proof.
  intros H. rewrite add_spec, H.
  destruct (Prim2SF x) as [t|t| |t m e]; try (left; reflexivity).
  right. destruct t, s; eexists _, _; split; reflexivity.
Qed.

Lemma plus_two_zeros (x z1 z2 : float) (s1 s2 : bool) :
  Prim2SF z1 = S754_zero s1 -> Prim2SF z2 = S754_zero s2 ->
  same_number (x + z1 + z2) x = true.
Proof.
  intros H1 H2. apply same_number_intro.
  destruct (plus_zero (x + z1) z2 s2 H2) as [E2|(t1 & t2 & E2 & E2')];
    destruct (plus_zero x z1 s1 H1) as [E1|(u1 & u2 & E1 & E1')].
  - left. congruence.
  - right. exists u2, u1. split; congruence.
  - right. exists t2, t1. split; congruence.
  - right. exists t2, u1. split; congruence.
Qed.

Lemma plus_one_zero (x z : float) (s : bool) :
  Prim2SF z = S754_zero s -> same_number (x + z) x = true.
Proof.
  intros H. apply same_number_intro.
  destruct (plus_zero x z s H) as [E|(t1 & t2 & E & E')]; [now left|].
  right. eauto.
Qed.

(** The coordinates of the two ends for the polyline 0, 0, 10, 0. *)
Lemma first_end_coordinate (o c r : float) :
  is_finite c = true -> is_finite r = true ->
  same_number (o + 0 * c + 0 * r) o = true.
Proof.
  intros Hc Hr.
  destruct (zero_times_finite c Hc) as [s1 H1].
  destruct (zero_times_finite r Hr) as [s2 H2].
  exact (plus_two_zeros o _ _ s1 s2 H1 H2).
Qed.

Lemma second_end_coordinate (o c r : float) :
  is_finite r = true ->
  same_number (o + 10 * c + 0 * r) (o + 10 * c) = true.
Proof.
  intros Hr. destruct (zero_times_finite r Hr) as [s H].
  exact (plus_one_zero _ _ s H).
Qed.

Lemma second_end_coordinate_across (o spacing r : float) :
  is_finite (0 * spacing) = true -> is_finite r = true ->
  same_number (o + 10 * (0 * spacing) + 0 * r) o = true.
Proof.
  intros Hc Hr.
  destruct (zero_times spacing Hc) as [s0 H0].
  destruct (ten_times_zero _ s0 H0) as [s1 H1].
  destruct (zero_times_finite r Hr) as [s2 H2].
  exact (plus_two_zeros o _ _ s1 s2 H1 H2).
Qed.

(** C4, as stated, fails: with row spacing 2 and column spacing 3 the two
    ends of the ruler are 30 apart along x, not 10 times the row spacing. *)
Lemma ruler_ends_not_row_spacing_apart :
  exists x1 x2 rest1 rest2,
    ruler_points sample_image [0; 0; 10; 0]%float = Ok (x1 :: rest1, x2 :: rest2) /\
    same_number (x2 - x1) (10 * rowPixelSpacing sample_image) = false /\
    same_number (x2 - x1) 30 = true.
Proof.
  eexists _, _, _, _. split; [vm_compute; reflexivity|].
  split; vm_compute; reflexivity.
Qed.

(** C4 (amended): the two ends of a ruler are
    [origin + col * alongColumnVector + row * alongRowVector], computed in
    binary64, where [alongColumnVector] is the first three values of the
    orientation scaled by the column spacing (the second pixel spacing
    value) and [alongRowVector] the last three scaled by the row spacing
    (the first one); the control points are these ends with x and y
    negated.  For the polyline 0, 0, 10, 0 and finite scaled vectors, the
    first end is the origin and the second end is the origin plus 10 times
    [alongColumnVector], as numbers, whatever the row spacing and the last
    three orientation values are; the ends differ only in x when the second
    and third orientation values are 0.  Each operation is rounded, so the
    difference in x is 10 times the column spacing only up to rounding: for
    the origin -125.3 and the column spacing 0.4297 it is
    4.296999999999997, not 4.2970000000000006. *)
Theorem ruler_ends_differ_by_column_spacing
    (ox oy oz r1 r2 r3 c1 c2 c3 row_spacing col_spacing : float) :
  let reference := image_at ox oy oz r1 r2 r3 c1 c2 c3 row_spacing col_spacing in
  let patient col row :=
    [ox + col * (r1 * col_spacing) + row * (c1 * row_spacing);
     oy + col * (r2 * col_spacing) + row * (c2 * row_spacing);
     oz + col * (r3 * col_spacing) + row * (c3 * row_spacing)]%float in
  (forall col1 row1 col2 row2,
     ruler_points reference [col1; row1; col2; row2]
     = Ok (patient col1 row1, patient col2 row2) /\
     ruler_control_points reference [col1; row1; col2; row2]
     = Ok (flipped (patient col1 row1), flipped (patient col2 row2))) /\
  (all_finite [r1 * col_spacing; r2 * col_spacing; r3 * col_spacing;
               c1 * row_spacing; c2 * row_spacing; c3 * row_spacing]%float
   = true ->
   exists P1 P2,
     ruler_points reference [0; 0; 10; 0]%float = Ok (P1, P2) /\
     same_point P1 [ox; oy; oz] /\
     same_point P2
       [ox + 10 * (r1 * columnPixelSpacing reference);
        oy + 10 * (r2 * columnPixelSpacing reference);
        oz + 10 * (r3 * columnPixelSpacing reference)]%float /\
     (r2 = 0%float -> r3 = 0%float ->
      same_point P2
        [ox + 10 * (r1 * columnPixelSpacing reference); oy; oz]%float)) /\
  (exists x1 x2 rest1 rest2,
     ruler_points (image_at minus_125_3 0 0 1 0 0 0 1 0 1 spacing_0_4297)
       [0; 0; 10; 0]%float
     = Ok (x1 :: rest1, x2 :: rest2) /\
     same_number (x2 - x1) (10 * spacing_0_4297) = false) /\
  loadAdditionalMeasurements sample_db (length_report "1.2.3") quiet
  = ({| stdout := []; warnings := [];
        markups := [ {| node_name := "Reader1";
                        control_points := [flipped [0; 0; 5]%float;
                                           flipped [30; 0; 5]%float] |} ] |},
     Ok None).
Proof.
  intros reference patient. subst reference patient.
  split; [|split; [|split; [|vm_compute; reflexivity]]].
  - intros col1 row1 col2 row2. split; reflexivity.
  - intros Hfinite. unfold all_finite in Hfinite. cbn [forallb] in Hfinite.
    repeat (apply andb_prop in Hfinite; destruct Hfinite as [? Hfinite]).
    eexists _, _. split; [reflexivity|].
    change (columnPixelSpacing
              (image_at ox oy oz r1 r2 r3 c1 c2 c3 row_spacing col_spacing))
      with col_spacing.
    split; [|split].
    + repeat constructor; apply first_end_coordinate; assumption.
    + repeat constructor; apply second_end_coordinate; assumption.
    + intros -> ->. repeat constructor.
      * apply second_end_coordinate; assumption.
      * apply second_end_coordinate_across; assumption.
      * apply second_end_coordinate_across; assumption.
  - eexists _, _, _, _. split; vm_compute; reflexivity.
Qed.

Lemma ruler_ends_differ_by_column_spacing_witness :
  exists P1 P2,
    ruler_points (image_at 0 0 5 1 0 0 0 1 0 2 3) [0; 0; 10; 0]%float
    = Ok (P1, P2) /\
    same_point P1 [0; 0; 5]%float /\
    same_point P2 [0 + 10 * (1 * 3); 0; 5]%float.
Proof.
  destruct (ruler_ends_differ_by_column_spacing 0 0 5 1 0 0 0 1 0 2 3)
    as (_ & Hends & _).
  destruct (Hends eq_refl) as (P1 & P2 & Hrun & H1 & _ & Hx).
  exists P1, P2. split; [exact Hrun|]. split; [exact H1|].
  apply Hx; reflexivity.
Defined.

(** ** Images that cannot be located *)

Lemma list_index_absent (l : list string) (x : string) :
  (forall y, y ∈ l -> y <> x) -> list_index l x = Raise ValueError.
Proof.
  induction l as [|y l IH]; intros Hl; [reflexivity|].
  cbn. destruct (String.eqb y x) eqn:E.
  - apply String.eqb_eq in E. exfalso. apply (Hl y); [left | exact E].
  - rewrite IH; [reflexivity|]. intros z Hz. apply Hl. right. exact Hz.
Qed.

(** The loop of [getIPPFromSOP] over the files of the series: it collects
    the SOP instance UIDs and the positions, and raises at the first file
    that lacks one of them. *)
Lemma files_loop (db : Database) (files : list string) :
  forall (uids : list string) (positions : list (list float)),
    for_result files (file_turn db) (uids, positions)
    = if forallb (fun file => has_position (read_file db file)) files
      then Ok ((uids
                ++ ((fun file =>
                       default "" (Image.SOPInstanceUID (read_file db file)))
                    <$> files))%list,
               (positions
                ++ ((fun file =>
                       default [] (Image.ImagePositionPatient (read_file db file)))
                    <$> files))%list)
      else Raise AttributeError.
Proof.
  induction files as [|file files IH]; intros uids positions.
  - cbn. now rewrite !app_nil_r.
  - cbn [for_result forallb fmap list_fmap].
    assert (Hturn : file_turn db file (uids, positions)
                    = if has_position (read_file db file)
                      then Ok ((uids ++ [default "" (Image.SOPInstanceUID
                                                       (read_file db file))])%list,
                               (positions
                                ++ [default [] (Image.ImagePositionPatient
                                                  (read_file db file))])%list)
                      else Raise AttributeError).
    { unfold file_turn, has_position.
      destruct (Image.SOPInstanceUID (read_file db file)); [|reflexivity].
      destruct (Image.ImagePositionPatient (read_file db file)); reflexivity. }
    rewrite Hturn. destruct (has_position (read_file db file)); [|reflexivity].
    cbv [mbind result_bind rbind]. cbn [andb]. rewrite IH.
    destruct (forallb _ files); [|reflexivity].
    now rewrite <- !app_assoc.
Qed.

Lemma getIPPFromSOP_run (db : Database) (uid series : string) :
  getIPPFromSOP db uid series
  = if forallb (fun file => has_position (read_file db file))
               (filesForSeries db series)
    then
      i ← list_index
             ((fun file => default "" (Image.SOPInstanceUID (read_file db file)))
              <$> filesForSeries db series) uid;
      index ((fun file =>
                default [] (Image.ImagePositionPatient (read_file db file)))
             <$> filesForSeries db series) i
    else Raise AttributeError.
Proof.
  unfold getIPPFromSOP. cbn zeta. rewrite files_loop.
  destruct (forallb _ (filesForSeries db series)); reflexivity.
Qed.

Lemma getIPPFromSOP_absent db uid series :
  (forall file, file ∈ filesForSeries db series ->
                Image.SOPInstanceUID (read_file db file) <> Some uid) ->
  getIPPFromSOP db uid series
  = Raise (if forallb (fun file => has_position (read_file db file))
                      (filesForSeries db series)
           then ValueError else AttributeError).
Proof.
  intros Habsent. rewrite getIPPFromSOP_run.
  destruct (forallb _ (filesForSeries db series)) eqn:Hall; [|reflexivity].
  rewrite list_index_absent; [reflexivity|].
  intros y Hy. apply list_elem_of_fmap in Hy as (file & -> & Hfile).
  rewrite forallb_forall in Hall.
  pose proof (Hall file (proj1 (list_elem_of_In _ _) Hfile)) as Hpos.
  unfold has_position in Hpos.
  destruct (Image.SOPInstanceUID (read_file db file)) as [u|] eqn:Eu;
    [|discriminate].
  cbn. intros ->. apply (Habsent file Hfile). exact Eu.
Qed.

(** C5, as stated, fails for the bounding-box path: a referenced image that
    is missing from the series' files ends the extraction with an uncaught
    [ValueError] and nothing printed; and when the reference cannot be read
    off the first group's ROI, the message is printed but the extraction
    then ends in an unbound-variable error. *)
Lemma bbox_path_fails_hard_too :
  extractBboxMetadataToVtkTableNode sample_db
    (sample_sr [region_group "POLYLINE" (Some "7.7.7")]) quiet
  = (quiet, Raise ValueError) /\
  extractBboxMetadataToVtkTableNode sample_db
    (sample_sr [region_group "POLYLINE" None]) quiet
  = ({| stdout := ["Cannot access referenced SOPInstanceUID"];
        warnings := []; markups := [] |}, Raise UnboundLocalError).
Proof. split; vm_compute; reflexivity. Qed.

(** C5 (amended): the length-ruler path raises when the database has no
    file for the referenced SOP instance.  On the bounding-box path, a
    failure to read the referenced SOP instance UID off the ROI is caught:
    the message is printed and the statement after the [try] runs with the
    variable as it was.  A referenced SOP instance UID that is not among the
    files of the referenced series, though, makes [getIPPFromSOP] raise
    ([ValueError], or [AttributeError] when a file of the series has no SOP
    instance UID or no position), which the POLYLINE branch does not
    catch. *)
Theorem unlocated_image_raises_and_unreadable_reference_prints
    (db : Database) (w : World) :
  (forall contents measurement points uid observer,
     polyline measurement = Some points ->
     personObserver contents = Some observer ->
     referencedSOPInstanceUID measurement = Some uid ->
     fileForInstance db uid = "" ->
     (place_ruler db contents measurement tt w).2
     = Raise (Exception_ (not_found_message uid))) /\
  (forall series roi vars e,
     roi_referenced_sop_instance_uid roi = Raise e ->
     image_region_branch db series roi vars w
     = after_try db series roi vars
         {| stdout := (stdout w ++ ["Cannot access referenced SOPInstanceUID"])%list;
            warnings := warnings w; markups := markups w |}) /\
  (forall series uid,
     (forall file, file ∈ filesForSeries db series ->
                   Image.SOPInstanceUID (read_file db file) <> Some uid) ->
     let e := if forallb (fun file => has_position (read_file db file))
                         (filesForSeries db series)
              then ValueError else AttributeError in
     getIPPFromSOP db uid series = Raise e /\
     forall r vars extent,
       hd.PixelOriginInterpretation r <> None ->
       Bbox.extent (hd.GraphicData r) = Ok extent ->
       Bbox.referenced_sop_instance_uid vars = Some uid ->
       polyline_branch db series r vars w = (w, Raise e)).
Proof.
  split; [|split].
  - intros contents measurement points uid observer Hp Ho Hu Hfile.
    unfold place_ruler. rewrite Hp, Ho, Hu.
    cbv [mbind M_bind mret M_ret lift getkey AddNewNodeByClass SetName
         on_markupsNode].
    rewrite Hfile. reflexivity.
  - intros series roi vars e He.
    cbv [image_region_branch mbind M_bind mret M_ret print].
    rewrite He. reflexivity.
  - intros series uid Habsent. cbn zeta.
    pose proof (getIPPFromSOP_absent db uid series Habsent) as Hipp.
    split; [exact Hipp|].
    intros r vars extent Hpoi He Hu.
    cbv [polyline_branch mbind M_bind mret M_ret lift getattr read_local].
    destruct (hd.PixelOriginInterpretation r); [|contradiction].
    rewrite He, Hu, Hipp. reflexivity.
Qed.

Lemma unlocated_image_raises_and_unreadable_reference_prints_witness :
  fileForInstance sample_db "7.7.7" = "" /\
  (place_ruler sample_db {| personObserver := Some "Reader1"; measurements := [] |}
     {| trackingIdentifier := Some "Tumor1"; trackingUniqueIdentifier := None;
        findingSite := None; polyline := Some [0; 0; 10; 0]%float;
        referencedSOPInstanceUID := Some "7.7.7" |} tt quiet).2
  = Raise (Exception_ (not_found_message "7.7.7")).
Proof.
  split; [reflexivity|].
  apply (unlocated_image_raises_and_unreadable_reference_prints sample_db quiet)
    with (points := [0; 0; 10; 0]%float) (observer := "Reader1"); reflexivity.
Defined.

(** ** References of a report *)

Lemma foldl_preserves {A B C} (proj : A -> C) (f : A -> B -> A) :
  (forall a b, proj (f a b) = proj a) ->
  forall l a, proj (foldl f a l) = proj a.
Proof.
  intros Hf l. induction l as [|b l IH]; intros a; [reflexivity|].
  cbn [foldl]. rewrite IH. apply Hf.
Qed.

Lemma odict_get_set {V} (d : odict V) (key : string) (v : V) :
  odict_get (odict_set d key v) key = Ok v.
Proof.
  induction d as [|[k v'] d IH]; cbn.
  - rewrite String.eqb_refl. reflexivity.
  - destruct (String.eqb k key) eqn:E; cbn; rewrite E; [reflexivity | exact IH].
Qed.

Lemma odict_get_append (d : odict (list string)) (key x : string) l :
  odict_get d key = Ok l ->
  odict_get (odict_append d key x) key = Ok (l ++ [x])%list.
Proof. intros H. unfold odict_append. rewrite H. apply odict_get_set. Qed.

Lemma odict_get_key {V} (d : odict V) key v :
  odict_get d key = Ok v -> key ∈ d.*1.
Proof.
  induction d as [|[k v'] d IH]; cbn; [discriminate|].
  destruct (String.eqb k key) eqn:E.
  - apply String.eqb_eq in E. subst. intros _. left.
  - intros H. right. now apply IH.
Qed.

Lemma odict_set_keys {V} (d : odict V) key v :
  (odict_set d key v).*1
  = if bool_decide (key ∈ d.*1) then d.*1 else (d.*1 ++ [key])%list.
Proof.
  induction d as [|[k v'] d IH]; cbn.
  - rewrite bool_decide_eq_false_2; [reflexivity|]. apply not_elem_of_nil.
  - destruct (String.eqb k key) eqn:E.
    + apply String.eqb_eq in E. subst. cbn.
      rewrite bool_decide_eq_true_2; [reflexivity|]. left.
    + apply String.eqb_neq in E. cbn. rewrite IH.
      destruct (bool_decide (key ∈ d.*1)) eqn:D.
      * apply bool_decide_eq_true in D.
        rewrite bool_decide_eq_true_2; [reflexivity|]. now right.
      * apply bool_decide_eq_false in D.
        rewrite bool_decide_eq_false_2; [reflexivity|].
        intros Hin. apply elem_of_cons in Hin. destruct Hin; congruence.
Qed.

Lemma odict_append_keys (d : odict (list string)) key x :
  (odict_append d key x).*1 = d.*1.
Proof.
  unfold odict_append. destruct (odict_get d key) as [l|] eqn:E; [|reflexivity].
  rewrite odict_set_keys, bool_decide_eq_true_2; [reflexivity|].
  eapply odict_get_key. exact E.
Qed.

Lemma adds_nothing uid l : adds_segmentations uid [] l l.
Proof.
  split; [|split; [|split]]; try reflexivity.
  intros old H. now rewrite app_nil_r.
Qed.

Lemma adds_more uid a b l l1 l2 :
  adds_segmentations uid a l l1 -> adds_segmentations uid b l1 l2 ->
  adds_segmentations uid (a ++ b) l l2.
Proof.
  intros (Ha & Hk & Hi & Hs) (Hb & Hk' & Hi' & Hs').
  split; [|split; [|split]]; try congruence.
  intros old H. rewrite app_assoc. apply Hb, Ha, H.
Qed.

(** One reference: the attributes that its branch reads decide whether the
    turn completes. *)
Lemma classify_reference_run uid series reference loadable :
  if reference_readable series reference
  then exists loadable',
         classify_reference uid series reference loadable = Ok loadable' /\
         adds_segmentations uid
           (if is_segmentation reference
            then [default "" (Evidence.SeriesInstanceUID series)] else [])
           loadable loadable'
  else classify_reference uid series reference loadable = Raise AttributeError.
Proof.
  unfold reference_readable, classify_reference, is_segmentation.
  destruct (ReferencedSOPClassUID reference) as [class|]; [|reflexivity].
  cbv [mbind result_bind rbind getattr].
  destruct (String.eqb class UID_SegmentationStorage); cbn [orb].
  - destruct (Evidence.SeriesInstanceUID series) as [s|]; cbn; [|reflexivity].
    eexists. split; [reflexivity|].
    split; [|split; [|split]]; try reflexivity.
    + intros old H. cbn. apply odict_get_append. exact H.
    + cbn. apply odict_append_keys.
  - destruct (String.eqb class UID_RealWorldValueMappingStorage).
    + destruct (Evidence.SeriesInstanceUID series) as [s|]; cbn; [|reflexivity].
      eexists. split; [reflexivity|].
      split; [|split; [|split]]; try reflexivity.
      intros old H. cbn. now rewrite app_nil_r.
    + destruct (ReferencedSOPInstanceUID reference) as [i|]; cbn; [|reflexivity].
      eexists. split; [reflexivity|].
      split; [|split; [|split]]; try reflexivity.
      intros old H. cbn. now rewrite app_nil_r.
Qed.

(** A loop whose turns either complete, adding to the entry of [uid], or
    raise AttributeError: it completes when every turn can, and raises
    AttributeError otherwise. *)
Lemma for_result_adds {A} (uid : string)
    (body : A -> Loadable -> result Loadable) (ok : A -> bool)
    (added : A -> list string) :
  (forall x l,
     if ok x
     then exists l', body x l = Ok l' /\ adds_segmentations uid (added x) l l'
     else body x l = Raise AttributeError) ->
  forall xs l,
    if forallb ok xs
    then exists l',
           for_result xs body l = Ok l' /\
           adds_segmentations uid (concat (added <$> xs)) l l'
    else for_result xs body l = Raise AttributeError.
Proof.
  intros Hbody xs. induction xs as [|x xs IH]; intros l.
  - cbn. exists l. split; [reflexivity|apply adds_nothing].
  - cbn [forallb for_result]. cbv [mbind result_bind rbind].
    specialize (Hbody x l). destruct (ok x); cbn [andb].
    + destruct Hbody as (l1 & -> & H1). specialize (IH l1).
      destruct (forallb ok xs).
      * destruct IH as (l2 & -> & H2). exists l2. split; [reflexivity|].
        rewrite fmap_cons. cbn [concat]. eapply adds_more; eassumption.
      * exact IH.
    + rewrite Hbody. reflexivity.
Qed.

Lemma series_segmentations_concat (series : Evidence.ReferencedSeries)
    (references : list ReferencedSOP) :
  concat ((fun reference =>
             if is_segmentation reference
             then [default "" (Evidence.SeriesInstanceUID series)] else [])
          <$> references)
  = (fun _ => default "" (Evidence.SeriesInstanceUID series))
      <$> filter (fun reference => is_segmentation reference = true) references.
Proof.
  induction references as [|reference references IH]; [reflexivity|].
  rewrite fmap_cons, filter_cons. cbn [concat]. rewrite IH.
  destruct (is_segmentation reference).
  - rewrite decide_True by reflexivity. reflexivity.
  - rewrite decide_False by discriminate. reflexivity.
Qed.

Lemma series_turn_run uid series loadable :
  if series_readable series
  then exists loadable',
         series_turn uid series loadable = Ok loadable' /\
         adds_segmentations uid (series_segmentations series) loadable loadable'
  else series_turn uid series loadable = Raise AttributeError.
Proof.
  unfold series_readable, series_turn, series_segmentations.
  destruct (Evidence.ReferencedSOPSequence series) as [references|];
    [|reflexivity].
  cbv [mbind result_bind rbind getattr]. cbn [default].
  rewrite <- series_segmentations_concat.
  apply (for_result_adds uid (classify_reference uid series)
           (reference_readable series)).
  intros reference l. apply classify_reference_run.
Qed.

Lemma evidence_turn_run uid item loadable :
  if item_readable item
  then exists loadable',
         evidence_turn uid item loadable = Ok loadable' /\
         adds_segmentations uid
           (concat (series_segmentations
                    <$> default [] (Evidence.ReferencedSeriesSequence item)))
           loadable loadable'
  else evidence_turn uid item loadable = Raise AttributeError.
Proof.
  unfold item_readable, evidence_turn.
  destruct (Evidence.ReferencedSeriesSequence item) as [series|];
    [|reflexivity].
  cbv [mbind result_bind rbind getattr]. cbn [default].
  apply (for_result_adds uid (series_turn uid) series_readable).
  intros s l. apply series_turn_run.
Qed.

Lemma scan_evidence_run uid evidence loadable :
  if forallb item_readable evidence
  then exists loadable',
         scan_evidence uid evidence loadable = Ok loadable' /\
         adds_segmentations uid (evidence_segmentations evidence)
           loadable loadable'
  else scan_evidence uid evidence loadable = Raise AttributeError.
Proof.
  unfold scan_evidence, evidence_segmentations.
  apply (for_result_adds uid (evidence_turn uid) item_readable
           (fun item =>
              concat (series_segmentations
                      <$> default [] (Evidence.ReferencedSeriesSequence item)))).
  intros item l. apply evidence_turn_run.
Qed.

Lemma add_instances_keeps_references {A B} (f : A -> list B)
    (g : B -> list string) (xs : list A) :
  forall loadable,
    let loadable' :=
      foldl (fun loadable x =>
               foldl (fun loadable y =>
                        with_instances (fun l => l ++ g y)%list loadable)
                     loadable (f x))
            loadable xs in
    ReferencedSegmentationInstanceUIDs loadable'
    = ReferencedSegmentationInstanceUIDs loadable /\
    ReferencedRWVMSeriesInstanceUIDs loadable'
    = ReferencedRWVMSeriesInstanceUIDs loadable /\
    referencedSegInstanceUIDs loadable' = referencedSegInstanceUIDs loadable.
Proof.
  intros loadable. cbn zeta. split; [|split].
  - apply (foldl_preserves ReferencedSegmentationInstanceUIDs).
    intros a x. apply (foldl_preserves ReferencedSegmentationInstanceUIDs).
    reflexivity.
  - apply (foldl_preserves ReferencedRWVMSeriesInstanceUIDs).
    intros a x. apply (foldl_preserves ReferencedRWVMSeriesInstanceUIDs).
    reflexivity.
  - apply (foldl_preserves referencedSegInstanceUIDs).
    intros a x. apply (foldl_preserves referencedSegInstanceUIDs).
    reflexivity.
Qed.

Lemma add_instances_collects {A} (f : A -> list (list string)) (xs : list A) :
  forall loadable,
    let loadable' :=
      foldl (fun loadable x =>
               foldl (fun loadable y =>
                        with_instances (fun l => l ++ y)%list loadable)
                     loadable (f x))
            loadable xs in
    referencedInstanceUIDs loadable'
    = (referencedInstanceUIDs loadable ++ concat (concat (f <$> xs)))%list.
Proof.
  induction xs as [|x xs IH]; intros loadable.
  - cbn. now rewrite app_nil_r.
  - cbn [foldl]. cbn zeta in *. rewrite IH. clear IH.
    rewrite fmap_cons. cbn [concat]. rewrite concat_app, app_assoc. f_equal.
    generalize (f x). intros ys. revert loadable.
    induction ys as [|y ys IHy]; intros loadable.
    + cbn. now rewrite app_nil_r.
    + cbn [foldl concat]. rewrite IHy. cbn. now rewrite app_assoc.
Qed.

(** One turn of the loop over the datasets: it completes when the evidence
    sequence of the report can be read, and raises AttributeError
    otherwise.  When it completes, the entry of the report in the dictionary
    holds the Segmentation series that the report references. *)
Lemma dataset_turn_run db examine dataset st :
  let uid := getDICOMString dataset "SOPInstanceUID" in
  if evidence_readable dataset
  then exists loadable',
         dataset_turn db examine dataset st = Ok (loadable', Some uid) /\
         odict_get (ReferencedSegmentationInstanceUIDs loadable') uid
         = Ok (dataset_segmentations dataset) /\
         (ReferencedSegmentationInstanceUIDs loadable').*1
         = (if bool_decide (uid ∈ (ReferencedSegmentationInstanceUIDs st.1).*1)
            then (ReferencedSegmentationInstanceUIDs st.1).*1
            else (ReferencedSegmentationInstanceUIDs st.1).*1 ++ [uid])%list /\
         referencedInstanceUIDs loadable'
         = (referencedInstanceUIDs st.1
            ++ segmentation_instances db examine dataset)%list /\
         referencedSegInstanceUIDs loadable' = referencedSegInstanceUIDs st.1
  else dataset_turn db examine dataset st = Raise AttributeError.
Proof.
  cbn zeta. unfold dataset_turn, evidence_readable. cbn [fst].
  set (uid := getDICOMString dataset "SOPInstanceUID").
  set (start := with_segmentations (fun d => odict_set d uid []) st.1).
  assert (Hscan :
    if evidence_readable dataset
    then exists scanned,
           match CurrentRequestedProcedureEvidenceSequence dataset with
           | Some evidence => scan_evidence uid evidence start
           | None => Ok start
           end = Ok scanned /\
           adds_segmentations uid (dataset_segmentations dataset) start scanned
    else match CurrentRequestedProcedureEvidenceSequence dataset with
         | Some evidence => scan_evidence uid evidence start
         | None => Ok start
         end = Raise AttributeError).
  { unfold evidence_readable, dataset_segmentations.
    destruct (CurrentRequestedProcedureEvidenceSequence dataset) as [evidence|].
    - apply scan_evidence_run.
    - exists start. split; [reflexivity|apply adds_nothing]. }
  unfold evidence_readable in Hscan.
  destruct (match CurrentRequestedProcedureEvidenceSequence dataset with
            | Some evidence => forallb item_readable evidence
            | None => true
            end).
  - destruct Hscan as (scanned & -> & Hadd & Hkeys & Hinst & Hseg).
    cbv [mbind result_bind rbind].
    assert (Hsegs : odict_get (ReferencedSegmentationInstanceUIDs scanned) uid
                    = Ok (dataset_segmentations dataset)).
    { apply (Hadd []). cbn. apply odict_get_set. }
    rewrite Hsegs. eexists. split; [reflexivity|].
    match goal with
    | |- context [foldl ?F ?L ?XS] =>
        destruct (add_instances_keeps_references
                    (fun segSeriesInstanceUID =>
                       examine (filesForSeries db segSeriesInstanceUID))
                    (fun segLoadable => segLoadable) XS L) as (Hs & _ & Hg)
    end.
    cbn zeta in Hs, Hg. rewrite Hs, Hg. clear Hs Hg.
    split; [exact Hsegs|]. split; [|split].
    + rewrite Hkeys. unfold start. cbn. apply odict_set_keys.
    + rewrite (add_instances_collects
                 (fun segSeriesInstanceUID =>
                    examine (filesForSeries db segSeriesInstanceUID))).
      rewrite Hinst. reflexivity.
    + rewrite Hseg. reflexivity.
  - rewrite Hscan. reflexivity.
Qed.

(** The loop over the datasets: it completes when every report can be read.
    The keys of the dictionary are then the UIDs of the reports, each once,
    and the referenced instances are collected report by report. *)
Lemma datasets_loop db examine datasets :
  forall st,
    if forallb evidence_readable datasets
    then exists st',
           for_result datasets (dataset_turn db examine) st = Ok st' /\
           referencedSegInstanceUIDs st'.1 = referencedSegInstanceUIDs st.1 /\
           referencedInstanceUIDs st'.1
           = (referencedInstanceUIDs st.1
              ++ concat (segmentation_instances db examine <$> datasets))%list /\
           (forall u, u ∈ (ReferencedSegmentationInstanceUIDs st'.1).*1 <->
                      u ∈ (ReferencedSegmentationInstanceUIDs st.1).*1
                      \/ u ∈ report_uids datasets) /\
           (NoDup (ReferencedSegmentationInstanceUIDs st.1).*1 ->
            NoDup (ReferencedSegmentationInstanceUIDs st'.1).*1)
    else for_result datasets (dataset_turn db examine) st
         = Raise AttributeError.
Proof.
  induction datasets as [|dataset datasets IH]; intros st.
  - cbn. exists st. split; [reflexivity|]. split; [reflexivity|].
    split; [now rewrite app_nil_r|]. split; [|auto].
    intros u. split; [now left|]. intros [H|H]; [assumption|inversion H].
  - cbn [forallb for_result]. cbv [mbind result_bind rbind].
    pose proof (dataset_turn_run db examine dataset st) as Hturn.
    cbn zeta in Hturn.
    set (uid := getDICOMString dataset "SOPInstanceUID") in *.
    destruct (evidence_readable dataset); cbn [andb];
      [|rewrite Hturn; reflexivity].
    destruct Hturn as (l1 & -> & _ & Hkeys & Hinst & Hseg).
    specialize (IH (l1, Some uid)). cbn [fst] in IH.
    destruct (forallb evidence_readable datasets); [|exact IH].
    destruct IH as (st' & -> & Hs & Hi & Hmem & Hn).
    exists st'. split; [reflexivity|]. split; [congruence|].
    split; [|split].
    + rewrite Hi, Hinst, fmap_cons. cbn [concat]. now rewrite app_assoc.
    + intros u. rewrite Hmem, Hkeys. unfold report_uids. rewrite fmap_cons.
      fold uid. rewrite elem_of_cons.
      destruct (bool_decide _) eqn:D.
      * apply bool_decide_eq_true in D. split; [tauto|].
        intros [H|[->|H]]; tauto.
      * rewrite elem_of_app, list_elem_of_singleton. tauto.
    + intros Hnodup. apply Hn. rewrite Hkeys.
      destruct (bool_decide _) eqn:D; [assumption|].
      apply bool_decide_eq_false in D.
      apply NoDup_app. split; [assumption|]. split.
      * intros x Hx Hx'. apply list_elem_of_singleton in Hx'. now subst.
      * apply NoDup_singleton.
Qed.

(** The statements after the loop, for a loop that has ended with the
    loadable [l0] and the report [uid], whose entry in the dictionary is
    [segs]. *)
Lemma createLoadable_after_the_loop db examine datasets l0 uid segs w :
  for_result datasets (dataset_turn db examine) (new_loadable, None)
  = Ok (l0, Some uid) ->
  odict_get (ReferencedSegmentationInstanceUIDs l0) uid = Ok segs ->
  let loadable :=
    foldl (fun loadable (segUID : string * list string) =>
             with_seg_instances (fun l => l ++ [segUID.1])%list loadable)
          (with_instances list_set l0)
          (ReferencedSegmentationInstanceUIDs l0) in
  createLoadableAndAddReferences db examine datasets w
  = ({| stdout := stdout w;
        warnings :=
          (warnings w
           ++ (if (1 <? length segs)%nat then [SEG_warning] else [])
           ++ (if (1 <? length (ReferencedRWVMSeriesInstanceUIDs loadable))%nat
               then [RWVM_warning] else []))%list;
        markups := markups w |}, Ok loadable).
Proof.
  intros Hloop Hsegs. cbn zeta. unfold createLoadableAndAddReferences.
  rewrite Hloop. cbv [mbind M_bind mret M_ret lift read_local].
  cbn [with_instances ReferencedSegmentationInstanceUIDs
       ReferencedRWVMSeriesInstanceUIDs].
  rewrite Hsegs.
  match goal with
  | |- context [foldl ?F ?L ?XS] => set (final := foldl F L XS)
  end.
  destruct w as [out warn marks].
  cbv [logging_warning warnings stdout markups].
  destruct (1 <? length segs)%nat;
    destruct (1 <? length (ReferencedRWVMSeriesInstanceUIDs final))%nat;
    rewrite ?app_nil_r, <- ?app_assoc; reflexivity.
Qed.

(** With at least one dataset: the call returns when every report can be
    read, and what it logs is decided by the entry of the last report. *)
Lemma createLoadable_run db examine earlier last_dataset w :
  if forallb evidence_readable (earlier ++ [last_dataset])
  then exists loadable,
         createLoadableAndAddReferences db examine
           (earlier ++ [last_dataset])%list w
         = ({| stdout := stdout w;
               warnings :=
                 (warnings w
                  ++ (if (1 <? length (dataset_segmentations last_dataset))%nat
                      then [SEG_warning] else [])
                  ++ (if (1 <? length
                                 (ReferencedRWVMSeriesInstanceUIDs loadable))%nat
                      then [RWVM_warning] else []))%list;
               markups := markups w |}, Ok loadable)
  else createLoadableAndAddReferences db examine
         (earlier ++ [last_dataset])%list w
       = (w, Raise AttributeError).
Proof.
  pose proof (datasets_loop db examine earlier (new_loadable, None)) as Hloop.
  pose proof (for_result_app earlier [last_dataset] (dataset_turn db examine)
                (new_loadable, None)) as Happ.
  rewrite forallb_app. cbn [forallb]. rewrite andb_true_r.
  destruct (forallb evidence_readable earlier); cbn [andb].
  - destruct Hloop as (st & Hst & _). rewrite Hst in Happ.
    cbn [for_result] in Happ. cbv [mbind result_bind rbind] in Happ.
    pose proof (dataset_turn_run db examine last_dataset st) as Hturn.
    cbn zeta in Hturn.
    destruct (evidence_readable last_dataset).
    + destruct Hturn as (l0 & Hl0 & Hsegs & _). rewrite Hl0 in Happ.
      eexists. eapply createLoadable_after_the_loop; eassumption.
    + rewrite Hturn in Happ. unfold createLoadableAndAddReferences.
      rewrite Happ. reflexivity.
  - rewrite Hloop in Happ. unfold createLoadableAndAddReferences.
    rewrite Happ. reflexivity.
Qed.

(** C6 fails on the code, by the indentation of the check: the test for
    more than one SEG reference stands after the loop over the datasets and
    consults only the report visited last, so the warning is decided by the
    last report alone.  For reports whose evidence sequences can be read,
    the call returns and logs the SEG warning exactly when the last report
    references more than one segmentation series; when some evidence
    sequence lacks an attribute that the loops read, the call raises
    AttributeError and logs nothing.  For the reports [1.1] (two
    segmentation series) and [1.2] (no references), in this order, nothing
    is logged, while both references are kept; the first report alone does
    log the warning. *)
Theorem createLoadable_warns_for_last_report_only
    (db : Database) (examine : list string -> list (list string))
    (earlier : list Dataset) (last_dataset : Dataset) (w : World) :
  (forallb evidence_readable (earlier ++ [last_dataset]) = true ->
   exists loadable,
     createLoadableAndAddReferences db examine
       (earlier ++ [last_dataset])%list w
     = ({| stdout := stdout w;
           warnings :=
             (warnings w
              ++ (if (1 <? length (dataset_segmentations last_dataset))%nat
                  then [SEG_warning] else [])
              ++ (if (1 <? length (ReferencedRWVMSeriesInstanceUIDs loadable))%nat
                  then [RWVM_warning] else []))%list;
           markups := markups w |}, Ok loadable)) /\
  (forallb evidence_readable (earlier ++ [last_dataset]) = false ->
   createLoadableAndAddReferences db examine (earlier ++ [last_dataset])%list w
   = (w, Raise AttributeError)) /\
  dataset_segmentations report_with_two_segmentations = ["5.1"; "5.2"] /\
  (exists loadable,
     createLoadableAndAddReferences sample_db no_segmentation_loadables
       [report_with_two_segmentations; report_without_references] quiet
     = (quiet, Ok loadable) /\
     ReferencedSegmentationInstanceUIDs loadable
     = [("1.1", ["5.1"; "5.2"]); ("1.2", [])]) /\
  (exists loadable,
     createLoadableAndAddReferences sample_db no_segmentation_loadables
       [report_with_two_segmentations] quiet
     = ({| stdout := []; warnings := [SEG_warning]; markups := [] |},
        Ok loadable)).
Proof.
  pose proof (createLoadable_run db examine earlier last_dataset w) as Hrun.
  split; [|split; [|split; [reflexivity|split]]].
  - intros H. rewrite H in Hrun. exact Hrun.
  - intros H. rewrite H in Hrun. exact Hrun.
  - eexists. split; vm_compute; reflexivity.
  - eexists. vm_compute. reflexivity.
Qed.

Lemma createLoadable_warns_for_last_report_only_witness :
  forallb evidence_readable
    ([report_with_two_segmentations] ++ [report_without_references]) = true /\
  exists loadable,
    createLoadableAndAddReferences sample_db no_segmentation_loadables
      ([report_with_two_segmentations] ++ [report_without_references])%list
      quiet
    = ({| stdout := stdout quiet;
          warnings :=
            (warnings quiet
             ++ (if (1 <? length
                            (dataset_segmentations report_without_references))%nat
                 then [SEG_warning] else [])
             ++ (if (1 <? length (ReferencedRWVMSeriesInstanceUIDs loadable))%nat
                 then [RWVM_warning] else []))%list;
          markups := markups quiet |}, Ok loadable).
Proof.
  split; [reflexivity|].
  apply (createLoadable_warns_for_last_report_only sample_db
           no_segmentation_loadables [report_with_two_segmentations]
           report_without_references quiet).
  reflexivity.
Defined.

(** ** [getDateTime] and [sortReportsByDateTime] *)

Lemma list_ascii_length (s : string) :
  length (list_ascii_of_string s) = String.length s.
Proof. induction s as [|c s IH]; simpl; [reflexivity|f_equal; exact IH]. Qed.

Lemma string_app_length (s1 s2 : string) :
  String.length (s1 ++ s2) = (String.length s1 + String.length s2)%nat.
Proof. induction s1 as [|c s1 IH]; simpl; [reflexivity|f_equal; exact IH]. Qed.

Lemma two_digits_uses ok s v r :
  (v, r) ∈ two_digits ok s -> length s = S (S (length r)).
Proof.
  destruct s as [|a [|b rest]]; cbn; try (intros H; inversion H; fail).
  destruct (digit a), (digit b); try (intros H; inversion H; fail).
  destruct (ok _ _); intros H; [|inversion H].
  apply list_elem_of_singleton in H. now inversion H.
Qed.

Lemma one_digit_uses ok s v r :
  (v, r) ∈ one_digit ok s -> length s = S (length r).
Proof.
  destruct s as [|a rest]; cbn; try (intros H; inversion H; fail).
  destruct (digit a); try (intros H; inversion H; fail).
  destruct (ok _); intros H; [|inversion H].
  apply list_elem_of_singleton in H. now inversion H.
Qed.

Lemma directive_Y_uses s v r :
  (v, r) ∈ directive_Y s -> length s = (4 + length r)%nat.
Proof.
  destruct s as [|a [|b [|c [|d rest]]]]; cbn;
    try (intros H; inversion H; fail).
  destruct (digit a), (digit b), (digit c), (digit d);
    try (intros H; inversion H; fail).
  intros H. apply list_elem_of_singleton in H. now inversion H.
Qed.

Ltac directive_uses :=
  repeat match goal with
  | H : _ ∈ (_ ++ _)%list |- _ => apply elem_of_app in H; destruct H as [H|H]
  | H : _ ∈ two_digits _ _ |- _ => apply two_digits_uses in H
  | H : _ ∈ one_digit _ _ |- _ => apply one_digit_uses in H
  end.

Lemma directive_m_uses s v r :
  (v, r) ∈ directive_m s -> (length s <= 2 + length r)%nat.
Proof. unfold directive_m. intros H. directive_uses; lia. Qed.

Lemma directive_d_uses s v r :
  (v, r) ∈ directive_d s -> (length s <= 2 + length r)%nat.
Proof.
  unfold directive_d. intros H. directive_uses; try lia.
  destruct s as [|c rest]; [inversion H|].
  destruct (ascii_dec c " "%char) as [->|Hc].
  - directive_uses. cbn. lia.
  - destruct c as [[] [] [] [] [] [] [] []]; try (inversion H; fail).
    now contradict Hc.
Qed.

Lemma directive_H_uses s v r :
  (v, r) ∈ directive_H s -> (length s <= 2 + length r)%nat.
Proof. unfold directive_H. intros H. directive_uses; lia. Qed.

Lemma directive_M_uses s v r :
  (v, r) ∈ directive_M s -> (length s <= 2 + length r)%nat.
Proof. unfold directive_M. intros H. directive_uses; lia. Qed.

Lemma directive_S_uses s v r :
  (v, r) ∈ directive_S s -> (length s <= 2 + length r)%nat.
Proof. unfold directive_S. intros H. directive_uses; lia. Qed.

(** The expression takes at most fourteen characters. *)
Lemma format_matches_uses s t r :
  (t, r) ∈ format_matches s -> (length s <= 14 + length r)%nat.
Proof.
  unfold format_matches. intros H.
  repeat (apply list_elem_of_bind in H; destruct H as ([? ?] & H & ?)).
  apply list_elem_of_singleton in H. inversion H; subst.
  repeat match goal with
  | H : _ ∈ directive_Y _ |- _ => apply directive_Y_uses in H
  | H : _ ∈ directive_m _ |- _ => apply directive_m_uses in H
  | H : _ ∈ directive_d _ |- _ => apply directive_d_uses in H
  | H : _ ∈ directive_H _ |- _ => apply directive_H_uses in H
  | H : _ ∈ directive_M _ |- _ => apply directive_M_uses in H
  | H : _ ∈ directive_S _ |- _ => apply directive_S_uses in H
  end.
  lia.
Qed.

Lemma strptime_raises_ValueError_only s e :
  strptime s = Raise e -> e = ValueError.
Proof.
  unfold strptime.
  destruct (format_matches _) as [|[t [|c rest]] l]; try congruence.
  destruct (valid_datetime t); congruence.
Qed.

Lemma strptime_too_long s :
  (14 < String.length s)%nat -> strptime s = Raise ValueError.
Proof.
  intros Hlen. unfold strptime.
  destruct (format_matches _) as [|[t rest] l] eqn:E; [reflexivity|].
  assert (Hin : (t, rest) ∈ format_matches (list_ascii_of_string s))
    by (rewrite E; left).
  apply format_matches_uses in Hin. rewrite list_ascii_length in Hin.
  destruct rest; [cbn in Hin; lia|reflexivity].
Qed.

Lemma getDateTime_total read_report uid :
  exists key, getDateTime read_report uid = Ok key.
Proof.
  unfold getDateTime.
  destruct (SeriesDate (read_report uid)), (SeriesTime (read_report uid)),
    (StudyDate (read_report uid)), (StudyTime (read_report uid));
  match goal with |- context [strptime ?s] => destruct (strptime s) eqn:E end;
  try (eexists; reflexivity);
  apply strptime_raises_ValueError_only in E; subst; eexists; reflexivity.
Qed.


Lemma keyed_spec read_report uids :
  exists pairs,
    keyed read_report uids = Ok pairs /\
    map snd pairs = uids /\
    Forall (fun p => getDateTime read_report p.2 = Ok p.1) pairs.
Proof.
  induction uids as [|uid rest (pairs & Hk & Hs & Hf)]; cbn.
  - exists []. repeat split; constructor.
  - destruct (getDateTime_total read_report uid) as [key Hkey].
    rewrite Hkey, Hk. exists ((key, uid) :: pairs).
    repeat split; [cbn; now rewrite Hs|constructor; assumption].
Qed.

Lemma lex_ltb_asym x y : lex_ltb x y = true -> lex_ltb y x = false.
Proof.
  revert y. induction x as [|u x IH]; intros [|v y]; cbn [lex_ltb];
    try congruence.
  destruct (Nat.ltb_spec u v), (Nat.ltb_spec v u), (Nat.eqb_spec u v),
    (Nat.eqb_spec v u); cbn; try lia; auto.
Qed.

Lemma lex_ltb_le_trans x y z :
  length x = length y -> length y = length z ->
  lex_ltb y x = false -> lex_ltb z y = false -> lex_ltb z x = false.
Proof.
  revert y z. induction x as [|u x IH]; intros [|v y] [|w z];
    cbn [lex_ltb length]; try congruence.
  intros Hxy Hyz.
  destruct (Nat.ltb_spec v u), (Nat.ltb_spec w v), (Nat.ltb_spec w u),
    (Nat.eqb_spec v u), (Nat.eqb_spec w v), (Nat.eqb_spec w u);
    cbn; try lia; try congruence.
  apply IH; lia.
Qed.

Lemma key_le_trans {A} (p q r : timestamp * A) :
  key_le p q -> key_le q r -> key_le p r.
Proof.
  unfold key_le.
  destruct p as [[|a] ?], q as [[|b] ?], r as [[|c] ?];
    cbn [timestamp_lt fst]; try congruence.
  intros [= H1] [= H2]. f_equal. unfold datetime_ltb in *.
  apply (lex_ltb_le_trans (fields a) (fields b) (fields c));
    auto; reflexivity.
Qed.

(** Inserting next to keys of the same kind succeeds, keeps the elements
    and keeps the order. *)
Lemma insert_by_key_same_kind {A} (x : timestamp * A) l :
  Forall (fun p => is_at p.1 = is_at x.1) l ->
  Sorted key_le l ->
  exists l',
    insert_by_key x l = Ok l' /\ Permutation (x :: l) l' /\
    Sorted key_le l' /\
    (forall y, HdRel key_le y l -> key_le y x -> HdRel key_le y l').
Proof.
  induction l as [|y l IH]; intros Hkind Hsorted.
  - exists [x]. split; [reflexivity|]. split; [reflexivity|].
    split; [repeat constructor|]. intros y _ Hy. now constructor.
  - inversion_clear Hkind as [|? ? Hy Hl].
    inversion_clear Hsorted as [|? ? Hs Hhd].
    cbn [insert_by_key].
    destruct (timestamp_lt y.1 x.1) as [before|e] eqn:E.
    2: { destruct x as [[|?] ?], y as [[|?] ?];
           cbn [timestamp_lt fst is_at] in *; congruence. }
    cbv [mbind result_bind rbind]. destruct before.
    + destruct (IH Hl Hs) as (l' & -> & Hperm & Hs' & Hhd').
      exists (y :: l'). split; [reflexivity|]. split; [|split].
      * rewrite perm_swap. now constructor.
      * constructor; [assumption|]. apply Hhd'; [assumption|].
        unfold key_le.
        destruct x as [[|a] ?], y as [[|b] ?];
          cbn [timestamp_lt fst is_at] in *; try congruence.
        f_equal. apply lex_ltb_asym. unfold datetime_ltb in E. congruence.
      * intros z Hz _. inversion_clear Hz. now constructor.
    + exists (x :: y :: l). split; [reflexivity|]. split; [reflexivity|].
      split.
      * constructor; [now constructor|]. constructor. exact E.
      * intros z _ Hz. now constructor.
Qed.

(** Inserting next to a key of the other kind needs a comparison of a
    string with a datetime. *)
Lemma insert_by_key_other_kind {A} (x y : timestamp * A) l :
  is_at y.1 <> is_at x.1 -> insert_by_key x (y :: l) = Raise TypeError.
Proof.
  destruct x as [[|a] ?], y as [[|b] ?];
    cbn [insert_by_key timestamp_lt fst is_at]; try congruence; reflexivity.
Qed.

Lemma sort_by_key_same_kind {A} (l : list (timestamp * A)) kind :
  Forall (fun p => is_at p.1 = kind) l ->
  exists l',
    sort_by_key l = Ok l' /\ Permutation l l' /\ Sorted key_le l'.
Proof.
  induction l as [|x l IH]; intros Hkind.
  - exists []. split; [reflexivity|]. split; constructor.
  - inversion_clear Hkind as [|? ? Hx Hl].
    destruct (IH Hl) as (l' & Hsort & Hperm & Hs).
    cbn [sort_by_key]. rewrite Hsort. cbv [mbind result_bind rbind].
    destruct (insert_by_key_same_kind x l') as (l'' & -> & Hperm' & Hs' & _);
      [|assumption|].
    + rewrite <- Hperm. eapply Forall_impl; [exact Hl|].
      cbn. intros p ->. now symmetry.
    + exists l''. split; [reflexivity|]. split; [|assumption].
      rewrite <- Hperm'. now constructor.
Qed.

Lemma sort_by_key_raises_TypeError_only {A} (l : list (timestamp * A)) e :
  sort_by_key l = Raise e -> e = TypeError.
Proof.
  assert (Hins : forall (x : timestamp * A) l e,
             insert_by_key x l = Raise e -> e = TypeError).
  { intros x k. induction k as [|y k IH]; cbn; [congruence|].
    intros e'. destruct (timestamp_lt y.1 x.1) as [[]|] eqn:E;
      cbv [mbind result_bind rbind].
    - destruct (insert_by_key x k) eqn:E'; [congruence|].
      intros [= <-]. now apply IH.
    - congruence.
    - intros [= <-]. destruct x as [[|?] ?], y as [[|?] ?]; cbn [timestamp_lt fst] in E; congruence. }
  revert e. induction l as [|x l IH]; cbn; [congruence|].
  intros e. destruct (sort_by_key l); cbv [mbind result_bind rbind].
  - apply Hins.
  - intros [= <-]. now apply IH.
Qed.

(** A sort that succeeds had keys of one kind only. *)
Lemma sort_by_key_ok_one_kind {A} (l : list (timestamp * A)) l' :
  sort_by_key l = Ok l' ->
  exists kind, Forall (fun p => is_at p.1 = kind) l.
Proof.
  revert l'. induction l as [|x l IH]; intros l' E.
  - exists true. constructor.
  - cbn [sort_by_key] in E.
    destruct (sort_by_key l) as [sorted_rest|] eqn:Hrest;
      cbv [mbind result_bind rbind] in E; [|congruence].
    destruct (IH _ eq_refl) as [kind Hkind].
    destruct (sort_by_key_same_kind l kind Hkind) as (s & Hs & Hperm & _).
    rewrite Hrest in Hs. injection Hs as <-.
    destruct sorted_rest as [|y rest].
    + apply Permutation_nil_r in Hperm. subst. exists (is_at x.1).
      repeat constructor.
    + assert (Hy : is_at y.1 = kind).
      { rewrite Hperm in Hkind. now inversion Hkind. }
      destruct (bool_decide (is_at y.1 = is_at x.1)) eqn:D.
      * apply bool_decide_eq_true in D. exists kind.
        constructor; [congruence|assumption].
      * apply bool_decide_eq_false in D.
        rewrite (insert_by_key_other_kind x y rest D) in E. congruence.
Qed.

(** Keys of both kinds in one list: the sort raises. *)
Lemma sort_by_key_mixed {A} (l : list (timestamp * A)) p q :
  p ∈ l -> q ∈ l -> is_at p.1 = false -> is_at q.1 = true ->
  sort_by_key l = Raise TypeError.
Proof.
  intros Hp Hq Hpk Hqk.
  destruct (sort_by_key l) as [l'|e] eqn:E.
  - destruct (sort_by_key_ok_one_kind l l' E) as [kind Hkind].
    rewrite Forall_forall in Hkind.
    pose proof (Hkind p Hp). pose proof (Hkind q Hq). congruence.
  - apply sort_by_key_raises_TypeError_only in E. now subst.
Qed.

Lemma getDateTime_study_fallback read_report uid study_date study_time :
  SeriesDate (read_report uid) = None \/ SeriesTime (read_report uid) = None ->
  StudyDate (read_report uid) = Some study_date ->
  StudyTime (read_report uid) = Some study_time ->
  (8 <= String.length study_date)%nat ->
  getDateTime read_report uid = Ok Empty.
Proof.
  intros Hseries Hdate Htime Hlen. unfold getDateTime.
  rewrite Hdate, Htime.
  assert (Hlong : strptime (study_date ++ study_date) = Raise ValueError).
  { apply strptime_too_long. rewrite string_app_length. lia. }
  destruct Hseries as [-> | ->];
    [|destruct (SeriesDate (read_report uid))]; rewrite Hlong; reflexivity.
Qed.

Lemma sortReportsByDateTime_mixed read_report uids a b t :
  In a uids -> In b uids ->
  getDateTime read_report a = Ok Empty ->
  getDateTime read_report b = Ok (At t) ->
  sortReportsByDateTime read_report uids = Raise TypeError.
Proof.
  intros Ha Hb Hka Hkb. unfold sortReportsByDateTime.
  destruct (keyed_spec read_report uids) as (pairs & -> & Hsnd & Hkeys).
  rewrite Forall_forall in Hkeys.
  assert (Hfind : forall uid, In uid uids ->
            exists p, p ∈ pairs /\ p.2 = uid).
  { intros uid Hin. rewrite <- Hsnd in Hin. apply in_map_iff in Hin.
    destruct Hin as (p & Hp & Hin). exists p. split; [|assumption].
    now apply list_elem_of_In. }
  destruct (Hfind a Ha) as (p & Hp & Hpa).
  destruct (Hfind b Hb) as (q & Hq & Hqb).
  rewrite (sort_by_key_mixed pairs p q Hp Hq); [reflexivity| |].
  - pose proof (Hkeys p Hp) as H. rewrite Hpa, Hka in H.
    injection H as <-. reflexivity.
  - pose proof (Hkeys q Hq) as H. rewrite Hqb, Hkb in H.
    injection H as <-. reflexivity.
Qed.

(** C2 fails on the code.  In the study-level branch [getDateTime] reads
    [StudyDate] into both [date] and [time], so a report dated only at
    study level, with a study date of eight characters or more, is parsed
    from a string of at least sixteen characters, which the fourteen
    character pattern never matches: its key is the empty string whatever
    its study time is.  And [sorted] does not put the empty key first: as
    soon as the list holds a report with the empty key and a report with a
    valid key, comparing a string with a datetime raises TypeError and no
    list is returned.  The last part shows the key the claim describes for
    the sample report dated 2023-01-01 10:00:00 at study level. *)
Theorem sortReportsByDateTime_study_dated_report_breaks_order
    (read_report : string -> Dataset) (uids : list string)
    (uid other study_date study_time : string) (t : datetime) :
  SeriesDate (read_report uid) = None \/ SeriesTime (read_report uid) = None ->
  StudyDate (read_report uid) = Some study_date ->
  StudyTime (read_report uid) = Some study_time ->
  (8 <= String.length study_date)%nat ->
  In uid uids -> In other uids ->
  getDateTime read_report other = Ok (At t) ->
  getDateTime read_report uid = Ok Empty /\
  sortReportsByDateTime read_report uids = Raise TypeError /\
  specified_key sample_reports "study-dated"
  = At {| year := 2023; month := 1; day := 1;
          hour := 10; minute := 0; second := 0 |}.
Proof.
  intros Hseries Hdate Htime Hlen Huid Hother Hkey.
  pose proof (getDateTime_study_fallback _ _ _ _ Hseries Hdate Htime Hlen) as He.
  split; [exact He|]. split; [|reflexivity].
  exact (sortReportsByDateTime_mixed _ _ _ _ _ Huid Hother He Hkey).
Qed.

Lemma sortReportsByDateTime_study_dated_report_breaks_order_witness :
  getDateTime sample_reports "study-dated" = Ok Empty /\
  sortReportsByDateTime sample_reports ["series-dated"; "study-dated"]
  = Raise TypeError /\
  specified_key sample_reports "study-dated"
  = At {| year := 2023; month := 1; day := 1;
          hour := 10; minute := 0; second := 0 |}.
Proof.
  apply (sortReportsByDateTime_study_dated_report_breaks_order
           sample_reports ["series-dated"; "study-dated"]
           "study-dated" "series-dated" "20230101" "100000"
           {| year := 2022; month := 6; day := 15;
              hour := 9; minute := 0; second := 0 |}).
  - left. reflexivity.
  - reflexivity.
  - reflexivity.
  - vm_compute. lia.
  - simpl. tauto.
  - simpl. tauto.
  - reflexivity.
Defined.

(** * Further properties *)

(** ** Timestamps of reports *)

Lemma bind_head {A B} (l : list A) (f : A -> list B) x tl y tl' :
  l = x :: tl -> f x = y :: tl' -> l ≫= f = y :: (tl' ++ (tl ≫= f))%list.
Proof. intros -> Hf. cbn. rewrite Hf. reflexivity. Qed.

Lemma digit_digit_char k : (k < 10)%nat -> digit (digit_char k) = Some k.
Proof.
  intros H. do 10 (destruct k as [|k]; [reflexivity|]). lia.
Qed.

Lemma two_digits_pad2 ok v rest :
  (v < 100)%nat ->
  two_digits ok (pad2 v ++ rest)
  = if ok (v / 10)%nat (v mod 10)%nat then [(v, rest)] else [].
Proof.
  intros Hv. unfold pad2, two_digits. cbn [app].
  rewrite !digit_digit_char.
  - replace (10 * (v / 10) + v mod 10)%nat with v; [reflexivity|].
    apply Nat.div_mod_eq.
  - apply Nat.mod_upper_bound. lia.
  - apply Nat.Div0.div_lt_upper_bound. lia.
Qed.

Lemma directive_Y_pad4 y rest :
  (y < 100 * 100)%nat -> directive_Y (pad4 y ++ rest) = [(y, rest)].
Proof.
  intros Hy. unfold pad4, directive_Y. cbn [app].
  assert (H100 : (y / 100 = y / 10 / 10)%nat)
    by (rewrite Nat.Div0.div_div; reflexivity).
  assert (H1000 : (y / 1000 = y / 10 / 10 / 10)%nat)
    by (rewrite !Nat.Div0.div_div; reflexivity).
  rewrite H100, H1000.
  pose proof (Nat.div_mod_eq y 10) as E0.
  pose proof (Nat.div_mod_eq (y / 10) 10) as E1.
  pose proof (Nat.div_mod_eq (y / 10 / 10) 10) as E2.
  pose proof (Nat.mod_upper_bound y 10) as B0.
  pose proof (Nat.mod_upper_bound (y / 10) 10) as B1.
  pose proof (Nat.mod_upper_bound (y / 10 / 10) 10) as B2.
  revert E0 E1 E2 B0 B1 B2.
  generalize (y mod 10)%nat ((y / 10) mod 10)%nat ((y / 10 / 10) mod 10)%nat.
  generalize (y / 10 / 10 / 10)%nat (y / 10 / 10)%nat (y / 10)%nat.
  intros q3 q2 q1 r0 r1 r2 E0 E1 E2 B0 B1 B2.
  rewrite !digit_digit_char by lia.
  do 3 f_equal. lia.
Qed.

Tactic Notation "by_cases_below" ident(v) integer(n) :=
  do n (destruct v as [|v]; [try lia; vm_compute; eauto|]); lia.

Lemma directive_m_pad2 v rest :
  (1 <= v <= 12)%nat -> exists tl, directive_m (pad2 v ++ rest) = (v, rest) :: tl.
Proof. intros H. by_cases_below v 13. Qed.

Lemma directive_d_pad2 v rest :
  (1 <= v <= 31)%nat -> exists tl, directive_d (pad2 v ++ rest) = (v, rest) :: tl.
Proof. intros H. by_cases_below v 32. Qed.

Lemma directive_H_pad2 v rest :
  (v <= 23)%nat -> exists tl, directive_H (pad2 v ++ rest) = (v, rest) :: tl.
Proof. intros H. by_cases_below v 24. Qed.

Lemma directive_M_pad2 v rest :
  (v <= 59)%nat -> exists tl, directive_M (pad2 v ++ rest) = (v, rest) :: tl.
Proof. intros H. by_cases_below v 60. Qed.

Lemma directive_S_pad2 v rest :
  (v <= 59)%nat -> exists tl, directive_S (pad2 v ++ rest) = (v, rest) :: tl.
Proof. intros H. by_cases_below v 60. Qed.

Lemma days_in_month_le y m : (days_in_month y m <= 31)%nat.
Proof.
  unfold days_in_month.
  do 12 (destruct m as [|m]; [try destruct (is_leap y); lia|]). lia.
Qed.

Lemma list_ascii_of_string_app s1 s2 :
  list_ascii_of_string (s1 ++ s2)
  = (list_ascii_of_string s1 ++ list_ascii_of_string s2)%list.
Proof. induction s1 as [|c s1 IH]; simpl; [reflexivity|f_equal; exact IH]. Qed.

Lemma strptime_DA_TM t :
  valid_datetime t = true -> (year t < 100 * 100)%nat ->
  strptime (DA t ++ TM t) = Ok t.
Proof.
  intros Hvalid Hyear. unfold strptime, DA, TM.
  rewrite list_ascii_of_string_app, !list_ascii_of_string_of_list_ascii.
  rewrite <- !app_assoc.
  unfold valid_datetime in Hvalid.
  repeat (apply andb_prop in Hvalid; destruct Hvalid as [Hvalid ?]).
  repeat match goal with
  | H : (_ <=? _)%nat = true |- _ => apply Nat.leb_le in H
  end.
  pose proof (days_in_month_le (year t) (month t)).
  destruct (directive_m_pad2 (month t)
              (pad2 (day t) ++ pad2 (hour t) ++ pad2 (minute t) ++ pad2 (second t) ++ []))
    as [tl_m Hm]; [lia|].
  destruct (directive_d_pad2 (day t)
              (pad2 (hour t) ++ pad2 (minute t) ++ pad2 (second t) ++ []))
    as [tl_d Hd]; [lia|].
  destruct (directive_H_pad2 (hour t) (pad2 (minute t) ++ pad2 (second t) ++ []))
    as [tl_H HH]; [lia|].
  destruct (directive_M_pad2 (minute t) (pad2 (second t) ++ []))
    as [tl_M HM]; [lia|].
  destruct (directive_S_pad2 (second t) []) as [tl_S HS]; [lia|].
  unfold format_matches.
  rewrite (directive_Y_pad4 (year t)) by assumption.
  rewrite app_nil_r in *.
  erewrite bind_head; [|reflexivity|].
  2: { cbn beta iota. erewrite bind_head; [|exact Hm|].
       2: { cbn beta iota. erewrite bind_head; [|exact Hd|].
            2: { cbn beta iota. erewrite bind_head; [|exact HH|].
                 2: { cbn beta iota. erewrite bind_head; [|exact HM|].
                      2: { cbn beta iota. erewrite bind_head; [|exact HS|].
                           2: { cbn beta iota. reflexivity. }
                           reflexivity. }
                      reflexivity. }
                 reflexivity. }
            reflexivity. }
       reflexivity. }
  destruct t as [y m d hh mm ss]. cbn [year month day hour minute second] in *.
  unfold valid_datetime. cbn [year month day hour minute second].
  repeat match goal with
  | H : (_ <= _)%nat |- _ => apply Nat.leb_le in H; rewrite H; clear H
  end.
  reflexivity.
Qed.

(** X1.  A report whose series date and series time are a valid date and
    time of day in the fixed-width forms YYYYMMDD and HHMMSS gets exactly
    that moment as its key. *)
Theorem getDateTime_well_formed_series_timestamp
    (read_report : string -> Dataset) (uid : string) (t : datetime) :
  valid_datetime t = true -> (year t < 100 * 100)%nat ->
  SeriesDate (read_report uid) = Some (DA t) ->
  SeriesTime (read_report uid) = Some (TM t) ->
  getDateTime read_report uid = Ok (At t).
Proof.
  intros Hvalid Hyear Hdate Htime. unfold getDateTime.
  rewrite Hdate, Htime, (strptime_DA_TM t Hvalid Hyear). reflexivity.
Qed.

Lemma getDateTime_well_formed_series_timestamp_witness :
  getDateTime sample_reports "series-dated"
  = Ok (At {| year := 2022; month := 6; day := 15;
              hour := 9; minute := 0; second := 0 |}).
Proof.
  apply (getDateTime_well_formed_series_timestamp sample_reports "series-dated"
           {| year := 2022; month := 6; day := 15;
              hour := 9; minute := 0; second := 0 |}).
  - reflexivity.
  - vm_compute. lia.
  - reflexivity.
  - reflexivity.
Defined.

(** X2.  A series date and series time of more than fourteen characters
    together (a time with fractional seconds, say) never parse: the report
    gets the empty key, and its study date and time are not consulted. *)
Theorem getDateTime_long_series_timestamp_is_dropped
    (read_report : string -> Dataset) (uid series_date series_time : string) :
  SeriesDate (read_report uid) = Some series_date ->
  SeriesTime (read_report uid) = Some series_time ->
  (14 < String.length series_date + String.length series_time)%nat ->
  getDateTime read_report uid = Ok Empty.
Proof.
  intros Hdate Htime Hlen. unfold getDateTime. rewrite Hdate, Htime.
  rewrite strptime_too_long; [reflexivity|].
  rewrite string_app_length. exact Hlen.
Qed.

Lemma getDateTime_long_series_timestamp_is_dropped_witness :
  getDateTime
    (fun _ => dated_report (Some ("20220615", "090000.250000"))
                           (Some ("20220615", "085500")))
    "1.2.3"
  = Ok Empty.
Proof.
  apply (getDateTime_long_series_timestamp_is_dropped
           (fun _ => dated_report (Some ("20220615", "090000.250000"))
                                  (Some ("20220615", "085500")))
           "1.2.3" "20220615" "090000.250000").
  - reflexivity.
  - reflexivity.
  - vm_compute. lia.
Defined.

Lemma sort_by_key_all_empty {A} (l : list (timestamp * A)) :
  Forall (fun p => p.1 = Empty) l -> sort_by_key l = Ok l.
Proof.
  induction l as [|x l IH]; intros Hl; [reflexivity|].
  inversion_clear Hl as [|? ? Hx Hrest].
  cbn [sort_by_key]. rewrite (IH Hrest). cbv [mbind result_bind rbind].
  destruct l as [|y l']; [reflexivity|].
  inversion_clear Hrest as [|? ? Hy _].
  cbn [insert_by_key]. rewrite Hx, Hy. reflexivity.
Qed.

(** X3.  Reports none of which has a key that parses come back in the order
    they were given. *)
Theorem sortReportsByDateTime_undated_reports_keep_their_order
    (read_report : string -> Dataset) (uids : list string) :
  (forall uid, In uid uids -> getDateTime read_report uid = Ok Empty) ->
  sortReportsByDateTime read_report uids = Ok uids.
Proof.
  intros Hempty. unfold sortReportsByDateTime.
  destruct (keyed_spec read_report uids) as (pairs & -> & Hsnd & Hkeys).
  rewrite sort_by_key_all_empty; [now rewrite Hsnd|].
  rewrite Forall_forall in Hkeys |- *. intros p Hp.
  pose proof (Hkeys p Hp) as Hkey.
  rewrite Hempty in Hkey; [now injection Hkey|].
  rewrite <- Hsnd. apply in_map. now apply list_elem_of_In.
Qed.

Lemma sortReportsByDateTime_undated_reports_keep_their_order_witness :
  sortReportsByDateTime sample_reports ["undated-2"; "study-dated"; "undated-1"]
  = Ok ["undated-2"; "study-dated"; "undated-1"].
Proof.
  apply (sortReportsByDateTime_undated_reports_keep_their_order sample_reports
           ["undated-2"; "study-dated"; "undated-1"]).
  intros uid Hin. simpl in Hin.
  destruct Hin as [<-|[<-|[<-|[]]]]; reflexivity.
Defined.

(** X4.  Reports whose keys are all datetimes (or all empty) come back as a
    rearrangement of the given list in which no report is followed, at any
    distance, by one with a smaller key. *)
Theorem sortReportsByDateTime_orders_dated_reports
    (read_report : string -> Dataset) (uids : list string) (kind : bool) :
  (forall uid, In uid uids ->
     exists key, getDateTime read_report uid = Ok key /\ is_at key = kind) ->
  exists sorted_uids,
    sortReportsByDateTime read_report uids = Ok sorted_uids /\
    Permutation uids sorted_uids /\
    StronglySorted (not_after read_report) sorted_uids.
Proof.
  intros Hkind. unfold sortReportsByDateTime.
  destruct (keyed_spec read_report uids) as (pairs & -> & Hsnd & Hkeys).
  assert (Hone : Forall (fun p => is_at p.1 = kind) pairs).
  { rewrite Forall_forall in Hkeys |- *. intros p Hp.
    destruct (Hkind p.2) as (key & Hkey & Hk).
    - rewrite <- Hsnd. apply in_map. now apply list_elem_of_In.
    - rewrite (Hkeys p Hp) in Hkey. injection Hkey as <-. exact Hk. }
  destruct (sort_by_key_same_kind pairs kind Hone) as (l' & -> & Hperm & Hs).
  exists (map snd l'). split; [reflexivity|]. split.
  - rewrite <- Hsnd. now apply Permutation_map.
  - apply Sorted_StronglySorted in Hs;
      [|intros p q r; apply key_le_trans].
    assert (Hkeys' : Forall (fun p => getDateTime read_report p.2 = Ok p.1) l')
      by now rewrite <- Hperm.
    clear Hperm Hone Hkeys Hsnd.
    induction Hs as [|p l Hs IH Hall]; cbn; constructor.
    + apply IH. now inversion Hkeys'.
    + inversion_clear Hkeys' as [|? ? Hp Hl].
      apply List.Forall_forall. intros uid Hin. apply in_map_iff in Hin.
      destruct Hin as (q & <- & Hq). exists p.1, q.1.
      split; [assumption|]. split.
      * exact (proj1 (List.Forall_forall _ _) Hl q Hq).
      * exact (proj1 (List.Forall_forall _ _) Hall q Hq).
Qed.

Lemma sortReportsByDateTime_orders_dated_reports_witness :
  exists sorted_uids,
    sortReportsByDateTime
      (fun uid => dated_report (Some ("20220615", uid)) None)
      ["120000"; "093000"; "235959"]
    = Ok sorted_uids /\
    Permutation ["120000"; "093000"; "235959"] sorted_uids /\
    StronglySorted
      (not_after (fun uid => dated_report (Some ("20220615", uid)) None))
      sorted_uids.
Proof.
  apply (sortReportsByDateTime_orders_dated_reports
           (fun uid => dated_report (Some ("20220615", uid)) None)
           ["120000"; "093000"; "235959"] true).
  intros uid Hin. simpl in Hin.
  destruct Hin as [<-|[<-|[<-|[]]]]; eexists; split; reflexivity.
Defined.

(** ** References of a report, continued *)

Lemma seg_instances_appended (d : odict (list string)) loadable :
  let loadable' :=
    foldl (fun loadable (segUID : string * list string) =>
             with_seg_instances (fun l => l ++ [segUID.1])%list loadable)
          loadable d in
  referencedSegInstanceUIDs loadable'
  = (referencedSegInstanceUIDs loadable ++ d.*1)%list /\
  ReferencedSegmentationInstanceUIDs loadable'
  = ReferencedSegmentationInstanceUIDs loadable /\
  referencedInstanceUIDs loadable' = referencedInstanceUIDs loadable.
Proof.
  cbn zeta. revert loadable.
  induction d as [|[k v] d IH]; intros loadable; cbn [foldl fst].
  - cbn. now rewrite app_nil_r.
  - destruct (IH (with_seg_instances (fun l => l ++ [k])%list loadable))
      as (-> & -> & ->).
    cbn. now rewrite <- app_assoc.
Qed.

(** The loadable that a successful call returns, in terms of the loop. *)
Lemma createLoadable_returns db examine datasets w w' loadable :
  createLoadableAndAddReferences db examine datasets w = (w', Ok loadable) ->
  exists st,
    for_result datasets (dataset_turn db examine) (new_loadable, None) = Ok st /\
    loadable
    = foldl (fun loadable (segUID : string * list string) =>
               with_seg_instances (fun l => l ++ [segUID.1])%list loadable)
            (with_instances list_set st.1)
            (ReferencedSegmentationInstanceUIDs st.1).
Proof.
  unfold createLoadableAndAddReferences.
  destruct (for_result datasets _ _) as [[l0 [uid|]]|e];
    cbv [mbind M_bind mret M_ret lift read_local]; [|discriminate..].
  cbn [with_instances ReferencedSegmentationInstanceUIDs
       ReferencedRWVMSeriesInstanceUIDs fst].
  destruct (odict_get _ uid) as [segs|]; [|discriminate].
  destruct (1 <? length segs)%nat; cbv [logging_warning];
    match goal with
    | |- context [(1 <? length ?l)%nat] => destruct (1 <? length l)%nat
    end; intros [= _ <-]; eexists; (split; [reflexivity|reflexivity]).
Qed.

(** What the loop has made of the fresh loadable when a call returns. *)
Lemma createLoadable_loop db examine datasets w w' loadable :
  createLoadableAndAddReferences db examine datasets w = (w', Ok loadable) ->
  exists st : Loadable * option string,
    loadable
    = foldl (fun loadable (segUID : string * list string) =>
               with_seg_instances (fun l => l ++ [segUID.1])%list loadable)
            (with_instances list_set st.1)
            (ReferencedSegmentationInstanceUIDs st.1) /\
    referencedSegInstanceUIDs st.1 = [] /\
    referencedInstanceUIDs st.1
    = concat (segmentation_instances db examine <$> datasets) /\
    (forall u, u ∈ (ReferencedSegmentationInstanceUIDs st.1).*1
               <-> u ∈ report_uids datasets) /\
    NoDup (ReferencedSegmentationInstanceUIDs st.1).*1.
Proof.
  intros Hrun. apply createLoadable_returns in Hrun.
  destruct Hrun as (st & Hloop & Hloadable).
  pose proof (datasets_loop db examine datasets (new_loadable, None)) as H.
  destruct (forallb evidence_readable datasets); [|congruence].
  destruct H as (st' & Hst' & Hs & Hi & Hmem & Hn).
  assert (st' = st) as -> by congruence.
  exists st. split; [exact Hloadable|]. split; [exact Hs|].
  split; [exact Hi|]. split; [|apply Hn; constructor].
  intros u. rewrite Hmem. cbn. split; [|now right].
  intros [H|H]; [inversion H|assumption].
Qed.

(** X5.  [createLoadableAndAddReferences] raises UnboundLocalError on the
    empty list, where the loop leaves [uid] unbound.  With at least one
    dataset it returns a loadable, printing nothing and adding nothing to
    the scene, when the evidence sequence of every report can be read (each
    item has its series sequence, each series its SOP sequence, each
    reference its SOP class and the UID that its class asks for); when some
    report cannot be read so, it raises AttributeError and logs nothing.  A
    report whose referenced series has no series instance UID is such a
    report. *)
Theorem createLoadableAndAddReferences_returns_for_readable_reports
    (db : Database) (examine : list string -> list (list string)) (w : World) :
  createLoadableAndAddReferences db examine [] w = (w, Raise UnboundLocalError) /\
  (forall (earlier : list Dataset) (last_dataset : Dataset),
     (forallb evidence_readable (earlier ++ [last_dataset]) = true ->
      exists w' loadable,
        createLoadableAndAddReferences db examine
          (earlier ++ [last_dataset])%list w
        = (w', Ok loadable) /\
        stdout w' = stdout w /\ markups w' = markups w) /\
     (forallb evidence_readable (earlier ++ [last_dataset]) = false ->
      createLoadableAndAddReferences db examine
        (earlier ++ [last_dataset])%list w
      = (w, Raise AttributeError))) /\
  createLoadableAndAddReferences db examine
    [report_with_two_segmentations; report_without_series_uid] w
  = (w, Raise AttributeError).
Proof.
  split; [reflexivity|]. split.
  - intros earlier last_dataset.
    pose proof (createLoadable_run db examine earlier last_dataset w) as Hrun.
    split; intros H; rewrite H in Hrun; [|exact Hrun].
    destruct Hrun as (loadable & ->).
    eexists. exists loadable. split; [reflexivity|]. split; reflexivity.
  - pose proof (createLoadable_run db examine [report_with_two_segmentations]
                  report_without_series_uid w) as Hrun.
    exact Hrun.
Qed.

Lemma createLoadableAndAddReferences_returns_for_readable_reports_witness :
  forallb evidence_readable
    ([report_with_two_segmentations] ++ [report_without_references]) = true /\
  exists w' loadable,
    createLoadableAndAddReferences sample_db no_segmentation_loadables
      ([report_with_two_segmentations] ++ [report_without_references])%list
      quiet
    = (w', Ok loadable) /\
    stdout w' = stdout quiet /\ markups w' = markups quiet.
Proof.
  split; [reflexivity|].
  apply (createLoadableAndAddReferences_returns_for_readable_reports sample_db
           no_segmentation_loadables quiet).
  reflexivity.
Defined.

(** X6.  What the returned loadable lists as [referencedSegInstanceUIDs] are
    the keys of its dictionary, that is the SOP instance UIDs of the reports
    themselves, each once. *)
Theorem createLoadable_lists_the_reports_as_segmentation_references
    (db : Database) (examine : list string -> list (list string))
    (datasets : list Dataset) (w w' : World) (loadable : Loadable) :
  createLoadableAndAddReferences db examine datasets w = (w', Ok loadable) ->
  referencedSegInstanceUIDs loadable
  = (ReferencedSegmentationInstanceUIDs loadable).*1 /\
  NoDup (referencedSegInstanceUIDs loadable) /\
  forall u, u ∈ referencedSegInstanceUIDs loadable <-> u ∈ report_uids datasets.
Proof.
  intros Hrun. apply createLoadable_loop in Hrun.
  destruct Hrun as (st & Hloadable & Hseg & _ & Hmem & Hnodup).
  destruct (seg_instances_appended (ReferencedSegmentationInstanceUIDs st.1)
              (with_instances list_set st.1)) as (Hs & Hd & _).
  cbn zeta in Hs, Hd. rewrite <- Hloadable in Hs, Hd.
  cbn [with_instances referencedSegInstanceUIDs
       ReferencedSegmentationInstanceUIDs] in Hs, Hd.
  rewrite Hseg in Hs. cbn in Hs.
  rewrite Hs, Hd. split; [reflexivity|]. split; [exact Hnodup|exact Hmem].
Qed.

Lemma createLoadable_lists_the_reports_as_segmentation_references_witness :
  exists w' loadable,
    createLoadableAndAddReferences sample_db no_segmentation_loadables
      [report_with_two_segmentations; report_without_references] quiet
    = (w', Ok loadable) /\
    referencedSegInstanceUIDs loadable
    = (ReferencedSegmentationInstanceUIDs loadable).*1 /\
    NoDup (referencedSegInstanceUIDs loadable) /\
    forall u, u ∈ referencedSegInstanceUIDs loadable
              <-> u ∈ report_uids [report_with_two_segmentations;
                                   report_without_references].
Proof.
  eexists. eexists. split; [vm_compute; reflexivity|].
  eapply (createLoadable_lists_the_reports_as_segmentation_references
           sample_db no_segmentation_loadables
           [report_with_two_segmentations; report_without_references]
           quiet).
  vm_compute. reflexivity.
Defined.

(** X7.  The returned [referencedInstanceUIDs] holds no instance twice, and
    holds exactly the instances that the segmentation plugin reports for the
    Segmentation series referenced by one of the reports. *)
Theorem createLoadable_collects_each_referenced_instance_once
    (db : Database) (examine : list string -> list (list string))
    (datasets : list Dataset) (w w' : World) (loadable : Loadable) :
  createLoadableAndAddReferences db examine datasets w = (w', Ok loadable) ->
  NoDup (referencedInstanceUIDs loadable) /\
  forall x,
    x ∈ referencedInstanceUIDs loadable <->
    exists dataset,
      dataset ∈ datasets /\ x ∈ segmentation_instances db examine dataset.
Proof.
  intros Hrun. apply createLoadable_loop in Hrun.
  destruct Hrun as (st & Hloadable & _ & Hinst & _ & _).
  destruct (seg_instances_appended (ReferencedSegmentationInstanceUIDs st.1)
              (with_instances list_set st.1)) as (_ & _ & Hi).
  cbn zeta in Hi. rewrite <- Hloadable in Hi.
  cbn [with_instances referencedInstanceUIDs] in Hi.
  rewrite Hi, Hinst.
  unfold list_set. split; [apply NoDup_elements|].
  intros x. rewrite elem_of_elements, elem_of_list_to_set.
  rewrite list_elem_of_In, in_concat. split.
  - intros (l & Hl & Hx). apply list_elem_of_In, list_elem_of_fmap in Hl.
    destruct Hl as (dataset & -> & Hd). exists dataset.
    split; [assumption|]. now apply list_elem_of_In.
  - intros (dataset & Hd & Hx). exists (segmentation_instances db examine dataset).
    split; [|now apply list_elem_of_In].
    apply list_elem_of_In, list_elem_of_fmap. now exists dataset.
Qed.

Lemma createLoadable_collects_each_referenced_instance_once_witness :
  exists w' loadable,
    createLoadableAndAddReferences sample_db two_segmentation_loadables
      [report_with_two_segmentations] quiet
    = (w', Ok loadable) /\
    NoDup (referencedInstanceUIDs loadable) /\
    forall x,
      x ∈ referencedInstanceUIDs loadable <->
      exists dataset,
        dataset ∈ [report_with_two_segmentations] /\
        x ∈ segmentation_instances sample_db two_segmentation_loadables dataset.
Proof.
  eexists. eexists. split; [vm_compute; reflexivity|].
  eapply (createLoadable_collects_each_referenced_instance_once
           sample_db two_segmentation_loadables
           [report_with_two_segmentations] quiet).
  vm_compute. reflexivity.
Defined.

(** ** Looking up an image position *)

Lemma list_index_first (before after : list string) (x : string) :
  x ∉ before ->
  list_index (before ++ x :: after) x = Ok (length before).
Proof.
  induction before as [|y before IH]; intros Hnot; cbn.
  - now rewrite String.eqb_refl.
  - apply not_elem_of_cons in Hnot. destruct Hnot as [Hne Hnot].
    destruct (String.eqb y x) eqn:E.
    + apply String.eqb_eq in E. congruence.
    + rewrite (IH Hnot). reflexivity.
Qed.

(** X8.  [getIPPFromSOP] first reads the SOP instance UID and the position
    of every file of the series, and raises AttributeError when one of the
    files lacks either, whether or not the requested instance is among
    them.  When every file has both and the series holds an image with the
    requested SOP instance UID, it returns the position of the first such
    image in the order of the database's file list.  In a series of three
    files whose third has no position, the lookup of the second raises. *)
Theorem getIPPFromSOP_returns_position_of_first_match
    (db : Database) (uid series : string)
    (before : list string) (file : string) (after : list string) :
  filesForSeries db series = (before ++ file :: after)%list ->
  Image.SOPInstanceUID (read_file db file) = Some uid ->
  (forall f, f ∈ before -> Image.SOPInstanceUID (read_file db f) <> Some uid) ->
  (forallb (fun f => has_position (read_file db f)) (filesForSeries db series)
   = true ->
   exists position,
     Image.ImagePositionPatient (read_file db file) = Some position /\
     getIPPFromSOP db uid series = Ok position) /\
  (forallb (fun f => has_position (read_file db f)) (filesForSeries db series)
   = false ->
   getIPPFromSOP db uid series = Raise AttributeError) /\
  getIPPFromSOP three_file_db "1.2.4" "9.9" = Raise AttributeError.
Proof.
  intros Hfiles Huid Hbefore.
  split; [|split; [|reflexivity]]; intros Hall; rewrite getIPPFromSOP_run, Hall;
    [|reflexivity].
  rewrite Hfiles in *. rewrite forallb_app in Hall. cbn [forallb] in Hall.
  apply andb_prop in Hall as [Hb Hall]. apply andb_prop in Hall as [Hfile _].
  unfold has_position in Hfile. rewrite Huid in Hfile.
  destruct (Image.ImagePositionPatient (read_file db file)) as [position|] eqn:Ep;
    [|discriminate].
  exists position. split; [reflexivity|].
  rewrite !fmap_app, !fmap_cons, Huid, Ep. cbn [default].
  rewrite list_index_first.
  - cbv [mbind result_bind rbind]. unfold index.
    rewrite lookup_app_r by (rewrite length_fmap, length_fmap; lia).
    rewrite !length_fmap, Nat.sub_diag. reflexivity.
  - intros Hin. apply list_elem_of_fmap in Hin.
    destruct Hin as (f & Hf & Hin).
    rewrite forallb_forall in Hb.
    pose proof (Hb f (proj1 (list_elem_of_In _ _) Hin)) as Hpos.
    unfold has_position in Hpos.
    destruct (Image.SOPInstanceUID (read_file db f)) as [u|] eqn:Eu;
      [|discriminate].
    cbn in Hf. subst u. now apply (Hbefore f Hin).
Qed.

Lemma getIPPFromSOP_returns_position_of_first_match_witness :
  forallb (fun f => has_position (read_file two_slice_db f))
          (filesForSeries two_slice_db "9.9") = true /\
  exists position,
    Image.ImagePositionPatient (read_file two_slice_db "slice2.dcm")
    = Some position /\
    getIPPFromSOP two_slice_db "1.2.4" "9.9" = Ok position.
Proof.
  split; [reflexivity|].
  apply (getIPPFromSOP_returns_position_of_first_match two_slice_db "1.2.4" "9.9"
           ["slice1.dcm"] "slice2.dcm" []).
  - reflexivity.
  - reflexivity.
  - intros f Hf. apply list_elem_of_singleton in Hf. subst f.
    vm_compute. discriminate.
  - reflexivity.
Defined.

(** ** Rulers *)

Lemma keeps_scene_lift {A} (r : result A) : keeps_scene (lift r).
Proof. intros w w' r' [= <- _]. split; reflexivity. Qed.

Lemma keeps_scene_ret {A} (a : A) : keeps_scene (mret a : M A).
Proof. intros w w' r' [= <- _]. split; reflexivity. Qed.

Lemma keeps_scene_print line : keeps_scene (print line).
Proof. intros w w' r' [= <- _]. split; reflexivity. Qed.

Lemma keeps_scene_bind {A B} (m : M A) (k : A -> M B) :
  keeps_scene m -> (forall a, keeps_scene (k a)) -> keeps_scene (m ≫= k).
Proof.
  intros Hm Hk w w' r. cbv [mbind M_bind].
  destruct (m w) as [w1 [a|e]] eqn:E.
  - intros H. destruct (Hm _ _ _ E) as [<- <-]. exact (Hk a _ _ _ H).
  - intros [= <- _]. exact (Hm _ _ _ E).
Qed.

Lemma keeps_scene_for {A S} (l : list A) (body : A -> S -> M S) :
  (forall x s, keeps_scene (body x s)) -> forall s, keeps_scene (for_ l body s).
Proof.
  intros Hbody. induction l as [|x l IH]; intros s; cbn [for_].
  - apply keeps_scene_ret.
  - apply keeps_scene_bind; [apply Hbody|exact IH].
Qed.

Ltac keeps_scene :=
  repeat first
    [ apply keeps_scene_lift
    | apply keeps_scene_ret
    | apply keeps_scene_print
    | apply keeps_scene_for; intros ? ?
    | apply keeps_scene_bind; [|intros ?]
    | match goal with
      | |- keeps_scene (if ?c then _ else _) => destruct c
      | |- keeps_scene (match ?c with _ => _ end) => destruct c
      end ].

Lemma item_turn_keeps_scene item contents : keeps_scene (item_turn item contents).
Proof.
  unfold item_turn. keeps_scene. unfold reference_turn. cbn zeta. keeps_scene.
Qed.

Lemma on_markupsNode_last f w before node :
  markups w = (before ++ [node])%list ->
  on_markupsNode f w
  = ({| stdout := stdout w; warnings := warnings w;
        markups := (before ++ [f node])%list |}, Ok tt).
Proof.
  intros H. unfold on_markupsNode. rewrite H, reverse_snoc, reverse_involutive.
  reflexivity.
Qed.

(** A turn of the loop over the top-level items that completes leaves the
    observer as [observer_turn] says. *)
Lemma item_turn_observer item contents w w' contents' :
  item_turn item contents w = (w', Ok contents') ->
  personObserver contents' = observer_turn (personObserver contents) item.
Proof.
  unfold item_turn, observer_turn. cbv [mbind M_bind lift mret M_ret].
  destruct (isConcept item "personObserver") as [[]|]; [| |discriminate].
  - destruct (PersonName item) as [name|]; cbn [getattr]; [|discriminate].
    destruct (isConcept item "imagingMeasurements") as [[]|]; [| |discriminate].
    + destruct (ContentSequence item) as [contentItems|]; cbn [getattr];
        [|discriminate].
      destruct (for_ contentItems contentItem_turn _ w) as [w1 [ms|]];
        [|discriminate].
      intros [= _ <-]. reflexivity.
    + intros [= _ <-]. reflexivity.
  - destruct (isConcept item "imagingMeasurements") as [[]|]; [| |discriminate].
    + destruct (ContentSequence item) as [contentItems|]; cbn [getattr];
        [|discriminate].
      destruct (for_ contentItems contentItem_turn _ w) as [w1 [ms|]];
        [|discriminate].
      intros [= _ <-]. destruct (PersonName item); reflexivity.
    + intros [= _ <-]. destruct (PersonName item); reflexivity.
Qed.

Lemma items_loop_observer items :
  forall contents w w' contents',
    for_ items item_turn contents w = (w', Ok contents') ->
    personObserver contents' = foldl observer_turn (personObserver contents) items.
Proof.
  induction items as [|item items IH]; intros contents w w' contents';
    cbn [for_ foldl].
  - intros [= _ <-]. reflexivity.
  - cbv [mbind M_bind].
    destruct (item_turn item contents w) as [w1 [contents1|]] eqn:E;
      [|discriminate].
    intros Hrest. rewrite (IH _ _ _ _ Hrest).
    rewrite (item_turn_observer _ _ _ _ _ E). reflexivity.
Qed.

(** A turn of the loop over the measurements that completes: a measurement
    without polyline changes nothing, one with a polyline adds one ruler. *)
Lemma place_ruler_ok db contents measurement w w' :
  place_ruler db contents measurement tt w = (w', Ok tt) ->
  stdout w' = stdout w /\ warnings w' = warnings w /\
  exists nodes,
    markups w' = (markups w ++ nodes)%list /\
    Forall (is_ruler_of (personObserver contents)) nodes /\
    length nodes = (if has_polyline measurement then 1 else 0)%nat.
Proof.
  unfold place_ruler, has_polyline.
  destruct (polyline measurement) as [points|].
  2: { intros [= <-]. repeat split. exists []. rewrite app_nil_r.
       repeat split. constructor. }
  cbv [mbind M_bind AddNewNodeByClass lift getkey].
  destruct (personObserver contents) as [observer|]; [|discriminate].
  unfold SetName at 1.
  erewrite on_markupsNode_last by reflexivity.
  cbn [stdout warnings markups].
  destruct (referencedSOPInstanceUID measurement) as [uid|]; [|discriminate].
  destruct (String.eqb (fileForInstance db uid) ""); [discriminate|].
  destruct (ruler_control_points _ points) as [[p1 p2]|]; [|discriminate].
  unfold AddControlPoint.
  erewrite on_markupsNode_last by reflexivity.
  erewrite on_markupsNode_last by reflexivity.
  cbn. intros [= <-]. repeat split.
  eexists. split; [reflexivity|]. split; [|reflexivity].
  constructor; [|constructor].
  exists observer. repeat split.
Qed.

Lemma place_rulers_ok db contents measurements :
  forall w w',
    for_ measurements (place_ruler db contents) tt w = (w', Ok tt) ->
    stdout w' = stdout w /\ warnings w' = warnings w /\
    exists nodes,
      markups w' = (markups w ++ nodes)%list /\
      Forall (is_ruler_of (personObserver contents)) nodes /\
      length nodes = length (filter (fun m => has_polyline m = true) measurements).
Proof.
  induction measurements as [|m ms IH]; intros w w'; cbn [for_].
  - intros [= <-]. repeat split. exists []. rewrite app_nil_r.
    repeat split. constructor.
  - cbv [mbind M_bind].
    destruct (place_ruler db contents m tt w) as [w1 [[]|e]] eqn:E;
      [|discriminate].
    intros Hrest.
    destruct (place_ruler_ok _ _ _ _ _ E) as (Ho & Hw & nodes & Hm & Hr & Hn).
    destruct (IH _ _ Hrest) as (Ho' & Hw' & nodes' & Hm' & Hr' & Hn').
    split; [congruence|]. split; [congruence|].
    exists (nodes ++ nodes')%list. split; [|split].
    + rewrite Hm', Hm, app_assoc. reflexivity.
    + apply Forall_app. split; assumption.
    + rewrite length_app, Hn, Hn', filter_cons.
      destruct (has_polyline m).
      * rewrite decide_True by reflexivity. reflexivity.
      * rewrite decide_False by discriminate. reflexivity.
Qed.

(** X9.  Whenever [loadAdditionalMeasurements] completes, what it has added
    to the scene are rulers and nothing else: line nodes with exactly two
    control points, each named after the observer of the report, that is
    the person name of the last top-level item that is a person observer;
    nothing is logged as a warning. *)
Theorem loadAdditionalMeasurements_adds_only_rulers
    (db : Database) (sr : ContentItem) (w w' : World)
    (returned : option ContentItem) :
  loadAdditionalMeasurements db sr w = (w', Ok returned) ->
  warnings w' = warnings w /\
  exists nodes,
    markups w' = (markups w ++ nodes)%list /\
    forall node, node ∈ nodes ->
      exists observer,
        report_observer sr = Some observer /\
        node_name node = observer /\
        length (control_points node) = 2%nat.
Proof.
  unfold loadAdditionalMeasurements. cbv [mbind M_bind lift].
  destruct (isConcept sr "imagingMeasurementReport") as [[]|]; cbn [negb];
    [| |discriminate].
  2: { intros [= <- _]. split; [reflexivity|]. exists [].
       rewrite app_nil_r. split; [reflexivity|]. intros node H. inversion H. }
  unfold report_observer.
  destruct (ContentSequence sr) as [items|]; cbn [getattr default];
    [|discriminate].
  destruct (for_ items item_turn _ w) as [w1 [contents|]] eqn:Eparse;
    [|discriminate].
  destruct (for_ (measurements contents) _ tt w1) as [w2 [[]|]] eqn:Eplace;
    [|discriminate].
  intros [= <- _].
  destruct (keeps_scene_for items item_turn item_turn_keeps_scene _ _ _ _ Eparse)
    as [Hm Hw].
  destruct (place_rulers_ok _ _ _ _ _ Eplace) as (_ & Hw2 & nodes & Hm2 & Hr & _).
  pose proof (items_loop_observer _ _ _ _ _ Eparse) as Hobs.
  cbn [personObserver] in Hobs.
  split; [congruence|].
  exists nodes. split; [congruence|].
  intros node Hnode. rewrite Forall_forall in Hr.
  destruct (Hr node Hnode) as (name & Hname & Hnode_name & Hpoints).
  exists name. split; [cbn; congruence|]. split; assumption.
Qed.

Lemma loadAdditionalMeasurements_adds_only_rulers_witness :
  exists w' returned,
    loadAdditionalMeasurements sample_db (length_report "1.2.3") quiet
    = (w', Ok returned) /\
    warnings w' = warnings quiet /\
    exists nodes,
      markups w' = (markups quiet ++ nodes)%list /\
      forall node, node ∈ nodes ->
        exists observer,
          report_observer (length_report "1.2.3") = Some observer /\
          node_name node = observer /\
          length (control_points node) = 2%nat.
Proof.
  eexists. eexists. split; [vm_compute; reflexivity|].
  eapply (loadAdditionalMeasurements_adds_only_rulers
            sample_db (length_report "1.2.3") quiet).
  vm_compute. reflexivity.
Defined.

Lemma place_rulers_without_observer db contents measurements :
  personObserver contents = None ->
  (exists m, m ∈ measurements /\ has_polyline m = true) ->
  forall w,
    for_ measurements (place_ruler db contents) tt w
    = ({| stdout := stdout w; warnings := warnings w;
          markups := (markups w ++ [blank_node])%list |}, Raise KeyError).
Proof.
  intros Hnone. induction measurements as [|m ms IH]; intros (m0 & Hin & Hp) w.
  - inversion Hin.
  - cbn [for_]. cbv [mbind M_bind]. unfold place_ruler at 1.
    unfold has_polyline in *.
    destruct (polyline m) as [points|] eqn:Em.
    + cbv [mbind M_bind AddNewNodeByClass lift getkey]. rewrite Hnone.
      reflexivity.
    + cbv [mret M_ret]. apply IH. exists m0. split; [|assumption].
      apply elem_of_cons in Hin. destruct Hin as [->|Hin]; [|assumption].
      rewrite Em in Hp. discriminate.
Qed.

(** X10.  A report that is read without error, names no person observer
    and has a measurement with a polyline makes [loadAdditionalMeasurements]
    raise KeyError, after a line node has been added to the scene: the node
    stays there, without name and without control points. *)
Theorem loadAdditionalMeasurements_without_observer_leaves_a_blank_node
    (db : Database) (sr : ContentItem) (items : list ContentItem)
    (contents : Contents) (w parsed : World) :
  isConcept sr "imagingMeasurementReport" = Ok true ->
  ContentSequence sr = Some items ->
  for_ items item_turn no_contents w = (parsed, Ok contents) ->
  personObserver contents = None ->
  (exists m, m ∈ measurements contents /\ has_polyline m = true) ->
  loadAdditionalMeasurements db sr w
  = ({| stdout := stdout parsed; warnings := warnings w;
        markups := (markups w ++ [blank_node])%list |}, Raise KeyError).
Proof.
  intros Hroot Hitems Hparse Hnone Hpoly.
  unfold loadAdditionalMeasurements. cbv [mbind M_bind lift].
  rewrite Hroot, Hitems. cbn [negb getattr]. fold no_contents.
  rewrite Hparse.
  rewrite (place_rulers_without_observer db contents _ Hnone Hpoly).
  destruct (keeps_scene_for items item_turn item_turn_keeps_scene _ _ _ _ Hparse)
    as [-> ->].
  reflexivity.
Qed.

Lemma loadAdditionalMeasurements_without_observer_leaves_a_blank_node_witness :
  loadAdditionalMeasurements sample_db (unobserved_length_report "1.2.3") quiet
  = ({| stdout := []; warnings := []; markups := [blank_node] |}, Raise KeyError).
Proof.
  apply (loadAdditionalMeasurements_without_observer_leaves_a_blank_node
           sample_db (unobserved_length_report "1.2.3")
           (match ContentSequence (length_report "1.2.3") with
            | Some (_ :: children) => children
            | _ => []
            end)
           {| personObserver := None;
              measurements :=
                [{| trackingIdentifier := Some "Tumor1";
                    trackingUniqueIdentifier := None;
                    findingSite := None;
                    polyline := Some [0; 0; 10; 0]%float;
                    referencedSOPInstanceUID := Some "1.2.3" |}] |}
           quiet quiet).
  - reflexivity.
  - reflexivity.
  - vm_compute. reflexivity.
  - reflexivity.
  - eexists. split; [left|reflexivity].
Defined.

(** One reference: without SOP instance UID the turn raises before
    anything is printed; with one, the UID is stored and the error line is
    printed for a frame other than "1". *)
Lemma reference_turn_run reference m w :
  reference_turn reference m w
  = if present (ReferencedSOPInstanceUID reference)
    then ({| stdout :=
               (stdout w
                ++ if names_other_frame reference
                   then ["Error - only single frame references supported"]
                   else [])%list;
             warnings := warnings w; markups := markups w |},
          Ok (with_reference (ReferencedSOPInstanceUID reference) m))
    else (w, Raise AttributeError).
Proof.
  unfold reference_turn, names_other_frame, with_reference.
  cbv [mbind M_bind lift getattr present].
  destruct (ReferencedSOPInstanceUID reference) as [uid|]; [|reflexivity].
  cbn zeta.
  destruct (ReferencedFrameNumber reference) as [frame|];
    [destruct (negb (String.eqb frame "1"))|];
    destruct w; cbn; rewrite ?app_nil_r; reflexivity.
Qed.

(** X11.  The loop over the references of a selection reads the SOP
    instance UID of each reference before anything else.  When every
    reference has one, the loop completes: every reference overwrites the
    referenced image of the measurement, so the last one stays, and one
    error line is printed for each reference that names a frame other than
    "1".  Otherwise the loop raises AttributeError at the first reference
    without SOP instance UID, having printed the error lines of the
    references before that one. *)
Theorem references_loop_keeps_the_last_reference
    (references : list ReferencedSOP) (m : Measurement) (w : World) :
  for_ references reference_turn m w
  = ({| stdout :=
          (stdout w
           ++ ((fun _ => "Error - only single frame references supported")
               <$> filter (fun reference => names_other_frame reference = true)
                          (references_before_unreadable references)))%list;
        warnings := warnings w; markups := markups w |},
     if forallb (fun reference => present (ReferencedSOPInstanceUID reference))
                references
     then Ok (with_reference
                (match last references with
                 | Some reference => ReferencedSOPInstanceUID reference
                 | None => referencedSOPInstanceUID m
                 end) m)
     else Raise AttributeError) /\
  (forallb (fun reference => present (ReferencedSOPInstanceUID reference))
           references = true ->
   references_before_unreadable references = references).
Proof.
  split.
  - revert m w. induction references as [|reference references IH]; intros m w.
    + cbn. rewrite app_nil_r. destruct w, m. reflexivity.
    + cbn [for_ forallb references_before_unreadable]. cbv [mbind M_bind].
      rewrite reference_turn_run.
      destruct (present (ReferencedSOPInstanceUID reference)) eqn:Ep;
        cbn [andb].
      2: { cbn. rewrite app_nil_r. destruct w. reflexivity. }
      rewrite IH.
      cbn [stdout warnings markups]. rewrite filter_cons, <- app_assoc.
      assert (Hlast : match last (reference :: references) with
                      | Some r => ReferencedSOPInstanceUID r
                      | None => referencedSOPInstanceUID m
                      end
                      = match last references with
                        | Some r => ReferencedSOPInstanceUID r
                        | None => ReferencedSOPInstanceUID reference
                        end).
      { destruct references as [|r rs]; [reflexivity|].
        rewrite last_cons_cons.
        destruct (last (r :: rs)) eqn:E; [reflexivity|].
        apply last_None in E. discriminate. }
      rewrite Hlast. unfold with_reference. cbn.
      destruct (names_other_frame reference).
      * rewrite decide_True by reflexivity. reflexivity.
      * rewrite decide_False by discriminate. reflexivity.
  - induction references as [|reference references IH]; [reflexivity|].
    cbn [forallb references_before_unreadable]. intros H.
    apply andb_prop in H as [-> H]. rewrite (IH H). reflexivity.
Qed.

Lemma references_loop_keeps_the_last_reference_witness :
  forallb (fun reference => present (ReferencedSOPInstanceUID reference))
          [segmentation_reference "5.1.1"; segmentation_reference "5.2.1"]
  = true /\
  references_before_unreadable
    [segmentation_reference "5.1.1"; segmentation_reference "5.2.1"]
  = [segmentation_reference "5.1.1"; segmentation_reference "5.2.1"].
Proof.
  split; [reflexivity|].
  apply (references_loop_keeps_the_last_reference
           [segmentation_reference "5.1.1"; segmentation_reference "5.2.1"]
           {| trackingIdentifier := None; trackingUniqueIdentifier := None;
              findingSite := None; polyline := None;
              referencedSOPInstanceUID := None |} quiet).
  reflexivity.
Defined.

(** ** The bounding-box table *)

Lemma mapM_result_ok {A B} (f : A -> result B) (l : list A) (k : list B) :
  mapM (M := result) f l = Ok k -> Forall2 (fun x y => f x = Ok y) l k.
Proof.
  revert k. induction l as [|x l IH]; intros k; cbn.
  - intros [= <-]. constructor.
  - destruct (f x) as [y|] eqn:E; cbn; [|discriminate].
    destruct (mapM f l) as [k'|]; cbn; [|discriminate].
    intros [= <-]. constructor; [exact E|now apply IH].
Qed.

Lemma createBboxTable_ok poly_infos rows :
  createBboxTable poly_infos = Ok rows ->
  length rows = length poly_infos /\
  Forall (fun p => PolyInfo.FindingSite p <> []) poly_infos.
Proof.
  intros H. apply mapM_result_ok in H. split.
  - symmetry. eapply Forall2_length. exact H.
  - induction H as [|p row infos rows Hp _ IH]; constructor; [|exact IH].
    destruct (PolyInfo.FindingSite p); [discriminate|discriminate].
Qed.

Lemma bbox_loop_table db series groups :
  forall st w w' st',
    for_ groups (bbox_group_body db series) st w = (w', Ok st') ->
    length (bbox_infos st') = (length (bbox_infos st) + length groups)%nat /\
    match groups with
    | [] => st' = st
    | _ :: _ =>
        exists rows,
          st'.2 = Some rows /\ createBboxTable (bbox_infos st') = Ok rows
    end.
Proof.
  induction groups as [|g groups IH]; intros st w w' st' Hrun.
  - cbn in Hrun. injection Hrun as _ <-. split; [cbn; lia|reflexivity].
  - cbn [for_] in Hrun. rewrite M_bind_run in Hrun.
    destruct (bbox_group_body db series g st w) as [w1 [st1|e]] eqn:Hbody;
      [|discriminate].
    destruct st as [[vars infos] tbl].
    apply bbox_group_body_ok in Hbody
      as (vars1 & p & rows & ft & fs & -> & _ & Hrows & _).
    destruct (IH _ _ _ _ Hrun) as [Hlen Htable]. split.
    + rewrite Hlen. cbn. rewrite length_app. cbn. lia.
    + destruct groups as [|g' groups'].
      * subst st'. exists rows. split; [reflexivity|exact Hrows].
      * exact Htable.
Qed.

(** X12.  When the extraction returns, it has read at least one measurement
    group, and returns one record and one table row for every group; every
    record names at least one finding site. *)
Theorem extractBbox_returns_one_row_per_group
    (db : Database) (sr : hd.SR) (w w' : World)
    (poly_infos : list PolyInfo.t) (tableNode : list BboxRow) :
  extractBboxMetadataToVtkTableNode db sr w = (w', Ok (poly_infos, tableNode)) ->
  hd.planar_roi_measurement_groups sr <> [] /\
  length poly_infos = length (hd.planar_roi_measurement_groups sr) /\
  length tableNode = length (hd.planar_roi_measurement_groups sr) /\
  Forall (fun p => PolyInfo.FindingSite p <> []) poly_infos.
Proof.
  intros Hrun. apply extract_runs_the_loop in Hrun.
  destruct Hrun as (series & [[vars infos1] tbl] & Hrun & <- & Htbl).
  cbn in Htbl. subst tbl.
  apply bbox_loop_table in Hrun as [Hlen Htable].
  cbn in Hlen.
  destruct (hd.planar_roi_measurement_groups sr) as [|g groups].
  - discriminate.
  - destruct Htable as (rows & Hrows & Htable). cbn in Hrows, Htable.
    injection Hrows as <-.
    apply createBboxTable_ok in Htable as [Hl Hsites].
    split; [discriminate|]. split; [exact Hlen|]. split; [congruence|].
    exact Hsites.
Qed.

Lemma extractBbox_returns_one_row_per_group_witness :
  exists w' poly_infos tableNode,
    extractBboxMetadataToVtkTableNode sample_db two_group_sr quiet
    = (w', Ok (poly_infos, tableNode)) /\
    hd.planar_roi_measurement_groups two_group_sr <> [] /\
    length poly_infos = length (hd.planar_roi_measurement_groups two_group_sr) /\
    length tableNode = length (hd.planar_roi_measurement_groups two_group_sr) /\
    Forall (fun p => PolyInfo.FindingSite p <> []) poly_infos.
Proof.
  eexists. eexists. eexists. split; [vm_compute; reflexivity|].
  eapply (extractBbox_returns_one_row_per_group sample_db two_group_sr quiet).
  vm_compute. reflexivity.
Defined.

(** ** Choosing the reader *)

Lemma use_plugin_turn_run value_type group flag :
  use_plugin_turn value_type group flag
  = if lacks_roi group then Raise AttributeError
    else Ok (if has_coordinates value_type group then 0%nat else flag).
Proof.
  unfold use_plugin_turn, lacks_roi, has_coordinates.
  destruct (is_image_region (hd.reference_type group)); [|reflexivity].
  destruct (hd.roi group) as [roi|]; [|reflexivity].
  cbn. destruct (ValueTypeValues_eqb (value_type roi) SCOORD); [reflexivity|].
  destruct (ValueTypeValues_eqb (value_type roi) SCOORD3D); reflexivity.
Qed.

Lemma use_plugin_loop value_type groups :
  forall flag,
    for_result groups (use_plugin_turn value_type) flag
    = match filter (fun g => lacks_roi g = true) groups with
      | _ :: _ => Raise AttributeError
      | [] =>
          Ok (if existsb (has_coordinates value_type) groups then 0%nat else flag)
      end.
Proof.
  induction groups as [|g groups IH]; intros flag; [reflexivity|].
  cbn [for_result existsb]. rewrite use_plugin_turn_run, filter_cons.
  destruct (lacks_roi g).
  - rewrite decide_True by reflexivity. reflexivity.
  - rewrite decide_False by discriminate. cbv [mbind result_bind rbind].
    rewrite IH. destruct (filter _ groups); [|reflexivity].
    destruct (has_coordinates value_type g); cbn [orb]; [|reflexivity].
    destruct (existsb _ groups); reflexivity.
Qed.

(** X13.  [checkUsePlugin] raises AttributeError when some Image Region
    group has no region; otherwise it answers 0 exactly when at least one
    group, wherever it stands, is an Image Region drawn as SCOORD or
    SCOORD3D, and 1 in every other case, a report without groups
    included. *)
Theorem checkUsePlugin_any_coordinate_region_decides
    (value_type : hd.ImageRegion -> ValueTypeValues) (sr : hd.SR) :
  checkUsePlugin value_type sr
  = match filter (fun g => lacks_roi g = true)
                 (hd.planar_roi_measurement_groups sr) with
    | _ :: _ => Raise AttributeError
    | [] =>
        Ok (if existsb (has_coordinates value_type)
                       (hd.planar_roi_measurement_groups sr)
            then 0%nat else 1%nat)
    end.
Proof.
  unfold checkUsePlugin. cbn zeta.
  destruct (hd.planar_roi_measurement_groups sr) as [|g groups] eqn:E.
  - reflexivity.
  - change (0 <? length (g :: groups))%nat with true. cbn iota.
    apply use_plugin_loop.
Qed.

(** ** Examining files *)

Lemma isDICOMTID1500_returns dataset : exists b, isDICOMTID1500 dataset = Ok b.
Proof.
  unfold isDICOMTID1500.
  destruct (pyval_eq_str _ "SR"); [|eexists; reflexivity].
  destruct (_ || _ || _); [|eexists; reflexivity].
  unfold first_TemplateIdentifier.
  destruct (getDICOMValue dataset "ContentTemplateSequence" (PStr ""))
    as [[|c s]|[|t items]]; try (eexists; reflexivity).
  cbn. destruct (TemplateIdentifier t); eexists; reflexivity.
Qed.

Lemma createLoadable_one db examine dataset w :
  if evidence_readable dataset
  then exists w' loadable,
         createLoadableAndAddReferences db examine [dataset] w
         = (w', Ok loadable) /\
         stdout w' = stdout w /\ markups w' = markups w
  else createLoadableAndAddReferences db examine [dataset] w
       = (w, Raise AttributeError).
Proof.
  pose proof (createLoadable_run db examine [] dataset w) as H.
  cbn [app forallb] in H. rewrite andb_true_r in H.
  destruct (evidence_readable dataset); [|exact H].
  destruct H as (loadable & ->). eexists _, loadable. repeat split.
Qed.

Section ExamineProperties.
Variable db : Database.
Variable segPlugin_examine : list string -> list (list string).
Variable read : string -> File.t.
Variable referencedSOPInstanceUID_of_loadable : option string.
Variable defaultSeriesNodeName : string -> string.

Let run := examineFiles_from db segPlugin_examine read
             referencedSOPInstanceUID_of_loadable defaultSeriesNodeName.

(** The loadable made for a file by [examineFiles]. *)
Let made_for (cFile : string) (l : DICOMLoadable.t) : Prop :=
  exists loadable,
    l = examined_loadable referencedSOPInstanceUID_of_loadable
          defaultSeriesNodeName cFile
          (getDICOMString (File.dataset (read cFile)) "SOPInstanceUID")
          (getDICOMValue_str (File.SeriesDescription (read cFile)) "Unknown")
          loadable.

(** One turn of the loop for a file that has a SOP instance UID and that
    [createLoadableAndAddReferences] can read when it is a report. *)
Lemma examineFiles_from_step cFile files loadables w :
  no_uid (read cFile) = false -> examinable (read cFile) = true ->
  exists w' new,
    run loadables (cFile :: files) w = run (loadables ++ new)%list files w' /\
    stdout w' = stdout w /\ markups w' = markups w /\
    Forall2 made_for
      (filter (fun cFile => is_report (read cFile) = true) [cFile]) new.
Proof.
  intros Huid Hex. unfold run. cbn [examineFiles_from]. fold run. cbn zeta.
  unfold no_uid in Huid. rewrite Huid.
  rewrite filter_cons, filter_nil.
  destruct (isDICOMTID1500_returns (File.dataset (read cFile))) as [b Hb].
  assert (Hr : is_report (read cFile) = b)
    by (unfold is_report; rewrite Hb; destruct b; reflexivity).
  unfold examinable in Hex. rewrite Hr in Hex.
  rewrite Hb. cbv [mbind M_bind lift]. destruct b.
  - rewrite decide_True by exact Hr. cbn [negb orb] in Hex.
    pose proof (createLoadable_one db segPlugin_examine
                  (File.dataset (read cFile)) w) as Hone.
    rewrite Hex in Hone.
    destruct Hone as (w1 & loadable & -> & Hout & Hmarkups).
    exists w1. eexists [_]. split; [reflexivity|].
    split; [exact Hout|]. split; [exact Hmarkups|].
    constructor; [|constructor]. eexists. reflexivity.
  - rewrite decide_False by (rewrite Hr; discriminate).
    exists w, []. rewrite app_nil_r. repeat split. constructor.
Qed.

Lemma examineFiles_from_prefix (before rest : list string) :
  (forall cFile, In cFile before ->
     no_uid (read cFile) = false /\ examinable (read cFile) = true) ->
  forall (loadables : list DICOMLoadable.t) (w : World),
    exists w' new,
      run loadables (before ++ rest)%list w
      = run (loadables ++ new)%list rest w' /\
      stdout w' = stdout w /\ markups w' = markups w /\
      Forall2 made_for
        (filter (fun cFile => is_report (read cFile) = true) before) new.
Proof.
  induction before as [|cFile before IH]; intros Hall loadables w.
  - exists w, []. rewrite app_nil_r. repeat split. constructor.
  - destruct (Hall cFile (or_introl eq_refl)) as [Huid Hex].
    destruct (examineFiles_from_step cFile (before ++ rest)%list loadables w
                Huid Hex) as (w1 & new1 & Hrun1 & Ho1 & Hm1 & Hn1).
    destruct (IH (fun c Hc => Hall c (or_intror Hc)) (loadables ++ new1)%list w1)
      as (w2 & new2 & Hrun2 & Ho2 & Hm2 & Hn2).
    exists w2, (new1 ++ new2)%list. split; [|split; [|split]].
    + cbn [app]. rewrite Hrun1, Hrun2, app_assoc. reflexivity.
    + congruence.
    + congruence.
    + change (cFile :: before) with ([cFile] ++ before)%list.
      rewrite filter_app. apply Forall2_app; assumption.
Qed.

Lemma examineFiles_from_no_uid (before after : list string) (cFile : string) :
  (forall f, In f before -> examinable (read f) = true) ->
  no_uid (read cFile) = true ->
  forall (loadables : list DICOMLoadable.t) (w : World),
    exists w',
      run loadables (before ++ cFile :: after)%list w = (w', Ok []).
Proof.
  intros Hall Hno.
  induction before as [|f before IH]; intros loadables w.
  - exists w. unfold run. cbn [app examineFiles_from]. cbn zeta.
    unfold no_uid in Hno. rewrite Hno. reflexivity.
  - destruct (no_uid (read f)) eqn:Hf.
    + exists w. unfold run. cbn [app examineFiles_from]. cbn zeta.
      unfold no_uid in Hf. rewrite Hf. reflexivity.
    + destruct (examineFiles_from_step f (before ++ cFile :: after)%list
                  loadables w Hf (Hall f (or_introl eq_refl)))
        as (w1 & new1 & Hrun1 & _).
      destruct (IH (fun c Hc => Hall c (or_intror Hc)) (loadables ++ new1)%list w1)
        as (w2 & Hrun2).
      exists w2. cbn [app]. rewrite Hrun1. exact Hrun2.
Qed.

Lemma examineFiles_from_unreadable (cFile : string) (after : list string)
    (loadables : list DICOMLoadable.t) (w : World) :
  no_uid (read cFile) = false -> examinable (read cFile) = false ->
  run loadables (cFile :: after) w = (w, Raise AttributeError).
Proof.
  intros Huid Hex. unfold run. cbn [examineFiles_from]. cbn zeta.
  unfold no_uid in Huid. rewrite Huid.
  unfold examinable, is_report in Hex.
  destruct (isDICOMTID1500 (File.dataset (read cFile))) as [[]|];
    try discriminate.
  cbn [negb orb] in Hex. cbv [mbind M_bind lift].
  pose proof (createLoadable_one db segPlugin_examine
                (File.dataset (read cFile)) w) as Hone.
  rewrite Hex in Hone. rewrite Hone. reflexivity.
Qed.
End ExamineProperties.

(** X14.  As soon as one file of the list has no SOP instance UID (or an
    empty one), [examineFiles] returns the empty list and the loadables
    made for the files before it are dropped, provided every report before
    that file has an evidence sequence that
    [createLoadableAndAddReferences] can read.  A report with a SOP
    instance UID whose evidence sequence cannot be read makes
    [examineFiles] raise AttributeError instead, when the files before it
    have SOP instance UIDs and can be read. *)
Theorem examineFiles_returns_nothing_when_a_file_has_no_uid
    (db : Database) (segPlugin_examine : list string -> list (list string))
    (read : string -> File.t) (referencedSOPInstanceUID_of_loadable : option string)
    (defaultSeriesNodeName : string -> string)
    (before : list string) (cFile : string) (after : list string) (w : World) :
  (forall f, In f before -> examinable (read f) = true) ->
  (no_uid (read cFile) = true ->
   exists w',
     examineFiles db segPlugin_examine read referencedSOPInstanceUID_of_loadable
       defaultSeriesNodeName (before ++ cFile :: after)%list w = (w', Ok [])) /\
  ((forall f, In f before -> no_uid (read f) = false) ->
   no_uid (read cFile) = false -> examinable (read cFile) = false ->
   exists w',
     examineFiles db segPlugin_examine read referencedSOPInstanceUID_of_loadable
       defaultSeriesNodeName (before ++ cFile :: after)%list w
     = (w', Raise AttributeError)).
Proof.
  intros Hall. split.
  - intros Hno. unfold examineFiles.
    apply examineFiles_from_no_uid; assumption.
  - intros Huids Huid Hex. unfold examineFiles.
    destruct (examineFiles_from_prefix db segPlugin_examine read
                referencedSOPInstanceUID_of_loadable defaultSeriesNodeName
                before (cFile :: after)
                (fun f Hf => conj (Huids f Hf) (Hall f Hf)) [] w)
      as (w' & new & -> & _).
    exists w'. apply examineFiles_from_unreadable; assumption.
Qed.

Lemma examineFiles_returns_nothing_when_a_file_has_no_uid_witness :
  (exists w',
     examineFiles sample_db no_segmentation_loadables sample_files None
       (fun uid => uid) (["report.dcm"] ++ "nameless.dcm" :: ["image.dcm"])%list
       quiet
     = (w', Ok [])) /\
  (exists w',
     examineFiles sample_db no_segmentation_loadables sample_files None
       (fun uid => uid) (["report.dcm"] ++ "unreadable.dcm" :: ["nameless.dcm"])%list
       quiet
     = (w', Raise AttributeError)).
Proof.
  split.
  - apply (examineFiles_returns_nothing_when_a_file_has_no_uid
             sample_db no_segmentation_loadables sample_files None (fun uid => uid)
             ["report.dcm"] "nameless.dcm" ["image.dcm"] quiet).
    + intros f Hf. simpl in Hf. destruct Hf as [<-|[]]. reflexivity.
    + reflexivity.
  - apply (examineFiles_returns_nothing_when_a_file_has_no_uid
             sample_db no_segmentation_loadables sample_files None (fun uid => uid)
             ["report.dcm"] "unreadable.dcm" ["nameless.dcm"] quiet).
    + intros f Hf. simpl in Hf. destruct Hf as [<-|[]]. reflexivity.
    + intros f Hf. simpl in Hf. destruct Hf as [<-|[]]. reflexivity.
    + reflexivity.
    + reflexivity.
Defined.

(** X15.  When every file has a SOP instance UID and every report among
    the files has an evidence sequence that
    [createLoadableAndAddReferences] can read, [examineFiles] returns one
    loadable for each file that [isDICOMTID1500] accepts, in the order of
    the files: it lists that file and its UID alone, its tooltip is the
    series description followed by " - as a DICOM SR TID1500 object", and
    its name is the referenced series name, the series description and
    " - SR TID1500" unless the referenced series name is empty. *)
Theorem examineFiles_makes_one_loadable_per_report
    (db : Database) (segPlugin_examine : list string -> list (list string))
    (read : string -> File.t) (referencedSOPInstanceUID_of_loadable : option string)
    (defaultSeriesNodeName : string -> string)
    (files : list string) (w : World) :
  (forall cFile, In cFile files -> no_uid (read cFile) = false) ->
  (forall cFile, In cFile files -> examinable (read cFile) = true) ->
  exists w' loadables,
    examineFiles db segPlugin_examine read referencedSOPInstanceUID_of_loadable
      defaultSeriesNodeName files w = (w', Ok loadables) /\
    Forall2 (describes referencedSOPInstanceUID_of_loadable
               defaultSeriesNodeName read)
      (filter (fun cFile => is_report (read cFile) = true) files) loadables.
Proof.
  intros Hall Hex. unfold examineFiles.
  destruct (examineFiles_from_prefix db segPlugin_examine read
              referencedSOPInstanceUID_of_loadable defaultSeriesNodeName
              files [] (fun f Hf => conj (Hall f Hf) (Hex f Hf)) [] w)
    as (w' & new & Hrun & _ & _ & Hnew).
  rewrite app_nil_r in Hrun. cbn in Hrun.
  exists w', new. split; [exact Hrun|].
  eapply Forall2_impl; [exact Hnew|].
  intros cFile l (loadable & ->). unfold describes, examined_loadable,
    referencedSeriesName. cbn.
  repeat split.
  destruct referencedSOPInstanceUID_of_loadable as [uid|].
  - destruct (String.eqb (defaultSeriesNodeName uid) ""); reflexivity.
  - reflexivity.
Qed.

Lemma examineFiles_makes_one_loadable_per_report_witness :
  exists w' loadables,
    examineFiles sample_db no_segmentation_loadables sample_files None
      (fun uid => uid) ["image.dcm"; "report.dcm"] quiet
    = (w', Ok loadables) /\
    Forall2 (describes None (fun uid => uid) sample_files)
      (filter (fun cFile => is_report (sample_files cFile) = true)
              ["image.dcm"; "report.dcm"])
      loadables.
Proof.
  apply (examineFiles_makes_one_loadable_per_report
           sample_db no_segmentation_loadables sample_files None (fun uid => uid)
           ["image.dcm"; "report.dcm"] quiet).
  - intros cFile Hin. simpl in Hin. destruct Hin as [<-|[<-|[]]]; reflexivity.
  - intros cFile Hin. simpl in Hin. destruct Hin as [<-|[<-|[]]]; reflexivity.
Defined.

(** ** Related reports *)

Section RelatedProperties.
Variable db : Database.
Variable studies : StudyDatabase.
Variable read : string -> File.t.

(** Where a related report comes from: a series of one of the studies. *)
Let found_in (among : list string) (file : string) : Prop :=
  is_report (read file) = true /\
  exists study series,
    study ∈ among /\ series ∈ seriesForStudy studies study /\
    fileForSeries db studies series = Ok file.

Lemma related_series_loop (series : list string) :
  forall found datasets w w' found' datasets',
    for_ series (related_series_turn db studies read) (found, datasets) w
    = (w', Ok (found', datasets')) ->
    w' = w /\
    exists new,
      found' = (found ++ new)%list /\
      datasets' = (datasets ++ (read <$> new))%list /\
      Forall (fun file =>
                is_report (read file) = true /\
                exists s, s ∈ series /\ fileForSeries db studies s = Ok file)
             new.
Proof.
  induction series as [|s series IH];
    intros found datasets w w' found' datasets'.
  - intros [= <- <- <-]. split; [reflexivity|]. exists [].
    rewrite !app_nil_r. repeat split. constructor.
  - cbn [for_]. cbv [mbind M_bind]. unfold related_series_turn at 1.
    cbv [mbind M_bind lift].
    destruct (fileForSeries db studies s) as [srFile|] eqn:Efile;
      [|discriminate].
    destruct (isDICOMTID1500 (File.dataset (read srFile))) as [[]|] eqn:Esr;
      [| |discriminate]; cbv [mret M_ret]; intros Hrest;
      apply IH in Hrest as (-> & new & -> & -> & Hnew);
      (split; [reflexivity|]).
    + exists (srFile :: new). rewrite <- !app_assoc. repeat split.
      constructor.
      * split; [unfold is_report; now rewrite Esr|].
        exists s. split; [left|exact Efile].
      * eapply Forall_impl; [exact Hnew|]. intros f (Hr & s' & Hs' & Hf).
        split; [exact Hr|]. exists s'. split; [now right|exact Hf].
    + exists new. repeat split.
      eapply Forall_impl; [exact Hnew|]. intros f (Hr & s' & Hs' & Hf).
      split; [exact Hr|]. exists s'. split; [now right|exact Hf].
Qed.

Lemma related_study_loop (among : list string) :
  forall files datasets w w' files' datasets',
    for_ among (related_study_turn db studies read) (files, datasets) w
    = (w', Ok (files', datasets')) ->
    stdout w' = stdout w /\ markups w' = markups w /\
    exists new,
      files' = (files ++ new)%list /\
      datasets' = (datasets ++ (read <$> new))%list /\
      Forall (found_in among) new.
Proof.
  induction among as [|study among IH];
    intros files datasets w w' files' datasets'.
  - intros [= <- <- <-]. repeat split. exists [].
    rewrite !app_nil_r. repeat split. constructor.
  - cbn [for_]. cbv [mbind M_bind]. unfold related_study_turn at 1.
    cbv [mbind M_bind].
    destruct (for_ (seriesForStudy studies study) _ _ w)
      as [w1 [[foundSRs datasets1]|]] eqn:Eseries; [|discriminate].
    apply related_series_loop in Eseries as (-> & found & Hfound & -> & Hnew).
    cbn [app] in Hfound. subst foundSRs.
    assert (Hturn : forall w2,
              stdout w2 = stdout w -> markups w2 = markups w ->
              for_ among (related_study_turn db studies read)
                ((files ++ found)%list, (datasets ++ (read <$> found))%list) w2
              = (w', Ok (files', datasets')) ->
              stdout w' = stdout w /\ markups w' = markups w /\
              exists new,
                files' = (files ++ new)%list /\
                datasets' = (datasets ++ (read <$> new))%list /\
                Forall (found_in (study :: among)) new).
    { intros w2 Hout Hmarkups Hrest.
      apply IH in Hrest as (Hout' & Hmarkups' & new & -> & -> & Hrest).
      split; [congruence|]. split; [congruence|].
      exists (found ++ new)%list. rewrite fmap_app, !app_assoc.
      repeat split. apply Forall_app. split.
      - eapply Forall_impl; [exact Hnew|]. intros f (Hr & s & Hs & Hf).
        split; [exact Hr|]. exists study, s. split; [left|]. split; assumption.
      - eapply Forall_impl; [exact Hrest|].
        intros f (Hr & study' & s & Hst & Hs & Hf).
        split; [exact Hr|]. exists study', s. split; [now right|].
        split; assumption. }
    destruct (1 <? length found)%nat; cbv [logging_warning mret M_ret];
      apply Hturn; reflexivity.
Qed.
End RelatedProperties.

Lemma prefix_app (sub rest : string) : String.prefix sub (sub ++ rest) = true.
Proof.
  induction sub as [|c sub IH]; [destruct rest; reflexivity|].
  simpl. destruct (ascii_dec c c); [exact IH|contradiction].
Qed.

Lemma contains_prefix (s sub : string) :
  String.prefix sub s = true -> contains s sub = true.
Proof. intros H. destruct s; cbn [contains]; rewrite H; reflexivity. Qed.

Lemma contains_app (before sub after : string) :
  contains (before ++ sub ++ after) sub = true.
Proof.
  induction before as [|c before IH].
  - change ("" ++ sub ++ after) with (sub ++ after).
    apply contains_prefix, prefix_app.
  - change (String c before ++ sub ++ after)
      with (String c (before ++ sub ++ after)).
    cbn [contains]. rewrite IH. apply orb_true_r.
Qed.

Lemma getRelatedSRs_files_datasets db studies read dataset w w' others files :
  getRelatedSRs db studies read dataset w = (w', Ok (others, files)) ->
  others = read <$> files.
Proof.
  unfold getRelatedSRs. cbn zeta. cbv [mbind M_bind].
  destruct (for_ _ _ _ w) as [w1 [[fs ds]|]] eqn:Eloop; [|discriminate].
  cbv [mret M_ret]. intros [= <- <- <-].
  apply related_study_loop in Eloop as (_ & _ & new & -> & -> & _).
  reflexivity.
Qed.

(** X16.  The two lists that [getRelatedSRs] returns go together: the i-th
    dataset is the i-th file as read.  Every file is accepted by
    [isDICOMTID1500] and is the file of the first instance of a series of
    one of the studies searched; nothing is printed or added to the
    scene. *)
Theorem getRelatedSRs_returns_files_with_their_datasets
    (db : Database) (studies : StudyDatabase) (read : string -> File.t)
    (dataset : File.t) (w w' : World)
    (otherSRDatasets : list File.t) (otherSRFiles : list string) :
  getRelatedSRs db studies read dataset w
  = (w', Ok (otherSRDatasets, otherSRFiles)) ->
  otherSRDatasets = read <$> otherSRFiles /\
  stdout w' = stdout w /\ markups w' = markups w /\
  Forall (fun file =>
            is_report (read file) = true /\
            exists study series,
              study ∈ other_studies studies
                        (getDICOMValue_str (File.StudyInstanceUID dataset) "") /\
              series ∈ seriesForStudy studies study /\
              fileForSeries db studies series = Ok file)
         otherSRFiles.
Proof.
  unfold getRelatedSRs. cbn zeta. cbv [mbind M_bind].
  destruct (for_ _ _ _ w) as [w1 [[files datasets]|]] eqn:Eloop;
    [|discriminate].
  cbv [mret M_ret]. intros [= <- <- <-].
  apply related_study_loop in Eloop as (Hout & Hmarkups & new & -> & -> & Hnew).
  cbn [app]. repeat split; assumption.
Qed.

Lemma getRelatedSRs_returns_files_with_their_datasets_witness :
  exists w' otherSRDatasets otherSRFiles,
    getRelatedSRs sample_file_db sample_studies sample_files
      (sample_files "report.dcm") quiet
    = (w', Ok (otherSRDatasets, otherSRFiles)) /\
    otherSRDatasets = sample_files <$> otherSRFiles /\
    stdout w' = stdout quiet /\ markups w' = markups quiet /\
    Forall (fun file =>
              is_report (sample_files file) = true /\
              exists study series,
                study ∈ other_studies sample_studies
                          (getDICOMValue_str
                             (File.StudyInstanceUID (sample_files "report.dcm")) "") /\
                series ∈ seriesForStudy sample_studies study /\
                fileForSeries sample_file_db sample_studies series = Ok file)
           otherSRFiles.
Proof.
  eexists. eexists. eexists. split; [vm_compute; reflexivity|].
  eapply (getRelatedSRs_returns_files_with_their_datasets
            sample_file_db sample_studies sample_files
            (sample_files "report.dcm") quiet).
  vm_compute. reflexivity.
Defined.

(** X17.  The studies that [getRelatedSRs] searches are chosen by a
    substring test: no study whose UID contains the UID of the report's own
    study, at the front, at the end or in the middle, is among them. *)
Theorem getRelatedSRs_skips_studies_whose_uid_contains_the_own
    (studies : StudyDatabase) (studyInstanceUID before after : string) :
  (before ++ studyInstanceUID ++ after) ∉ other_studies studies studyInstanceUID.
Proof.
  unfold other_studies. intros Hin. apply list_elem_of_filter in Hin.
  destruct Hin as [Hnot _]. rewrite contains_app in Hnot. discriminate.
Qed.

Lemma contains_empty (s : string) : contains s "" = true.
Proof. destruct s; reflexivity. Qed.

(** X18.  For a report without study instance UID (or with an empty one)
    every study contains the empty UID, so none is searched:
    [getRelatedSRs] returns two empty lists and changes nothing. *)
Theorem getRelatedSRs_without_study_uid_finds_nothing
    (db : Database) (studies : StudyDatabase) (read : string -> File.t)
    (dataset : File.t) (w : World) :
  getDICOMValue_str (File.StudyInstanceUID dataset) "" = "" ->
  getRelatedSRs db studies read dataset w = (w, Ok ([], [])).
Proof.
  intros Huid. unfold getRelatedSRs. cbn zeta. rewrite Huid.
  assert (Hnone : other_studies studies "" = []).
  { unfold other_studies.
    induction (studiesForPatient studies (patientForStudy studies ""))
      as [|s l IH]; [reflexivity|].
    rewrite filter_cons, decide_False; [exact IH|].
    rewrite contains_empty. discriminate. }
  rewrite Hnone. reflexivity.
Qed.

Lemma getRelatedSRs_without_study_uid_finds_nothing_witness :
  getRelatedSRs sample_file_db sample_studies sample_files
    (sample_files "nameless.dcm") quiet
  = (quiet, Ok ([], [])).
Proof.
  apply (getRelatedSRs_without_study_uid_finds_nothing
           sample_file_db sample_studies sample_files
           (sample_files "nameless.dcm") quiet).
  reflexivity.
Defined.

Lemma longitudinal_examineFiles_from_lists db studies examine read ref dsn all :
  forall files loadables w w' out,
    (forall f, In f files -> In f all) ->
    Forall (lists_related_reports read all) loadables ->
    longitudinal_examineFiles_from db studies examine read ref dsn
      loadables files w = (w', Ok out) ->
    Forall (lists_related_reports read all) out.
Proof.
  induction files as [|cFile files IH]; intros loadables w w' out Hall Hacc.
  - intros [= <- <-]. exact Hacc.
  - cbn [longitudinal_examineFiles_from]. cbn zeta.
    assert (Hrest : forall f, In f files -> In f all)
      by (intros f Hf; apply Hall; now right).
    destruct (String.eqb _ ""); [intros [= <- <-]; constructor|].
    cbv [mbind M_bind lift].
    destruct (isDICOMTID1500 (File.dataset (read cFile))) as [[]|];
      [| |discriminate].
    2: { apply IH; assumption. }
    destruct (getRelatedSRs db studies read (read cFile) w)
      as [w1 [[others otherFiles]|]] eqn:Erel; [|discriminate].
    apply getRelatedSRs_files_datasets in Erel. subst others.
    destruct (0 <? length otherFiles)%nat eqn:Elen; [|apply IH; assumption].
    destruct (createLoadableAndAddReferences db examine _ w1)
      as [w2 [loadable|]]; [|discriminate].
    apply IH; [assumption|].
    apply Forall_app. split; [assumption|]. constructor; [|constructor].
    exists cFile, otherFiles. split; [apply Hall; now left|].
    split; [destruct otherFiles; [discriminate|discriminate]|].
    split; [reflexivity|]. split; [|reflexivity].
    cbn. rewrite fmap_app, <- list_fmap_compose. reflexivity.
Qed.

(** X19.  Every loadable that the longitudinal [examineFiles] returns was
    made for one of the files examined and has at least one related report:
    its files are the examined file followed by the related files, its UIDs
    are those of the related reports followed by that of the examined one,
    and its confidence is 0.96. *)
Theorem longitudinal_examineFiles_lists_related_reports
    (db : Database) (studies : StudyDatabase)
    (segPlugin_examine : list string -> list (list string))
    (read : string -> File.t) (referencedSOPInstanceUID_of_loadable : option string)
    (defaultSeriesNodeName : string -> string)
    (files : list string) (w w' : World) (loadables : list DICOMLoadable.t) :
  longitudinal_examineFiles db studies segPlugin_examine read
    referencedSOPInstanceUID_of_loadable defaultSeriesNodeName files w
  = (w', Ok loadables) ->
  Forall (lists_related_reports read files) loadables.
Proof.
  unfold longitudinal_examineFiles. intros Hrun.
  eapply longitudinal_examineFiles_from_lists; [| |exact Hrun].
  - auto.
  - constructor.
Qed.

Lemma longitudinal_examineFiles_lists_related_reports_witness :
  exists w' loadables,
    longitudinal_examineFiles sample_file_db sample_studies
      no_segmentation_loadables sample_files None (fun uid => uid)
      ["image.dcm"; "report.dcm"] quiet
    = (w', Ok loadables) /\
    length loadables = 1%nat /\
    Forall (lists_related_reports sample_files ["image.dcm"; "report.dcm"])
           loadables.
Proof.
  eexists. eexists. split; [vm_compute; reflexivity|].
  split; [reflexivity|].
  eapply (longitudinal_examineFiles_lists_related_reports
            sample_file_db sample_studies no_segmentation_loadables
            sample_files None (fun uid => uid)
            ["image.dcm"; "report.dcm"] quiet).
  vm_compute. reflexivity.
Defined.

(** ** Distinct column names *)

Lemma str_inj (a b : nat) : str a = str b -> a = b.
Proof.
  unfold str. intros H.
  apply (f_equal NilEmpty.uint_of_string) in H.
  rewrite !NilEmpty.usu in H. injection H as H.
  apply (f_equal Nat.of_uint) in H. now rewrite !Unsigned.of_to in H.
Qed.

Lemma string_of_uint_no_paren (d : Decimal.uint) :
  "("%char ∉ list_ascii_of_string (NilEmpty.string_of_uint d).
Proof.
  induction d; cbn; try apply not_elem_of_nil;
    apply not_elem_of_cons; (split; [discriminate|assumption]).
Qed.

Lemma list_ascii_of_string_inj (s t : string) :
  list_ascii_of_string s = list_ascii_of_string t -> s = t.
Proof.
  intros H. apply (f_equal string_of_list_ascii) in H.
  now rewrite !string_of_list_ascii_of_string in H.
Qed.

(** A list is split at its last opening parenthesis in one way only. *)
Lemma split_at_last_paren (a1 a2 d1 d2 : list ascii) :
  "("%char ∉ d1 -> "("%char ∉ d2 ->
  (a1 ++ "("%char :: d1 = a2 ++ "("%char :: d2)%list ->
  a1 = a2 /\ d1 = d2.
Proof.
  revert a2. induction a1 as [|c a1 IH]; intros [|c' a2] H1 H2 Heq; cbn in Heq.
  - injection Heq as ->. split; reflexivity.
  - injection Heq as <- ->. exfalso. apply H1.
    apply elem_of_app. right. left.
  - injection Heq as -> <-. exfalso. apply H2.
    apply elem_of_app. right. left.
  - injection Heq as -> Heq. destruct (IH a2 H1 H2 Heq) as [-> ->].
    split; reflexivity.
Qed.

Lemma suffixed_chars (base : string) (k : nat) :
  list_ascii_of_string (base ++ " (" ++ str k ++ ")")
  = ((list_ascii_of_string base ++ [" "%char])
     ++ "("%char :: (list_ascii_of_string (str k) ++ [")"%char]))%list.
Proof.
  rewrite !list_ascii_of_string_app. cbn. rewrite <- app_assoc. reflexivity.
Qed.

Lemma suffixed_inj (base1 base2 : string) (k1 k2 : nat) :
  base1 ++ " (" ++ str k1 ++ ")" = base2 ++ " (" ++ str k2 ++ ")" ->
  base1 = base2 /\ k1 = k2.
Proof.
  intros H. apply (f_equal list_ascii_of_string) in H.
  rewrite !suffixed_chars in H.
  apply split_at_last_paren in H.
  - destruct H as [Hb Hk].
    apply app_inj_tail in Hb as [Hb _]. apply app_inj_tail in Hk as [Hk _].
    split; [now apply list_ascii_of_string_inj|].
    apply str_inj. now apply list_ascii_of_string_inj.
  - intros Hin. apply elem_of_app in Hin as [Hin|Hin].
    + now apply string_of_uint_no_paren in Hin.
    + apply list_elem_of_singleton in Hin. discriminate.
  - intros Hin. apply elem_of_app in Hin as [Hin|Hin].
    + now apply string_of_uint_no_paren in Hin.
    + apply list_elem_of_singleton in Hin. discriminate.
Qed.

Lemma last_char_suffixed (base : string) (k : nat) :
  last_char (base ++ " (" ++ str k ++ ")") = Some ")"%char.
Proof.
  unfold last_char. rewrite suffixed_chars.
  change ("("%char :: (list_ascii_of_string (str k) ++ [")"%char]))%list
    with (("("%char :: list_ascii_of_string (str k)) ++ [")"%char])%list.
  rewrite app_assoc. apply last_snoc.
Qed.

Lemma occurrences_take_le n (l : list string) (a b : nat) :
  (a <= b)%nat -> (occurrences n (take a l) <= occurrences n (take b l))%nat.
Proof.
  intros Hab. unfold occurrences.
  replace (take b l) with (take a l ++ drop a (take b l))%list.
  - rewrite filter_app, length_app. lia.
  - rewrite <- (take_drop a (take b l)) at 2. f_equal.
    rewrite take_take. f_equal. lia.
Qed.

Lemma occurrences_take_S n (l : list string) (j : nat) :
  l !! j = Some n ->
  occurrences n (take (S j) l) = S (occurrences n (take j l)).
Proof.
  intros Hj. rewrite (take_S_r _ _ _ Hj), occurrences_snoc.
  rewrite decide_True by reflexivity. lia.
Qed.

Lemma occurrences_take_lt n (l : list string) (i j : nat) :
  (i < j)%nat -> l !! j = Some n ->
  (occurrences n (take (S i) l) < occurrences n (take (S j) l))%nat.
Proof.
  intros Hij Hj. rewrite (occurrences_take_S n l j Hj).
  pose proof (occurrences_take_le n l (S i) j). lia.
Qed.

Lemma occurrences_take_all n (l : list string) (j : nat) :
  (occurrences n (take j l) <= occurrences n l)%nat.
Proof.
  rewrite <- (firstn_all l) at 2.
  destruct (Nat.le_gt_cases j (length l)).
  - now apply occurrences_take_le.
  - rewrite take_ge by lia. rewrite firstn_all. lia.
Qed.

(** The numbered names are pairwise distinct, provided no name ends with
    a closing parenthesis already. *)
Lemma numbered_names_distinct (names : list string) :
  Forall (fun n => last_char n <> Some ")"%char) names ->
  NoDup (imap (numbered_name names) names).
Proof.
  intros Hlast. apply NoDup_alt. intros i j x Hi Hj.
  rewrite list_lookup_imap in Hi, Hj.
  destruct (names !! i) as [a|] eqn:Ea; [|discriminate].
  destruct (names !! j) as [b|] eqn:Eb; [|discriminate].
  cbn in Hi, Hj. injection Hi as Hi. injection Hj as Hj. subst x.
  assert (Hsame : forall n i j, names !! i = Some n -> names !! j = Some n ->
            occurrences n (take (S i) names) = occurrences n (take (S j) names) ->
            i = j).
  { intros n i' j' Hi' Hj' Hocc.
    destruct (Nat.lt_trichotomy i' j') as [Hlt|[Heq|Hgt]]; [|exact Heq|].
    - pose proof (occurrences_take_lt n names i' j' Hlt Hj'). lia.
    - pose proof (occurrences_take_lt n names j' i' Hgt Hi'). lia. }
  assert (Honce : forall n i j, names !! i = Some n -> names !! j = Some n ->
            ~ (1 < occurrences n names)%nat -> i = j).
  { intros n i' j' Hi' Hj' Hocc.
    destruct (Nat.lt_trichotomy i' j') as [Hlt|[Heq|Hgt]]; [|exact Heq|].
    - pose proof (occurrences_take_lt n names i' j' Hlt Hj').
      pose proof (occurrences_take_all n names (S j')).
      pose proof (occurrences_take_S n names i' Hi'). lia.
    - pose proof (occurrences_take_lt n names j' i' Hgt Hi').
      pose proof (occurrences_take_all n names (S i')).
      pose proof (occurrences_take_S n names j' Hj'). lia. }
  unfold numbered_name in Hj.
  rewrite Forall_forall in Hlast.
  destruct (decide (1 < occurrences a names)%nat) as [Ha|Ha];
    destruct (decide (1 < occurrences b names)%nat) as [Hb|Hb].
  - apply suffixed_inj in Hj as [-> Hocc]. now apply (Hsame a).
  - exfalso. apply (Hlast b); [eapply list_elem_of_lookup_2; exact Eb|].
    rewrite Hj. apply last_char_suffixed.
  - exfalso. apply (Hlast a); [eapply list_elem_of_lookup_2; exact Ea|].
    rewrite <- Hj. apply last_char_suffixed.
  - subst b. now apply (Honce a).
Qed.

Lemma enumerateDuplicateNames_result (items : list dict) (names : list string) :
  Forall2 (fun (item : dict) n => item !! "name" = Some n) items names ->
  enumerateDuplicateNames items
  = Ok (zip_with (fun (item : dict) n => <["name" := n]> item) items
          (imap (numbered_name names) names)).
Proof.
  intros Hnames. unfold enumerateDuplicateNames.
  rewrite (mapM_names _ _ Hnames). cbn.
  pose proof (loop_result names) as Hloop.
  destruct (foldl _ _ _) as [counts copy]. cbn in Hloop. subst copy.
  reflexivity.
Qed.

Lemma renamed_names (items : list dict) (ns : list string) :
  length items = length ns ->
  map (fun d : dict => d !! "name")
      (zip_with (fun (item : dict) n => <["name" := n]> item) items ns)
  = Some <$> ns.
Proof.
  revert ns. induction items as [|item items IH]; intros [|n ns] Hlen;
    try discriminate; [reflexivity|].
  cbn. rewrite lookup_insert_eq. f_equal. apply IH. now injection Hlen.
Qed.

(** X20.  When no name ends with a closing parenthesis,
    [enumerateDuplicateNames] leaves no two items with the same name. *)
Theorem enumerateDuplicateNames_gives_distinct_names
    (items : list dict) (names : list string) :
  Forall2 (fun (item : dict) n => item !! "name" = Some n) items names ->
  Forall (fun n => last_char n <> Some ")"%char) names ->
  exists renamed,
    column_names (enumerateDuplicateNames items) = Ok (Some <$> renamed) /\
    length renamed = length items /\
    NoDup renamed.
Proof.
  intros Hnames Hlast.
  exists (imap (numbered_name names) names).
  rewrite (enumerateDuplicateNames_result items names Hnames).
  pose proof (Forall2_length _ _ _ Hnames) as Hlen.
  split; [|split].
  - cbn. f_equal. apply renamed_names. rewrite length_imap. exact Hlen.
  - rewrite length_imap. now symmetry.
  - now apply numbered_names_distinct.
Qed.

Lemma enumerateDuplicateNames_gives_distinct_names_witness :
  exists renamed,
    column_names
      (enumerateDuplicateNames [info "T2 [ms]"; info "ADC [um2/s]"; info "T2 [ms]"])
    = Ok (Some <$> renamed) /\
    length renamed = length [info "T2 [ms]"; info "ADC [um2/s]"; info "T2 [ms]"] /\
    NoDup renamed.
Proof.
  apply (enumerateDuplicateNames_gives_distinct_names
           [info "T2 [ms]"; info "ADC [um2/s]"; info "T2 [ms]"]
           ["T2 [ms]"; "ADC [um2/s]"; "T2 [ms]"]).
  - repeat constructor.
  - repeat constructor; vm_compute; discriminate.
Defined.

Lemma str_remove_removes (c : ascii) (s : string) :
  c ∉ list_ascii_of_string (str_remove c s).
Proof.
  induction s as [|a s IH]; cbn; [apply not_elem_of_nil|].
  destruct (Ascii.eqb a c) eqn:E; [exact IH|].
  cbn. apply not_elem_of_cons. split; [|exact IH].
  intros ->. rewrite Ascii.eqb_refl in E. discriminate.
Qed.

Lemma str_remove_keeps_out (c c' : ascii) (s : string) :
  c ∉ list_ascii_of_string s -> c ∉ list_ascii_of_string (str_remove c' s).
Proof.
  induction s as [|a s IH]; cbn; [auto|].
  intros Hnot. apply not_elem_of_cons in Hnot as [Hne Hnot].
  destruct (Ascii.eqb a c'); [now apply IH|].
  cbn. apply not_elem_of_cons. split; [exact Hne|now apply IH].
Qed.

(** What [crntInfo] holds when the turn for a measurement item completes. *)
Lemma measurement_info_ok (item : Meta.Item) (crntInfo : dict) :
  measurement_info item = Ok crntInfo ->
  exists units unit unit_label description,
    Meta.units item = Some units /\
    Meta.CodeValue units = Some unit /\
    Meta.CodeMeaning units = Some unit_label /\
    described_as item description /\
    crntInfo
    = <["description" := description]>
        (<["name" := description ++ " ["
                     ++ str_remove "]" (str_remove "[" unit) ++ "]"]>
           (<["unit" := unit_label]> ∅)).
Proof.
  unfold measurement_info, described_as. cbn zeta.
  destruct (Meta.units item) as [units|]; [|discriminate].
  cbn [getkey]. cbv [mbind result_bind rbind].
  destruct (Meta.CodeValue units) as [unit|] eqn:Eunit; [|discriminate].
  destruct (Meta.CodeMeaning units) as [unit_label|] eqn:Elabel; [|discriminate].
  destruct (Meta.derivationModifier item) as [modifier|].
  - destruct (Meta.CodeMeaning modifier) as [description|] eqn:Ed;
      [|discriminate].
    intros [= <-]. exists units, unit, unit_label, description.
    split; [reflexivity|]. split; [exact Eunit|]. split; [exact Elabel|].
    split; [reflexivity|]. rewrite insert_insert_eq. reflexivity.
  - destruct (Meta.quantity item) as [quantity|]; [|discriminate].
    cbn. destruct (Meta.CodeMeaning quantity) as [description|] eqn:Ed;
      [|discriminate].
    intros [= <-]. exists units, unit, unit_label, description.
    split; [reflexivity|]. split; [exact Eunit|]. split; [exact Elabel|].
    split; [|reflexivity]. exists quantity. split; [reflexivity|exact Ed].
Qed.

Lemma measurement_info_names (item : Meta.Item) (info : dict) :
  measurement_info item = Ok info -> names_item item info.
Proof.
  intros Hinfo.
  apply measurement_info_ok in Hinfo
    as (units & unit & unit_label & description & Hu & Hc & Hm & Hd & ->).
  exists units, unit, unit_label, description.
  split; [exact Hu|]. split; [exact Hc|]. split; [exact Hm|].
  split; [exact Hd|]. split; [|split; [|reflexivity]].
  - apply str_remove_keeps_out, str_remove_removes.
  - apply str_remove_removes.
Qed.

(** X21.  When [generateMeasurementInformation] returns, it returns one
    record per measurement item, with exactly the keys name, unit and
    description: the description is the meaning of the derivation modifier
    if the item has one and of the quantity otherwise, the unit is the
    meaning of the units code of the item, and the name is the description
    followed, in square brackets, by the code value of the units of the
    item, from which every square bracket of its own has been removed. *)
Theorem generateMeasurementInformation_names_items_by_description_and_unit
    (measurementItems : list Meta.Item) (infoItems : list dict) :
  generateMeasurementInformation measurementItems = Ok infoItems ->
  Forall2 names_item measurementItems infoItems.
Proof.
  intros H. apply mapM_result_ok in H.
  eapply Forall2_impl; [exact H|]. intros item info Hinfo.
  apply measurement_info_names. exact Hinfo.
Qed.

Lemma measurement_info_sample (modifier : option string) :
  measurement_info (volume_item modifier)
  = Ok (info_of (default "Attenuation Coefficient" modifier) "hnsf'U"
          "Hounsfield unit").
Proof.
  destruct modifier as [m|]; unfold measurement_info, info_of; cbn;
    rewrite ?insert_insert_eq; reflexivity.
Qed.

Lemma generateMeasurementInformation_names_items_by_description_and_unit_witness :
  Forall2 names_item
    [volume_item None; volume_item (Some "Mean")]
    [info_of "Attenuation Coefficient" "hnsf'U" "Hounsfield unit";
     info_of "Mean" "hnsf'U" "Hounsfield unit"].
Proof.
  apply (generateMeasurementInformation_names_items_by_description_and_unit
           [volume_item None; volume_item (Some "Mean")]).
  unfold generateMeasurementInformation. cbn [mapM].
  rewrite !measurement_info_sample. reflexivity.
Defined.

Lemma last_char_bracketed (description unit_code : string) :
  last_char (description ++ " [" ++ unit_code ++ "]") = Some "]"%char.
Proof.
  unfold last_char. rewrite !list_ascii_of_string_app.
  rewrite !last_app. reflexivity.
Qed.

Lemma info_of_lookups (description unit_code unit_label : string) :
  info_of description unit_code unit_label !! "name"
  = Some (description ++ " [" ++ unit_code ++ "]") /\
  info_of description unit_code unit_label !! "unit" = Some unit_label /\
  info_of description unit_code unit_label !! "description" = Some description.
Proof.
  unfold info_of. split; [|split].
  - rewrite lookup_insert_ne by discriminate. apply lookup_insert_eq.
  - rewrite !lookup_insert_ne by discriminate. apply lookup_insert_eq.
  - apply lookup_insert_eq.
Qed.

(** Reading the columns back from the renamed records. *)
Lemma read_columns (infos : list dict) (ns : list string) :
  length infos = length ns ->
  Forall (fun info : dict =>
            info !! "unit" <> None /\ info !! "description" <> None) infos ->
  mapM (M := result)
    (fun info : dict =>
       n ← getitem info "name";
       _ ← getitem info "name";
       _ ← getitem info "name";
       _ ← getitem info "name";
       _ ← getitem info "unit";
       _ ← getitem info "name";
       _ ← getitem info "description";
       Ok n)
    (zip_with (fun (item : dict) n => <["name" := n]> item) infos ns)
  = Ok ns.
Proof.
  revert ns. induction infos as [|info infos IH]; intros [|n ns] Hlen Hkeys;
    try discriminate; [reflexivity|].
  inversion_clear Hkeys as [|? ? [Hu Hd] Hrest].
  cbn [zip_with mapM].
  assert (Hn : getitem (<["name" := n]> info) "name" = Ok n)
    by (unfold getitem; now rewrite lookup_insert_eq).
  destruct (info !! "unit") as [u|] eqn:Eu; [|contradiction].
  destruct (info !! "description") as [d|] eqn:Ed; [|contradiction].
  assert (Hu' : getitem (<["name" := n]> info) "unit" = Ok u)
    by (unfold getitem; rewrite lookup_insert_ne by discriminate;
        now rewrite Eu).
  assert (Hd' : getitem (<["name" := n]> info) "description" = Ok d)
    by (unfold getitem; rewrite lookup_insert_ne by discriminate;
        now rewrite Ed).
  rewrite !Hn, Hu', Hd'. cbn.
  rewrite IH; [reflexivity|now injection Hlen|exact Hrest].
Qed.

Lemma numbered_name_or_suffixed (names : list string) (i : nat) (n : string) :
  numbered_name names i n = n
  \/ last_char (numbered_name names i n) = Some ")"%char.
Proof.
  unfold numbered_name. case_decide; [right|left; reflexivity].
  apply last_char_suffixed.
Qed.

(** The columns of [setupTableInformation], in terms of the names that
    [generateMeasurementInformation] makes. *)
Lemma setupTableInformation_run
    (measurement : Meta.Measurement) (columns : list string) :
  setupTableInformation measurement = Ok columns ->
  exists measurementItems names,
    Meta.measurementItems measurement = Some measurementItems /\
    length names = length measurementItems /\
    Forall (fun n => last_char n = Some "]"%char) names /\
    columns = "Tracking Identifier" :: imap (numbered_name names) names.
Proof.
  unfold setupTableInformation. cbn zeta.
  destruct (Meta.measurementItems measurement) as [items|]; [|discriminate].
  cbn [getkey]. cbv [mbind result_bind rbind].
  destruct (generateMeasurementInformation items) as [infos|] eqn:Egen;
    [|discriminate].
  pose proof (mapM_result_ok _ _ _ Egen) as Hinfos.
  assert (Hshape : Forall2 names_item items infos).
  { eapply Forall2_impl; [exact Hinfos|]. intros item info Hinfo.
    apply measurement_info_names. exact Hinfo. }
  set (names := (fun info : dict => default "" (info !! "name")) <$> infos).
  assert (Hnames : Forall2 (fun (info : dict) n => info !! "name" = Some n)
                     infos names).
  { unfold names. clear -Hshape.
    induction Hshape as [|item info items infos Hitem _ IH]; constructor;
      [|exact IH].
    destruct Hitem as (us & u & l & d & _ & _ & _ & _ & _ & _ & ->).
    destruct (info_of_lookups d (str_remove "]" (str_remove "[" u)) l) as (-> & _ & _). reflexivity. }
  assert (Hends : Forall (fun n => last_char n = Some "]"%char) names).
  { unfold names. clear -Hshape.
    induction Hshape as [|item info items infos Hitem _ IH]; constructor;
      [|exact IH].
    destruct Hitem as (us & u & l & d & _ & _ & _ & _ & _ & _ & ->).
    destruct (info_of_lookups d (str_remove "]" (str_remove "[" u)) l) as (-> & _ & _). cbn.
    apply last_char_bracketed. }
  assert (Hkeys : Forall (fun info : dict =>
                            info !! "unit" <> None /\
                            info !! "description" <> None) infos).
  { clear -Hshape.
    induction Hshape as [|item info items infos Hitem _ IH]; constructor;
      [|exact IH].
    destruct Hitem as (us & u & l & d & _ & _ & _ & _ & _ & _ & ->).
    destruct (info_of_lookups d (str_remove "]" (str_remove "[" u)) l) as (_ & -> & ->). split; discriminate. }
  rewrite (enumerateDuplicateNames_result infos names Hnames).
  pose proof (Forall2_length _ _ _ Hnames) as Hlen.
  pose proof (Forall2_length _ _ _ Hinfos) as Hlen'.
  rewrite read_columns; [|rewrite length_imap; exact Hlen|exact Hkeys].
  intros [= <-]. exists items, names.
  split; [reflexivity|]. split; [congruence|]. split; [exact Hends|].
  reflexivity.
Qed.

(** X22.  The columns that [setupTableInformation] adds to a table have
    pairwise distinct names: "Tracking Identifier" first, then one column
    per measurement item of the measurement. *)
Theorem setupTableInformation_gives_every_column_its_own_name
    (measurement : Meta.Measurement) (columns : list string) :
  setupTableInformation measurement = Ok columns ->
  NoDup columns /\
  columns !! 0%nat = Some "Tracking Identifier" /\
  exists measurementItems,
    Meta.measurementItems measurement = Some measurementItems /\
    length columns = S (length measurementItems).
Proof.
  intros Hrun.
  apply setupTableInformation_run in Hrun
    as (items & names & Hitems & Hlen & Hends & ->).
  split; [|split].
  - apply NoDup_cons. split.
    + intros Hin. apply list_elem_of_lookup in Hin as [i Hi].
      rewrite list_lookup_imap in Hi.
      destruct (names !! i) as [n|] eqn:En; [|discriminate].
      cbn in Hi. injection Hi as Hi.
      assert (Hn : last_char n = Some "]"%char).
      { rewrite Forall_forall in Hends. apply Hends.
        eapply list_elem_of_lookup_2. exact En. }
      destruct (numbered_name_or_suffixed names i n) as [Hsame|Hsuffix].
      * rewrite Hsame in Hi. rewrite Hi in Hn. vm_compute in Hn. discriminate.
      * rewrite Hi in Hsuffix. vm_compute in Hsuffix. discriminate.
    + apply numbered_names_distinct.
      eapply Forall_impl; [exact Hends|]. intros n Hn. rewrite Hn. discriminate.
  - reflexivity.
  - exists items. split; [exact Hitems|].
    cbn. rewrite length_imap. congruence.
Qed.

Lemma setupTableInformation_gives_every_column_its_own_name_witness :
  exists columns,
    setupTableInformation sample_measurement = Ok columns /\
    NoDup columns /\
    columns !! 0%nat = Some "Tracking Identifier" /\
    exists measurementItems,
      Meta.measurementItems sample_measurement = Some measurementItems /\
      length columns = S (length measurementItems).
Proof.
  assert (Hrun : setupTableInformation sample_measurement
                 = Ok ["Tracking Identifier";
                       "Attenuation Coefficient [hnsf'U] (1)";
                       "Mean [hnsf'U]";
                       "Attenuation Coefficient [hnsf'U] (2)"]).
  { vm_compute. reflexivity. }
  eexists. split; [exact Hrun|].
  apply (setupTableInformation_gives_every_column_its_own_name
           sample_measurement _ Hrun).
Defined.

(** ** Tracking identifiers of segments *)

Lemma assign_from_run (uids : list string) :
  forall (measurements : list Meta.Measurement) (idx : nat)
         (segments : list Segment),
    Forall2 (fun m uid => Meta.TrackingUniqueIdentifier m = Some uid)
            measurements uids ->
    assign_from idx measurements segments
    = (imap (fun i segment =>
               match (if (idx <=? i)%nat then uids !! (i - idx)%nat else None) with
               | Some uid => SetTag "TrackingUniqueIdentifier" uid segment
               | None => segment
               end) segments,
       if (length uids =? 0)%nat || (idx + length uids <=? length segments)%nat
       then Ok tt else Raise IndexError).
Proof.
  induction uids as [|uid uids IH]; intros measurements idx segments Hms;
    inversion Hms as [|m ? ms ? Hm Hrest]; subst.
  - cbn [assign_from length]. f_equal.
    apply list_eq. intros i. rewrite list_lookup_imap.
    destruct (segments !! i); [|reflexivity].
    cbn [fmap option_fmap option_map].
    destruct (idx <=? i)%nat; [rewrite lookup_nil|]; reflexivity.
  - cbn [assign_from]. rewrite Hm. cbn [getkey]. unfold index.
    destruct (segments !! idx) as [segment|] eqn:Eseg.
    + assert (Hidx : (idx < length segments)%nat)
        by (eapply lookup_lt_Some; exact Eseg).
      rewrite (IH ms (S idx) _ Hrest). rewrite length_insert. f_equal.
      * apply list_eq. intros i. rewrite !list_lookup_imap.
        destruct (decide (i = idx)) as [->|Hne].
        -- rewrite list_lookup_insert_eq by exact Hidx. rewrite Eseg.
           cbn [fmap option_fmap option_map].
           destruct (Nat.leb_spec (S idx) idx); [lia|].
           rewrite Nat.leb_refl, Nat.sub_diag. reflexivity.
        -- rewrite list_lookup_insert_ne by congruence.
           destruct (segments !! i) as [s|]; [|reflexivity].
           cbn [fmap option_fmap option_map]. f_equal.
           destruct (Nat.leb_spec (S idx) i), (Nat.leb_spec idx i);
             try lia; [|reflexivity].
           replace (i - idx)%nat with (S (i - S idx)) by lia. reflexivity.
      * cbn [length].
        destruct (Nat.leb_spec (S idx + length uids) (length segments)),
                 (Nat.leb_spec (idx + S (length uids)) (length segments));
          try lia; [rewrite orb_true_r; reflexivity|].
        destruct uids; cbn in *; [lia|reflexivity].
    + assert (Hidx : (length segments <= idx)%nat)
        by (now apply lookup_ge_None).
      f_equal.
      * apply list_eq. intros i. rewrite list_lookup_imap.
        destruct (segments !! i) as [s|] eqn:Es; [|reflexivity].
        assert ((i < length segments)%nat) by (eapply lookup_lt_Some; exact Es).
        cbn [fmap option_fmap option_map].
        destruct (Nat.leb_spec idx i); [lia|reflexivity].
      * cbn [length]. cbn [Nat.eqb orb].
        destruct (Nat.leb_spec (idx + S (length uids)) (length segments));
          [lia|reflexivity].
Qed.

(** X23.  With a tracking UID in every measurement,
    [assignTrackingUniqueIdentifier] tags the segments by position: the
    i-th segment gets the UID of the i-th measurement, segments beyond the
    measurements are left alone.  When there are more measurements than
    segments it raises IndexError, after all segments have been tagged. *)
Theorem assignTrackingUniqueIdentifier_tags_segments_by_position
    (data : Meta.File) (measurements : list Meta.Measurement)
    (uids : list string) (segments : list Segment) :
  Meta.Measurements data = Some measurements ->
  Forall2 (fun m uid => Meta.TrackingUniqueIdentifier m = Some uid)
          measurements uids ->
  assignTrackingUniqueIdentifier data segments
  = (tagged uids segments,
     if (length uids <=? length segments)%nat then Ok tt else Raise IndexError).
Proof.
  intros Hdata Hms. unfold assignTrackingUniqueIdentifier. rewrite Hdata.
  cbn [getkey]. rewrite (assign_from_run uids measurements 0 segments Hms).
  unfold tagged. f_equal.
  - apply imap_ext. intros i s _. cbn. now rewrite Nat.sub_0_r.
  - cbn [Nat.add]. destruct uids; [reflexivity|]. reflexivity.
Qed.

Lemma assignTrackingUniqueIdentifier_tags_segments_by_position_witness :
  assignTrackingUniqueIdentifier (tracked ["1.2.3.4"; "1.2.3.5"; "1.2.3.6"])
    [∅; {[ "Name" := "second" ]}]
  = (tagged ["1.2.3.4"; "1.2.3.5"; "1.2.3.6"] [∅; {[ "Name" := "second" ]}],
     if (length ["1.2.3.4"; "1.2.3.5"; "1.2.3.6"] <=? length [∅ : Segment; {[ "Name" := "second" ]}])%nat
     then Ok tt else Raise IndexError).
Proof.
  apply (assignTrackingUniqueIdentifier_tags_segments_by_position
           (tracked ["1.2.3.4"; "1.2.3.5"; "1.2.3.6"])
           ((fun uid =>
               {| Meta.TrackingIdentifier := Some "Lesion";
                  Meta.TrackingUniqueIdentifier := Some uid;
                  Meta.measurementItems := Some [] |})
            <$> ["1.2.3.4"; "1.2.3.5"; "1.2.3.6"])
           ["1.2.3.4"; "1.2.3.5"; "1.2.3.6"]).
  - reflexivity.
  - repeat constructor.
Defined.

(** ** Points *)

(** A turn of the loop over [range(0, len(group[0]))]: IndexError past the
    end of the content sequence, AttributeError for an item that cannot be
    read. *)
Lemma content_turn_run (container : Point.Container) (n : nat)
    (names values : list (list string)) :
  content_turn container n (names, values)
  = match Point.ContentSequence container !! n with
    | None => Raise IndexError
    | Some c =>
        if readable c
        then Ok ((names
                  ++ ((triple_of ∘ Point.name)
                      <$> filter (fun c => String.eqb (Point.RelationshipType c)
                                                      "CONTAINS" = true) [c]))%list,
                 (values
                  ++ omap (fun c => triple_of <$> Point.value c)
                          (filter (fun c => String.eqb (Point.RelationshipType c)
                                                       "CONTAINS" = true) [c]))%list)
        else Raise AttributeError
    end.
Proof.
  unfold content_turn, index, readable.
  destruct (Point.ContentSequence container !! n) as [c|]; [|reflexivity].
  cbv [mbind result_bind rbind]. rewrite filter_cons, filter_nil.
  destruct (String.eqb (Point.RelationshipType c) "CONTAINS") eqn:Erel.
  - rewrite decide_True by reflexivity. rewrite coded_triple_run.
    destruct (has_CodeValue (Point.name c)); cbn [andb]; [|reflexivity].
    destruct (Point.value c) as [v|] eqn:Ev; cbn [getattr]; [|reflexivity].
    rewrite coded_triple_run.
    destruct (has_CodeValue v); [|reflexivity].
    cbn. rewrite Ev. reflexivity.
  - rewrite decide_False by discriminate. cbn. rewrite !app_nil_r.
    reflexivity.
Qed.

(** The loop over [range(0, len(group[0]))]: it reads the first [n] items,
    raises AttributeError at the first of them that cannot be read, and
    IndexError at the first index past the end. *)
Lemma contents_loop (container : Point.Container) (n : nat) :
  for_result (seq 0 n) (content_turn container) ([], [])
  = if forallb readable (take n (Point.ContentSequence container))
    then
      if (n <=? length (Point.ContentSequence container))%nat
      then
        let kept :=
          filter (fun c => String.eqb (Point.RelationshipType c) "CONTAINS" = true)
                 (take n (Point.ContentSequence container)) in
        Ok ((triple_of ∘ Point.name) <$> kept,
            omap (fun c => triple_of <$> Point.value c) kept)
      else Raise IndexError
    else Raise AttributeError.
Proof.
  induction n as [|n IH].
  - reflexivity.
  - rewrite seq_S, for_result_app, IH. cbn [Nat.add].
    destruct (Point.ContentSequence container !! n) as [c|] eqn:Ec.
    + assert (Hlt : (S n <= length (Point.ContentSequence container))%nat)
        by (apply lookup_lt_Some in Ec; lia).
      assert (Hle : (n <= length (Point.ContentSequence container))%nat) by lia.
      apply Nat.leb_le in Hlt, Hle. rewrite Hlt, Hle.
      rewrite (take_S_r _ _ _ Ec), forallb_app. cbn [forallb].
      rewrite andb_true_r.
      destruct (forallb readable (take n (Point.ContentSequence container)));
        cbn [andb]; [|reflexivity].
      cbn zeta. cbn [for_result]. cbv [mbind result_bind rbind].
      rewrite content_turn_run, Ec.
      destruct (readable c); [|reflexivity].
      rewrite filter_app, fmap_app, omap_app. reflexivity.
    + apply lookup_ge_None in Ec.
      rewrite (take_ge _ (S n)) by lia.
      destruct (forallb readable (take n (Point.ContentSequence container)))
        eqn:Hall.
      * rewrite (take_ge _ n) in Hall by lia. rewrite Hall.
        destruct (Nat.leb_spec (S n) (length (Point.ContentSequence container)));
          [lia|].
        destruct (Nat.leb_spec n (length (Point.ContentSequence container))).
        -- cbn zeta. cbn [for_result]. cbv [mbind result_bind rbind].
           rewrite content_turn_run.
           destruct (Point.ContentSequence container !! n) eqn:Ec';
             [|reflexivity].
           apply lookup_lt_Some in Ec'. lia.
        -- reflexivity.
      * rewrite (take_ge _ n) in Hall by lia. rewrite Hall. reflexivity.
Qed.

Lemma index_nth {A} (l : list A) (i : nat) (x d : A) :
  index l i = Ok x -> nth i l d = x.
Proof.
  unfold index. destruct (l !! i) as [y|] eqn:E; [|discriminate].
  intros [= <-]. now apply nth_lookup_Some.
Qed.

Lemma point_columns_loop (rowIndex : nat) (values : list (list string))
    (names : list (list string)) :
  forall (j : nat) (table table' : PointTable),
    for_enumerate j names (point_column_turn rowIndex values) table = Ok table' ->
    point_columns table' = (point_columns table ++ (meaning_of <$> names))%list /\
    point_rows table' = point_rows table /\
    point_cells table'
    = (point_cells table
       ++ imap (fun k _ =>
                  (rowIndex, (4 + (j + k))%nat,
                   Text (meaning_of (nth (j + k) values []))))
               names)%list.
Proof.
  induction names as [|name names IH]; intros j table table'.
  - intros [= <-]. cbn. rewrite !app_nil_r. repeat split.
  - cbn [for_enumerate]. cbv [mbind result_bind rbind].
    unfold point_column_turn at 1. cbv [mbind result_bind rbind].
    destruct (index name 2) as [colName|] eqn:Ename; [|discriminate].
    destruct (index values j) as [value|] eqn:Evalue; [|discriminate].
    destruct (index value 2) as [colValue|] eqn:Ecol; [|discriminate].
    intros Hrest. apply IH in Hrest as (Hc & Hr & Hcells).
    cbn [point_columns point_rows point_cells] in Hc, Hr, Hcells.
    split; [|split].
    + rewrite Hc, <- app_assoc, fmap_cons. cbn [app].
      unfold meaning_of at 2. now rewrite (index_nth _ _ _ "" Ename).
    + exact Hr.
    + rewrite Hcells, <- app_assoc. cbn [imap app]. f_equal. f_equal.
      * rewrite Nat.add_0_r. unfold meaning_of.
        rewrite (index_nth _ _ _ [] Evalue), (index_nth _ _ _ "" Ecol).
        reflexivity.
      * apply imap_ext. intros k x _. cbn.
        replace (j + S k)%nat with (S (j + k)) by lia. reflexivity.
Qed.

Lemma point_row_turn_ok (p : PointInfo.t) (table table' : PointTable) :
  point_row_turn p table = Ok table' ->
  point_columns table'
  = (point_columns table ++ (meaning_of <$> PointInfo.ContentSequenceNames p))%list /\
  point_rows table' = S (point_rows table) /\
  point_cells table'
  = (point_cells table ++ point_row_cells (point_rows table) p)%list.
Proof.
  unfold point_row_turn. cbn zeta. cbv [mbind result_bind rbind].
  destruct (first_item (PointInfo.FindingSite p)) as [site|] eqn:Esite;
    [|discriminate].
  destruct (index (PointInfo.FindingType p) 2) as [ft|] eqn:Eft; [|discriminate].
  destruct (index site 2) as [fs|] eqn:Efs; [|discriminate].
  intros Hloop. apply point_columns_loop in Hloop as (Hc & Hr & Hcells).
  cbn [point_columns point_rows point_cells] in Hc, Hr, Hcells.
  split; [exact Hc|]. split; [exact Hr|].
  rewrite Hcells, <- app_assoc. unfold point_row_cells. f_equal.
  cbn [app]. unfold meaning_of.
  rewrite (index_nth _ _ _ "" Eft).
  destruct (PointInfo.FindingSite p) as [|site' sites]; [discriminate|].
  injection Esite as ->. cbn [nth]. rewrite (index_nth _ _ _ "" Efs).
  reflexivity.
Qed.

Lemma point_rows_loop (point_infos : list PointInfo.t) :
  forall (table table' : PointTable),
    for_result point_infos point_row_turn table = Ok table' ->
    point_columns table'
    = (point_columns table
       ++ (meaning_of <$> concat (PointInfo.ContentSequenceNames <$> point_infos)))%list /\
    point_rows table' = (point_rows table + length point_infos)%nat /\
    point_cells table'
    = (point_cells table
       ++ concat (imap (fun r p => point_row_cells (point_rows table + r) p)
                       point_infos))%list.
Proof.
  induction point_infos as [|p infos IH]; intros table table'.
  - intros [= <-]. cbn. rewrite !app_nil_r, Nat.add_0_r. repeat split.
  - cbn [for_result]. cbv [mbind result_bind rbind].
    destruct (point_row_turn p table) as [table1|] eqn:Erow; [|discriminate].
    apply point_row_turn_ok in Erow as (Hc1 & Hr1 & Hcells1).
    intros Hrest. apply IH in Hrest as (Hc & Hr & Hcells).
    split; [|split].
    + rewrite Hc, Hc1, fmap_cons. cbn [concat].
      rewrite fmap_app, app_assoc. reflexivity.
    + rewrite Hr, Hr1. cbn [length]. lia.
    + rewrite Hcells, Hcells1, Hr1, <- app_assoc. cbn [imap concat].
      rewrite Nat.add_0_r. f_equal. f_equal. f_equal.
      apply imap_ext. intros r q _. unfold compose. f_equal. lia.
Qed.

(** X24.  The loop over the content items of a group runs over
    [range(0, len(group[0]))] and indexes the content sequence with it.
    When one of the first [len(group[0])] items is related by CONTAINS and
    its name or its value has no attribute [CodeValue], the loop ends in
    AttributeError; otherwise, when the container answers a length greater
    than that of its content sequence the loop ends in IndexError; otherwise
    only the first [len(group[0])] items are read, and those related by
    CONTAINS give the names and values. *)
Theorem read_contents_counts_by_the_length_of_the_container
    (g : Point.Group) (container : Point.Container)
    (others : list Point.Container) (vars : Point.Locals) :
  Point.items g = container :: others ->
  read_contents g vars
  = if forallb readable
         (take (Point.len container) (Point.ContentSequence container))
    then
      if (Point.len container <=? length (Point.ContentSequence container))%nat
      then Ok {| Point.content_sequence_names :=
                   Some ((triple_of ∘ Point.name) <$> kept_contents container);
                 Point.content_sequence_values :=
                   Some (omap (fun c => triple_of <$> Point.value c)
                              (kept_contents container));
                 Point.referenced_frame_of_reference_uid :=
                   Point.referenced_frame_of_reference_uid vars;
                 Point.extracted_data := Point.extracted_data vars |}
      else Raise IndexError
    else Raise AttributeError.
Proof.
  intros Hitems. unfold read_contents. rewrite Hitems.
  cbn [length Nat.ltb Nat.leb first_item]. cbv [mbind result_bind rbind].
  rewrite (contents_loop container (Point.len container)).
  destruct (forallb readable _); [|reflexivity].
  destruct (Point.len container <=? _)%nat; reflexivity.
Qed.

Lemma read_contents_counts_by_the_length_of_the_container_witness :
  read_contents (point_group "Lesion1" "2" 5) Point.unbound = Raise IndexError /\
  read_contents (unreadable_point_group 5) Point.unbound = Raise AttributeError.
Proof.
  split.
  - apply (read_contents_counts_by_the_length_of_the_container
             (point_group "Lesion1" "2" 5)
             {| Point.len := 5; Point.ContentSequence := [grade_item "2"] |}
             [] Point.unbound).
    reflexivity.
  - apply (read_contents_counts_by_the_length_of_the_container
             (unreadable_point_group 5)
             {| Point.len := 5; Point.ContentSequence := [long_grade_item] |}
             [] Point.unbound).
    reflexivity.
Defined.

Lemma read_contents_keeps_point (g : Point.Group) (vars vars' : Point.Locals) :
  read_contents g vars = Ok vars' ->
  Point.extracted_data vars' = Point.extracted_data vars /\
  Point.referenced_frame_of_reference_uid vars'
  = Point.referenced_frame_of_reference_uid vars /\
  (Point.items g = [] ->
   Point.content_sequence_names vars' = Point.content_sequence_names vars).
Proof.
  unfold read_contents. destruct (Point.items g) as [|c cs].
  - intros [= <-]. repeat split.
  - cbn [length Nat.ltb Nat.leb first_item]. cbv [mbind result_bind rbind].
    destruct (for_result _ _ _); [|discriminate].
    intros [= <-]. repeat split. discriminate.
Qed.

(** The body of the loop over the groups, once the finding type and the
    finding sites have been read. *)
Lemma point_group_body_run (g : Point.Group) (vars : Point.Locals)
    (point_infos : list PointInfo.t) :
  point_group_body g (vars, point_infos)
  = if findings_readable (Point.group g)
    then
      vars ← read_contents g vars;
      vars ← read_point g vars;
      p ← make_point_info g
             (match hd.finding_type (Point.group g) with
              | Some ft => triple_of ft
              | None => []
              end)
             (omap (fun site =>
                      match hd.ConceptCodeSequence site with
                      | Some (c :: _) => Some (triple_of c)
                      | _ => None
                      end) (hd.finding_sites (Point.group g)))
             vars;
      Ok (vars, (point_infos ++ [p])%list)
    else Raise AttributeError.
Proof.
  unfold point_group_body.
  pose proof (findings_run (Point.group g)) as Hf.
  cbv [mbind result_bind rbind] in Hf |- *.
  destruct (getattr (hd.finding_type (Point.group g))) as [ft|];
    [|destruct (findings_readable (Point.group g)); [discriminate|];
      injection Hf as <-; reflexivity].
  destruct (coded_triple ft) as [finding_type|];
    [|destruct (findings_readable (Point.group g)); [discriminate|];
      injection Hf as <-; reflexivity].
  destruct (collect_finding_sites _) as [finding_sites|];
    destruct (findings_readable (Point.group g)); try discriminate.
  - injection Hf as <- <-. reflexivity.
  - injection Hf as <-. reflexivity.
Qed.

(** X25.  When the first group is not an Image Region of graphic type
    POINT, or is an empty sequence, the extraction ends in an error: in
    AttributeError when the finding type or a finding site of the group
    cannot be read (the group has no finding type, or one of the codes has
    no attribute [CodeValue]), and otherwise in an unbound-variable error,
    since the record is built from variables that only [if len(group) > 0]
    and the POINT branch assign. *)
Theorem extractPoint_first_group_reads_unbound_variables
    (g : Point.Group) (rest : list Point.Group) (vars : Point.Locals) :
  read_contents g Point.unbound = Ok vars ->
  (is_image_region (hd.reference_type (Point.group g)) = true ->
   hd.roi (Point.group g) <> None /\
   Point.ReferencedFrameOfReferenceUID g <> None) ->
  has_point_roi g = false \/ Point.items g = [] ->
  extractPointMetadataToVtkTableNode (g :: rest)
  = Raise (if findings_readable (Point.group g)
           then UnboundLocalError else AttributeError).
Proof.
  intros Hcontents Hregion Hcase.
  unfold extractPointMetadataToVtkTableNode. cbn [for_result].
  rewrite point_group_body_run.
  destruct (findings_readable (Point.group g)); [|reflexivity].
  cbv [mbind result_bind rbind]. rewrite Hcontents.
  destruct (read_contents_keeps_point g _ _ Hcontents) as (Hpoint & Hframe & Hnames).
  cbn in Hpoint, Hframe. unfold read_point, has_point_roi in *.
  destruct (is_image_region (hd.reference_type (Point.group g))) eqn:Ereg.
  - destruct (Hregion eq_refl) as [Hroi Huid].
    destruct (hd.roi (Point.group g)) as [r|]; [|contradiction].
    destruct (Point.ReferencedFrameOfReferenceUID g) as [uid|]; [|contradiction].
    cbn [getattr]. cbv [mbind result_bind rbind]. unfold make_point_info.
    cbn [Point.referenced_frame_of_reference_uid Point.content_sequence_names
         Point.content_sequence_values Point.extracted_data read_local].
    cbv [mbind result_bind rbind].
    destruct (Point.content_sequence_names vars) as [names|] eqn:En;
      [|reflexivity].
    destruct (Point.content_sequence_values vars) as [values|]; [|reflexivity].
    destruct Hcase as [Hcase|Hcase].
    + cbn [andb] in Hcase. rewrite Hcase, Hpoint. reflexivity.
    + specialize (Hnames Hcase). cbn in Hnames. discriminate.
  - unfold make_point_info. rewrite Hframe. reflexivity.
Qed.

Lemma extractPoint_first_group_reads_unbound_variables_witness :
  extractPointMetadataToVtkTableNode
    [ {| Point.group := region_group "POLYLINE" (Some "1.2.3");
         Point.items := [ {| Point.len := 1;
                             Point.ContentSequence := [grade_item "2"] |} ];
         Point.ReferencedFrameOfReferenceUID := Some "1.2.840.99" |} ]
  = Raise UnboundLocalError /\
  extractPointMetadataToVtkTableNode
    [ {| Point.group :=
           with_finding_type
             (Some (long_coded "126000000000000001" "99X" "Lesion"))
             (region_group "POLYLINE" (Some "1.2.3"));
         Point.items := [ {| Point.len := 1;
                             Point.ContentSequence := [grade_item "2"] |} ];
         Point.ReferencedFrameOfReferenceUID := Some "1.2.840.99" |} ]
  = Raise AttributeError.
Proof.
  split.
  - eapply (extractPoint_first_group_reads_unbound_variables
              {| Point.group := region_group "POLYLINE" (Some "1.2.3");
                 Point.items := [ {| Point.len := 1;
                                     Point.ContentSequence := [grade_item "2"] |} ];
                 Point.ReferencedFrameOfReferenceUID := Some "1.2.840.99" |}
              []).
    + reflexivity.
    + intros _. split; discriminate.
    + left. reflexivity.
  - eapply (extractPoint_first_group_reads_unbound_variables
              {| Point.group :=
                   with_finding_type
                     (Some (long_coded "126000000000000001" "99X" "Lesion"))
                     (region_group "POLYLINE" (Some "1.2.3"));
                 Point.items := [ {| Point.len := 1;
                                     Point.ContentSequence := [grade_item "2"] |} ];
                 Point.ReferencedFrameOfReferenceUID := Some "1.2.840.99" |}
              []).
    + reflexivity.
    + intros _. split; discriminate.
    + left. reflexivity.
Defined.

Lemma createPointTable_rows (point_infos : list PointInfo.t) (table : PointTable) :
  createPointTable point_infos = Ok table ->
  point_rows table = length point_infos.
Proof.
  unfold createPointTable. intros Hrun.
  apply point_rows_loop in Hrun as (_ & Hr & _). exact Hr.
Qed.

(** X26.  The table of [createPointTable] has one row per entry.  Every
    entry adds one column for each of its content items, after all columns
    added before; but the value of its j-th content item is always set in
    column 4 + j.  So the header over that value is the j-th name counted
    over all entries from the first, whichever entry the value belongs
    to. *)
Theorem createPointTable_sets_values_from_column_four
    (point_infos : list PointInfo.t) (table : PointTable) :
  createPointTable point_infos = Ok table ->
  point_rows table = length point_infos /\
  point_columns table
  = (["Tracking Identifier"; "FindingType"; "FindingSite"; "Point"]
     ++ (meaning_of
         <$> concat (PointInfo.ContentSequenceNames <$> point_infos)))%list /\
  point_cells table
  = concat (imap (fun r p => point_row_cells r p) point_infos) /\
  forall r p j,
    point_infos !! r = Some p ->
    (j < length (PointInfo.ContentSequenceNames p))%nat ->
    (r, (4 + j)%nat,
     Text (meaning_of (nth j (PointInfo.ContentSequenceValues p) [])))
    ∈ point_cells table.
Proof.
  unfold createPointTable. intros Hrun.
  apply point_rows_loop in Hrun as (Hc & Hr & Hcells).
  cbn [new_point_table point_columns point_rows point_cells app Nat.add] in *.
  split; [exact Hr|]. split; [exact Hc|]. split; [exact Hcells|].
  intros r p j Hp Hj. rewrite Hcells.
  apply list_elem_of_In, in_concat. exists (point_row_cells r p). split.
  - apply list_elem_of_In, list_elem_of_lookup. exists r.
    rewrite list_lookup_imap, Hp. reflexivity.
  - apply list_elem_of_In. unfold point_row_cells.
    apply elem_of_app. right. apply list_elem_of_lookup. exists j.
    rewrite list_lookup_imap.
    destruct (lookup_lt_is_Some_2 _ _ Hj) as [name ->]. reflexivity.
Qed.

Lemma point_group_body_ok (g : Point.Group) (vars vars' : Point.Locals)
    (infos infos' : list PointInfo.t) :
  point_group_body g (vars, infos) = Ok (vars', infos') ->
  exists p, infos' = (infos ++ [p])%list.
Proof.
  rewrite point_group_body_run. cbv [mbind result_bind rbind].
  destruct (findings_readable (Point.group g)); [|discriminate].
  destruct (read_contents g vars); [|discriminate].
  destruct (read_point g _); [|discriminate].
  destruct (make_point_info g _ _ _) as [p|]; [|discriminate].
  intros [= _ <-]. now exists p.
Qed.

Lemma point_groups_loop (groups : list Point.Group) :
  forall vars infos vars' infos',
    for_result groups point_group_body (vars, infos) = Ok (vars', infos') ->
    length infos' = (length infos + length groups)%nat.
Proof.
  induction groups as [|g groups IH]; intros vars infos vars' infos'.
  - intros [= _ <-]. cbn. lia.
  - cbn [for_result]. cbv [mbind result_bind rbind].
    destruct (point_group_body g (vars, infos)) as [[vars1 infos1]|] eqn:E;
      [|discriminate].
    apply point_group_body_ok in E as [p ->].
    intros Hrest. apply IH in Hrest. rewrite Hrest, length_app. cbn. lia.
Qed.

(** X27.  For a report without measurement groups the point extraction
    returns: no record, and a table of the four fixed columns without rows.
    Whenever it returns, it returns one record and one table row per
    measurement group. *)
Theorem extractPoint_returns_one_row_per_group
    (groups : list Point.Group)
    (point_infos : list PointInfo.t) (tableNode : PointTable) :
  extractPointMetadataToVtkTableNode [] = Ok ([], new_point_table) /\
  (extractPointMetadataToVtkTableNode groups = Ok (point_infos, tableNode) ->
   length point_infos = length groups /\
   point_rows tableNode = length groups).
Proof.
  split; [reflexivity|].
  unfold extractPointMetadataToVtkTableNode. cbv [mbind result_bind rbind].
  destruct (for_result groups point_group_body _) as [[vars infos]|] eqn:Eloop;
    [|discriminate].
  destruct (createPointTable infos) as [table|] eqn:Etable; [|discriminate].
  intros [= <- <-].
  pose proof (point_groups_loop _ _ _ _ _ Eloop) as Hlen. cbn in Hlen.
  pose proof Etable as Hrows.
  apply createPointTable_rows in Hrows.
  split; [exact Hlen|congruence].
Qed.

Lemma createPointTable_sets_values_from_column_four_witness :
  exists table,
    createPointTable [point_entry "Lesion1" "2"; point_entry "Lesion2" "4"]
    = Ok table /\
    point_columns table
    = ["Tracking Identifier"; "FindingType"; "FindingSite"; "Point";
       "Grade group"; "Grade group"] /\
    (1%nat, 4%nat, Text "Grade 4") ∈ point_cells table.
Proof.
  eexists. split; [vm_compute; reflexivity|].
  edestruct (createPointTable_sets_values_from_column_four
               [point_entry "Lesion1" "2"; point_entry "Lesion2" "4"])
    as (_ & Hcolumns & _ & Hcell).
  - vm_compute. reflexivity.
  - split; [exact Hcolumns|].
    exact (Hcell 1%nat (point_entry "Lesion2" "4") 0%nat eq_refl (Nat.lt_0_succ 0)).
Defined.

Lemma extractPoint_returns_one_row_per_group_witness :
  exists point_infos tableNode,
    extractPointMetadataToVtkTableNode two_points = Ok (point_infos, tableNode) /\
    length point_infos = length two_points /\
    point_rows tableNode = length two_points.
Proof.
  eexists. eexists. split; [vm_compute; reflexivity|].
  apply (extractPoint_returns_one_row_per_group two_points).
  vm_compute. reflexivity.
Defined.

(** ** Showing points *)

Lemma displayPointMarkups_from_run (point_infos : list PointInfo.t) :
  forall (i : nat) (scene : PointScene),
    Forall (fun p => (3 <= length (PointInfo.point p))%nat) point_infos ->
    displayPointMarkups_from i point_infos scene
    = ({| fiducials :=
            (fiducials scene
             ++ imap (fun k p => fiducial_of (i + k) p) point_infos)%list;
          jumps :=
            (jumps scene
             ++ match point_infos with
                | p :: _ => if (i =? 0)%nat then [shown_at p] else []
                | [] => []
                end)%list |}, Ok tt).
Proof.
  induction point_infos as [|p infos IH]; intros i scene Hall.
  - cbn. rewrite !app_nil_r. destruct scene. reflexivity.
  - inversion_clear Hall as [|? ? Hp Hrest].
    cbn [displayPointMarkups_from]. unfold index.
    destruct (PointInfo.point p) as [|x [|y [|z coords]]] eqn:Epoint;
      cbn in Hp; try lia.
    cbn [lookup list_lookup]. cbn zeta.
    rewrite (IH (S i) _ Hrest). unfold create_3d_point. cbn zeta.
    cbn [fiducial_name fiducial_locked fiducial_points fiducial_labels app].
    assert (Hnode : fiducial_of (i + 0) p
                    = {| fiducial_name := PointInfo.TrackingIdentifier p;
                         fiducial_locked := true;
                         fiducial_points := [[- x; - y; z]%Q];
                         fiducial_labels := [(i, PointInfo.TrackingIdentifier p)] |}).
    { unfold fiducial_of, shown_at. rewrite Epoint, Nat.add_0_r. reflexivity. }
    assert (Hshown : shown_at p = [- x; - y; z]%Q)
      by (unfold shown_at; rewrite Epoint; reflexivity).
    cbn [imap]. rewrite Hnode, Hshown. f_equal.
    destruct (i =? 0)%nat eqn:Ei; cbn [fiducials jumps].
    + f_equal.
      * rewrite <- app_assoc. cbn [app]. f_equal. f_equal.
        apply imap_ext. intros k q _. unfold compose. f_equal. lia.
      * destruct infos; cbn [Nat.eqb]; rewrite ?app_nil_r; reflexivity.
    + f_equal.
      * rewrite <- app_assoc. cbn [app]. f_equal. f_equal.
        apply imap_ext. intros k q _. unfold compose. f_equal. lia.
      * destruct infos; cbn [Nat.eqb]; rewrite ?app_nil_r; reflexivity.
Qed.

(** X28.  For entries that all have three coordinates,
    [displayPointMarkups] adds one locked fiducial node per entry, in
    order, named after the tracking identifier, with the single control
    point (-x, -y, z); the label of the node for the k-th entry is addressed
    to control point k of that node; and the slice views are sent once, to
    the first point. *)
Theorem displayPointMarkups_adds_one_fiducial_per_entry
    (point_infos : list PointInfo.t) (scene : PointScene) :
  Forall (fun p => (3 <= length (PointInfo.point p))%nat) point_infos ->
  displayPointMarkups point_infos scene
  = ({| fiducials := (fiducials scene ++ imap fiducial_of point_infos)%list;
        jumps := (jumps scene
                  ++ match point_infos with
                     | p :: _ => [shown_at p]
                     | [] => []
                     end)%list |}, Ok tt).
Proof.
  intros Hall. unfold displayPointMarkups.
  rewrite (displayPointMarkups_from_run point_infos 0 scene Hall).
  reflexivity.
Qed.

Lemma displayPointMarkups_adds_one_fiducial_per_entry_witness :
  displayPointMarkups [point_entry "Lesion1" "2"; point_entry "Lesion2" "4"]
    empty_scene
  = ({| fiducials :=
          (fiducials empty_scene
           ++ imap fiducial_of
                   [point_entry "Lesion1" "2"; point_entry "Lesion2" "4"])%list;
        jumps := (jumps empty_scene
                  ++ [shown_at (point_entry "Lesion1" "2")])%list |}, Ok tt).
Proof.
  apply (displayPointMarkups_adds_one_fiducial_per_entry
           [point_entry "Lesion1" "2"; point_entry "Lesion2" "4"] empty_scene).
  repeat constructor.
Defined.

(** ** The measurement table *)

Lemma for_enumerate_values (rowIndex : nat) (items : list Meta.Item) :
  forall (j : nat) (table table' : MeasurementTable),
    for_enumerate j items (value_turn rowIndex) table = Ok table' ->
    table_columns table' = table_columns table /\
    table_rows table' = table_rows table /\
    table_attributes table' = table_attributes table /\
    table_cells table'
    = (table_cells table
       ++ imap (fun k item =>
                  (rowIndex, (j + k + 1)%nat, default "" (Meta.value item)))
               items)%list.
Proof.
  induction items as [|item items IH]; intros j table table'.
  - intros [= <-]. cbn. rewrite app_nil_r. repeat split.
  - cbn [for_enumerate]. cbv [mbind result_bind rbind]. unfold value_turn at 1.
    destruct (Meta.value item) as [value|] eqn:Evalue; [|discriminate].
    cbn [getkey]. cbv [mbind result_bind rbind].
    intros Hrest. apply IH in Hrest as (Hc & Hr & Ha & Hcells).
    cbn [SetCellText table_columns table_rows table_attributes table_cells]
      in Hc, Hr, Ha, Hcells.
    split; [exact Hc|]. split; [exact Hr|]. split; [exact Ha|].
    rewrite Hcells, <- app_assoc. cbn [imap app]. rewrite Evalue.
    cbn [default]. rewrite Nat.add_0_r. f_equal. f_equal.
    apply imap_ext. intros k x _. unfold compose. cbn. f_equal. f_equal. lia.
Qed.

Lemma measurement_row_turn_ok (measurement : Meta.Measurement)
    (table table' : MeasurementTable) :
  measurement_row_turn measurement table = Ok table' ->
  table_columns table' = table_columns table /\
  table_rows table' = S (table_rows table) /\
  table_attributes table' = table_attributes table /\
  table_cells table'
  = (table_cells table ++ measurement_row_cells (table_rows table) measurement)%list.
Proof.
  unfold measurement_row_turn, measurement_row_cells.
  destruct (Meta.TrackingIdentifier measurement) as [name|]; [|discriminate].
  cbn [getkey AddEmptyRow]. cbv [mbind result_bind rbind].
  destruct (Meta.measurementItems measurement) as [items|]; [|discriminate].
  intros Hloop. apply for_enumerate_values in Hloop as (Hc & Hr & Ha & Hcells).
  cbn [SetCellText table_columns table_rows table_attributes table_cells]
    in Hc, Hr, Ha, Hcells.
  split; [exact Hc|]. split; [exact Hr|]. split; [exact Ha|].
  rewrite Hcells, <- app_assoc. reflexivity.
Qed.

Lemma measurement_rows_loop (measurements : list Meta.Measurement) :
  forall (table table' : MeasurementTable),
    for_result measurements measurement_row_turn table = Ok table' ->
    table_columns table' = table_columns table /\
    table_rows table' = (table_rows table + length measurements)%nat /\
    table_attributes table' = table_attributes table /\
    table_cells table'
    = (table_cells table
       ++ concat (imap (fun r m => measurement_row_cells (table_rows table + r) m)
                       measurements))%list.
Proof.
  induction measurements as [|m ms IH]; intros table table'.
  - intros [= <-]. cbn. rewrite app_nil_r, Nat.add_0_r. repeat split.
  - cbn [for_result]. cbv [mbind result_bind rbind].
    destruct (measurement_row_turn m table) as [table1|] eqn:Erow;
      [|discriminate].
    apply measurement_row_turn_ok in Erow as (Hc1 & Hr1 & Ha1 & Hcells1).
    intros Hrest. apply IH in Hrest as (Hc & Hr & Ha & Hcells).
    split; [congruence|]. split; [rewrite Hr, Hr1; cbn [length]; lia|].
    split; [congruence|].
    rewrite Hcells, Hcells1, Hr1, <- app_assoc. cbn [imap concat].
    rewrite Nat.add_0_r. f_equal. f_equal. f_equal.
    apply imap_ext. intros r q _. unfold compose. f_equal. lia.
Qed.

(** What a table returned by [metadata2vtkTableNode] is made of. *)
Lemma metadata2vtkTableNode_returns (data : Meta.File) (table : MeasurementTable) :
  metadata2vtkTableNode data = Ok (Some table) ->
  exists first rest,
    Meta.Measurements data = Some (first :: rest) /\
    setupTableInformation first = Ok (table_columns table) /\
    table_rows table = S (length rest) /\
    table_cells table = concat (imap measurement_row_cells (first :: rest)).
Proof.
  unfold metadata2vtkTableNode, addMeasurementsToTable, add_columns.
  destruct (Meta.Measurements data) as [[|first rest]|];
    cbn [getkey]; cbv [mbind result_bind rbind first_item];
    try discriminate.
  destruct (setupTableInformation first) as [columns|] eqn:Ecols;
    cbn beta iota;
    [|discriminate].
  destruct (for_result _ _ _) as [table1|] eqn:Eloop; cbn beta iota;
    [|discriminate].
  intros [= <-].
  apply measurement_rows_loop in Eloop as (Hc & Hr & _ & Hcells).
  cbn [createAndConfigureTable table_columns table_rows table_cells app
       Nat.add] in Hc, Hr, Hcells.
  exists first, rest. split; [reflexivity|].
  split; [rewrite Hc; exact Ecols|].
  split; [exact Hr|exact Hcells].
Qed.

(** X29.  [metadata2vtkTableNode] returns [None] exactly for metadata
    without the key "Measurements" and raises IndexError for an empty list
    of measurements.  A table it returns has its columns from the first
    measurement alone, one row per measurement, and in row r the tracking
    identifier in column 0 and the value of the j-th measurement item in
    column j + 1. *)
Theorem metadata2vtkTableNode_fills_rows_by_position (data : Meta.File) :
  match Meta.Measurements data with
  | None => metadata2vtkTableNode data = Ok None
  | Some [] => metadata2vtkTableNode data = Raise IndexError
  | Some (first :: rest) =>
      metadata2vtkTableNode data <> Ok None /\
      forall table,
        metadata2vtkTableNode data = Ok (Some table) ->
        setupTableInformation first = Ok (table_columns table) /\
        table_rows table = S (length rest) /\
        table_cells table = concat (imap measurement_row_cells (first :: rest))
  end.
Proof.
  destruct (Meta.Measurements data) as [[|first rest]|] eqn:Edata.
  - unfold metadata2vtkTableNode. rewrite Edata. reflexivity.
  - split.
    + unfold metadata2vtkTableNode. rewrite Edata.
      cbn [getkey]. cbv [mbind result_bind rbind first_item].
      destruct (add_columns first createAndConfigureTable) as [table1|];
        cbn beta iota; [|discriminate].
      destruct (addMeasurementsToTable data table1); discriminate.
    + intros table Hrun.
      apply metadata2vtkTableNode_returns in Hrun
        as (first' & rest' & Hdata & Hc & Hr & Hcells).
      rewrite Edata in Hdata. injection Hdata as <- <-. auto.
  - unfold metadata2vtkTableNode. rewrite Edata. reflexivity.
Qed.

Lemma metadata2vtkTableNode_fills_rows_by_position_witness :
  exists table,
    metadata2vtkTableNode two_measurement_file = Ok (Some table) /\
    setupTableInformation short_measurement = Ok (table_columns table) /\
    table_rows table = 2%nat /\
    table_cells table
    = concat (imap measurement_row_cells [short_measurement; sample_measurement]).
Proof.
  eexists. split; [vm_compute; reflexivity|].
  apply (proj2 (metadata2vtkTableNode_fills_rows_by_position
                  two_measurement_file)).
  vm_compute. reflexivity.
Defined.

(** X30.  The columns come from the first measurement, the cells from
    every measurement: when a table is returned and some measurement has
    more items than the first one, [SetCellText] is called for its row with
    the column index that equals the number of columns, one past the last
    column. *)
Theorem metadata2vtkTableNode_sets_cells_past_the_columns
    (data : Meta.File) (table : MeasurementTable)
    (measurements : list Meta.Measurement) (first measurement : Meta.Measurement)
    (r : nat) :
  metadata2vtkTableNode data = Ok (Some table) ->
  Meta.Measurements data = Some measurements ->
  measurements !! 0%nat = Some first ->
  measurements !! r = Some measurement ->
  (item_count first < item_count measurement)%nat ->
  exists text, (r, length (table_columns table), text) ∈ table_cells table.
Proof.
  intros Hrun Hdata Hfirst Hr Hmore.
  apply metadata2vtkTableNode_returns in Hrun
    as (first' & rest & Hdata' & Hcolumns & _ & Hcells).
  rewrite Hdata in Hdata'. injection Hdata' as ->.
  cbn in Hfirst. injection Hfirst as ->.
  apply setupTableInformation_run in Hcolumns
    as (items & names & Hitems & Hlen & _ & Hcolumns).
  assert (Hwidth : length (table_columns table) = S (item_count first)).
  { rewrite Hcolumns. cbn [length]. rewrite length_imap, Hlen.
    unfold item_count. rewrite Hitems. reflexivity. }
  unfold item_count in Hmore at 2.
  destruct (lookup_lt_is_Some_2 (default [] (Meta.measurementItems measurement))
              (item_count first) Hmore) as [item Hitem].
  exists (default "" (Meta.value item)). rewrite Hcells, Hwidth.
  apply list_elem_of_In, in_concat.
  exists (measurement_row_cells r measurement). split.
  - apply list_elem_of_In, list_elem_of_lookup. exists r.
    rewrite list_lookup_imap, Hr. reflexivity.
  - apply list_elem_of_In. unfold measurement_row_cells. right.
    apply list_elem_of_lookup. exists (item_count first).
    rewrite list_lookup_imap, Hitem. cbn. do 3 f_equal. lia.
Qed.

Lemma metadata2vtkTableNode_sets_cells_past_the_columns_witness :
  exists table,
    metadata2vtkTableNode two_measurement_file = Ok (Some table) /\
    length (table_columns table) = 2%nat /\
    exists text, (1%nat, length (table_columns table), text) ∈ table_cells table.
Proof.
  eexists. split; [vm_compute; reflexivity|]. split; [reflexivity|].
  eapply (metadata2vtkTableNode_sets_cells_past_the_columns
            two_measurement_file _ [short_measurement; sample_measurement]
            short_measurement sample_measurement 1).
  - vm_compute. reflexivity.
  - reflexivity.
  - reflexivity.
  - reflexivity.
  - vm_compute. lia.
Defined.
